(** * Monolithos installer: license verification and install sequence

  A shallow embedding of [verifyLicense], [installMonolithos] and
  [enableSnippets] of the plugin class [MonolithosInstaller], together with
  the JavaScript string and object operations those three methods use.

  Host services (HTTP, the zip decoder, the vault adapter, the settings
  store, the progress callback, the JSON codec) are not code of the plugin.
  They are gathered in a [Host] record; every call to the host is recorded
  in a trace and may throw, as decided by the host's [fault] oracle. *)

From Stdlib Require Import String Ascii List ZArith Lia Bool DecimalString.
Import ListNotations.
Local Open Scope list_scope.
Local Open Scope string_scope.

(** ** JavaScript string methods *)

Module JSString.

(** [s.startsWith(sub)] *)
Fixpoint startsWith (s sub : string) {struct sub} : bool :=
  match sub, s with
  | EmptyString, _ => true
  | String _ _, EmptyString => false
  | String c sub', String d s' => Ascii.eqb c d && startsWith s' sub'
  end.

(** Offset of the first occurrence of [sub] in [s], if there is one. *)
Fixpoint find (s sub : string) : option nat :=
  if startsWith s sub then Some 0
  else match s with
       | EmptyString => None
       | String _ s' => option_map S (find s' sub)
       end.

(** Offset of the last occurrence of [sub] in [s], if there is one. *)
Fixpoint findLast (s sub : string) : option nat :=
  match s with
  | EmptyString => if startsWith s sub then Some 0 else None
  | String _ s' =>
      match findLast s' sub with
      | Some n => Some (S n)
      | None => if startsWith s sub then Some 0 else None
      end
  end.

(** [s.indexOf(sub)]: -1 when [sub] does not occur. *)
Definition indexOf (s sub : string) : Z :=
  match find s sub with Some n => Z.of_nat n | None => (-1)%Z end.

(** [s.lastIndexOf(sub)] *)
Definition lastIndexOf (s sub : string) : Z :=
  match findLast s sub with Some n => Z.of_nat n | None => (-1)%Z end.

(** [s.includes(sub)] *)
Definition includes (s sub : string) : bool :=
  match find s sub with Some _ => true | None => false end.

Fixpoint drop (n : nat) (s : string) : string :=
  match n, s with
  | O, _ => s
  | S _, EmptyString => EmptyString
  | S n', String _ s' => drop n' s'
  end.

Fixpoint take (n : nat) (s : string) : string :=
  match n, s with
  | O, _ => EmptyString
  | S _, EmptyString => EmptyString
  | S n', String c s' => String c (take n' s')
  end.

(** An index argument clamped to [0 .. s.length]. *)
Definition clamp (s : string) (i : Z) : nat :=
  Nat.min (Z.to_nat (Z.max 0 i)) (String.length s).

(** [s.substring(start)] and [s.substring(start, end)]: both indices are
    clamped to the string, and swapped when [start > end]. *)
Definition substring (s : string) (start : Z) (end_ : option Z) : string :=
  let a := clamp s start in
  let b := match end_ with Some e => clamp s e | None => String.length s end in
  let from := Nat.min a b in
  let to := Nat.max a b in
  take (to - from) (drop from s).

(** [s.endsWith(suffix)] *)
Definition endsWith (s suffix : string) : bool :=
  (String.length suffix <=? String.length s)%nat
  && String.eqb (drop (String.length s - String.length suffix) s) suffix.

(** [s.replace(pattern, replacement)] with a string pattern: only the first
    occurrence is replaced.  (The replacement used by the plugin is the
    empty string, so no [$] pattern is involved.) *)
Definition replace (s pattern replacement : string) : string :=
  match find s pattern with
  | Some i => take i s ++ replacement ++ drop (i + String.length pattern) s
  | None => s
  end.

(** [s.split(sep)] for a one-character separator. The result is never
    empty: its head is the first segment, its tail the remaining ones. *)
Fixpoint split (s : string) (sep : ascii) : string * list string :=
  match s with
  | EmptyString => (EmptyString, [])
  | String c s' =>
      let (hd, tl) := split s' sep in
      if Ascii.eqb c sep then (EmptyString, hd :: tl) else (String c hd, tl)
  end.

(** [parts[parts.length - 1]] for [parts = s.split(sep)]. *)
Definition lastPart (parts : string * list string) : string :=
  List.last (snd parts) (fst parts).

(** JavaScript truthiness of a string. *)
Definition nonEmpty (s : string) : bool :=
  match s with EmptyString => false | _ => true end.

End JSString.

Import JSString.

(** ** JSON values and JavaScript property access *)

(** The values [JSON.parse] produces.  Numbers are kept as integers: the
    plugin never computes with one, it only tests them for truthiness.
    An object is its list of own properties in enumeration order. *)
#[local] Set Warnings "-register-all".
Inductive json : Type :=
| JNull
| JBool (b : bool)
| JNum (n : Z)
| JStr (s : string)
| JArr (elements : list json)
| JObj (properties : list (string * json)).

(** What a [try] block can catch: an [Error] object, thrown by the engine
    ([TypeError], [SyntaxError]) or by the host with its message, or a value
    that is no [Error] object, which a host is free to throw ([None]:
    [undefined]). *)
Inductive Error : Type :=
| TypeError
| SyntaxError
| HostError (message : string)
| Thrown (value : option json).

(** Fallible pure computations: [inl] is a thrown error. *)
Definition Result (A : Type) : Type := (Error + A)%type.

Definition bindR {A B : Type} (r : Result A) (k : A -> Result B) : Result B :=
  match r with
  | inl e => inl e
  | inr a => k a
  end.

Declare Scope result_scope.
Delimit Scope result_scope with result.
Notation "x <- m ;; k" := (bindR m (fun x => k))
  (at level 61, m at next level, right associativity) : result_scope.

(** First binding of [k] in an association list. *)
Fixpoint lookup {A : Type} (k : string) (l : list (string * A)) : option A :=
  match l with
  | [] => None
  | (k', v) :: l' => if String.eqb k k' then Some v else lookup k l'
  end.

(** Assignment to key [k]: the first binding is replaced where it stands, a
    new key goes to the end. *)
Fixpoint update {A : Type} (k : string) (v : A) (l : list (string * A))
  : list (string * A) :=
  match l with
  | [] => [(k, v)]
  | (k', v') :: l' =>
      if String.eqb k k' then (k, v) :: l' else (k', v') :: update k v l'
  end.

(** JavaScript truthiness. *)
Definition truthy (v : json) : bool :=
  match v with
  | JNull => false
  | JBool b => b
  | JNum n => negb (Z.eqb n 0)
  | JStr s => nonEmpty s
  | JArr _ => true
  | JObj _ => true
  end.

(** Truthiness of a property read, where [None] is [undefined]. *)
Definition truthyProp (v : option json) : bool :=
  match v with
  | Some x => truthy x
  | None => false
  end.

(** [v.k] for a key that is no array index and no built-in property:
    reading from [null] throws, reading from a primitive or an array gives
    [undefined]. *)
Definition getProp (v : json) (k : string) : Result (option json) :=
  match v with
  | JNull => inl TypeError
  | JObj properties => inr (lookup k properties)
  | _ => inr None
  end.

(** [a || b] *)
Definition orElse (a : option json) (b : json) : json :=
  match a with
  | Some x => if truthy x then x else b
  | None => b
  end.

(** The object bound to [appearance] in [enableSnippets]: the parsed
    document, and the named own properties assigned to it when it is an
    array (they are invisible to [JSON.stringify]). *)
Record Appearance : Type := {
  document : json;
  named : list (string * json)
}.

Definition ofJson (j : json) : Appearance :=
  {| document := j; named := [] |}.

(** [appearance.k] *)
Definition getField (a : Appearance) (k : string) : Result (option json) :=
  match document a with
  | JArr _ => inr (lookup k (named a))
  | d => getProp d k
  end.

(** [appearance.k = v].  Class bodies are strict code, so the assignment
    throws on a primitive as it does on [null]. *)
Definition setField (a : Appearance) (k : string) (v : json) : Result Appearance :=
  match document a with
  | JObj properties =>
      inr {| document := JObj (update k v properties); named := named a |}
  | JArr _ =>
      inr {| document := document a; named := update k v (named a) |}
  | _ => inl TypeError
  end.

Definition isString (name : string) (v : json) : bool :=
  match v with
  | JStr s => String.eqb s name
  | _ => false
  end.

(** [v.includes(name)] for a string [name]: an array is searched for an
    equal element, a string for a substring; no other JSON value has a
    callable [includes]. *)
Definition callIncludes (v : option json) (name : string) : Result bool :=
  match v with
  | Some (JArr elements) => inr (existsb (isString name) elements)
  | Some (JStr s) => inr (includes s name)
  | _ => inl TypeError
  end.

(** [v.push(name)]: the array after the call. *)
Definition callPush (v : option json) (name : string) : Result json :=
  match v with
  | Some (JArr elements) => inr (JArr (elements ++ [JStr name])%list)
  | _ => inl TypeError
  end.

(** ** Plugin state and host *)

(** [interface MonolithosInstallerSettings] *)
Record Settings : Type := {
  licenseKey : string;
  installed : bool;
  installedVersion : string
}.

Definition DEFAULT_SETTINGS : Settings :=
  {| licenseKey := ""; installed := false; installedVersion := "" |}.

(** An entry of [zip.files]: the directory flag and the bytes that
    [entry.async('arraybuffer')] resolves to. *)
Record JSZipEntry : Type := {
  dir : bool;
  data : string
}.

(** Completed calls to the host, in the order they were made.  The
    [console.debug] lines are not recorded; [console.error] is, with the
    error that was caught. *)
Inductive Event : Type :=
| Progress (status : string)
| Request (method url body : string)
| LoadZip (zipData : string)
| ReadEntry (relativePath : string)
| Exists (path : string)
| Mkdir (path : string)
| WriteBinary (path content : string)
| Read (path : string)
| ListDir (path : string)
| Write (path text : string)
| SaveData (s : Settings)
| ConsoleError (label : string) (error : Error).

(** The vault's file system as the adapter shows it: files with their
    contents (bytes and text are not told apart), and folders. *)
Record Vault : Type := {
  files : list (string * string);
  folders : list string
}.

Definition isSome {A : Type} (o : option A) : bool :=
  match o with Some _ => true | None => false end.

Definition vaultExists (v : Vault) (path : string) : bool :=
  existsb (String.eqb path) (folders v) || isSome (lookup path (files v)).

Definition vaultMkdir (v : Vault) (path : string) : Vault :=
  {| files := files v; folders := (folders v ++ [path])%list |}.

Definition vaultWrite (v : Vault) (path content : string) : Vault :=
  {| files := update path content (files v); folders := folders v |}.

(** The folder a path lies in. *)
Definition parentOf (path : string) : string :=
  substring path 0 (Some (lastIndexOf path "/")).

(** [adapter.list(path).files]: full paths of the files directly in [path]. *)
Definition vaultList (v : Vault) (path : string) : list string :=
  filter (fun f => String.eqb (parentOf f) path) (map fst (files v)).

(** Everything the plugin gets from outside.  [server] gives the payload of
    a successful HTTP exchange, [unzip] the entries of a successfully decoded
    archive in [Object.entries] order, [JSON_stringify v n] is
    [JSON.stringify(v, null, n)] ([n = 0]: compact).  [fault] decides, from
    the calls completed so far, whether the next host call throws. *)
Record Host : Type := {
  configDir : string;
  server : string -> string -> string -> string;
  unzip : string -> list (string * JSZipEntry);
  JSON_parse : string -> option json;
  JSON_stringify : json -> nat -> string;
  fault : list Event -> Event -> option Error
}.

Record World : Type := {
  vault : Vault;
  settings : Settings;
  saved : option Settings;
  trace : list Event
}.

(** ** The monad of plugin code: state that survives a throw *)

Definition M (A : Type) : Type := World -> Result A * World.

Definition ret {A : Type} (a : A) : M A := fun w => (inr a, w).

Definition bind {A B : Type} (m : M A) (k : A -> M B) : M B :=
  fun w =>
    match m w with
    | (inr a, w') => k a w'
    | (inl e, w') => (inl e, w')
    end.

Definition throw {A : Type} (e : Error) : M A := fun w => (inl e, w).

(** [try { m } catch (error) { handler error }] *)
Definition tryCatch {A : Type} (m : M A) (handler : Error -> M A) : M A :=
  fun w =>
    match m w with
    | (inl e, w') => handler e w'
    | (inr a, w') => (inr a, w')
    end.

Definition liftR {A : Type} (r : Result A) : M A := fun w => (r, w).

Declare Scope prog_scope.
Delimit Scope prog_scope with prog.
Notation "x <- m ;; k" := (bind m (fun x => k))
  (at level 61, m at next level, right associativity) : prog_scope.
Notation "m ;; k" := (bind m (fun _ => k))
  (at level 61, right associativity) : prog_scope.

Definition record (e : Event) (w : World) : World :=
  {| vault := vault w; settings := settings w; saved := saved w;
     trace := (trace w ++ [e])%list |}.

Definition withVault (f : Vault -> Vault) (w : World) : World :=
  {| vault := f (vault w); settings := settings w; saved := saved w;
     trace := trace w |}.

Definition withSettings (f : Settings -> Settings) (w : World) : World :=
  {| vault := vault w; settings := f (settings w); saved := saved w;
     trace := trace w |}.

Definition modify (f : World -> World) : M unit := fun w => (inr tt, f w).

Definition gets {A : Type} (f : World -> A) : M A := fun w => (inr (f w), w).

(** ** The plugin *)

Definition API_BASE : string := "https://api.monolithos.ai".
Definition VERIFY_URL : string := API_BASE ++ "/verify".
Definition PLUGIN_DOWNLOAD_URL : string :=
  API_BASE ++ "/download/MONOLITHOS_PLUGIN_v1.0.zip".

(** The object [verifyLicense] resolves to; an absent key is [None]. *)
Record VerifyResult : Type := {
  valid : bool;
  tier : option json;
  error : option json
}.

(** The target of an archive entry in [installMonolithos]'s write loop, or
    [None] where the loop says [continue]. *)
Definition targetPath (configDir path : string) : option string :=
  if includes path "plugins/monolithos/" then
    let fileName := substring path (indexOf path "plugins/monolithos/") None in
    Some (configDir ++ "/" ++ fileName)
  else if includes path "snippets/" then
    let fileName := substring path (indexOf path "snippets/") None in
    Some (configDir ++ "/" ++ fileName)
  else None.

(** The snippet name of a listed file: the last path segment without its
    first [".css"]. *)
Definition snippetName (f : string) : string :=
  replace (lastPart (split f "/")) ".css" "".

(** The same in the earlier revision of the file ([main.ts]), which also
    writes [".obsidian"] where this one reads [configDir]. *)
Definition snippetName_legacy (f : string) : string :=
  replace (replace f ".obsidian/snippets/" "") ".css" "".

(** The keyword test of [enableSnippets]'s loop. *)
Definition isMonolithosSnippet (name : string) : bool :=
  includes name "monolithos" || includes name "sovereign"
  || includes name "archive" || includes name "chamber"
  || includes name "oracle" || includes name "canvas".

(** [if (!appearance.enabledCssSnippets) appearance.enabledCssSnippets = []] *)
Definition ensureList (appearance : Appearance) : Result Appearance :=
  (current <- getField appearance "enabledCssSnippets" ;;
   if truthyProp current then inr appearance
   else setField appearance "enabledCssSnippets" (JArr []))%result.

(** One turn of the loop over [snippetNames]. *)
Definition enableOne (appearance : Appearance) (name : string) : Result Appearance :=
  if isMonolithosSnippet name then
    (list <- getField appearance "enabledCssSnippets" ;;
     present <- callIncludes list name ;;
     if present then inr appearance
     else
       list' <- callPush list name ;;
       setField appearance "enabledCssSnippets" list')%result
  else inr appearance.

Fixpoint enableAll (appearance : Appearance) (snippetNames : list string)
  : Result Appearance :=
  match snippetNames with
  | [] => inr appearance
  | name :: rest =>
      (appearance' <- enableOne appearance name ;;
       enableAll appearance' rest)%result
  end.

Section Plugin.

Variable host : Host.

(** How [enableSnippets] names a listed file: [snippetName] in the current
    revision, [snippetName_legacy] in the earlier one. *)
Variable nameOf : string -> string.

Local Open Scope prog_scope.

(** A host call: it throws when the oracle says so, and is recorded
    otherwise. *)
Definition call (e : Event) : M unit :=
  fun w =>
    match fault host (trace w) e with
    | Some err => (inl err, w)
    | None => (inr tt, record e w)
    end.

Definition onProgress (status : string) : M unit := call (Progress status).

Definition console_error (label : string) (e : Error) : M unit :=
  modify (record (ConsoleError label e)).

(** [requestUrl({url, method, body})]: the payload of the response. *)
Definition requestUrl (method url body : string) : M string :=
  call (Request method url body) ;;
  ret (server host method url body).

(** [response.json] *)
Definition responseJson (payload : string) : M json :=
  match JSON_parse host payload with
  | Some v => ret v
  | None => throw SyntaxError
  end.

Definition loadAsync (zipData : string) : M (list (string * JSZipEntry)) :=
  call (LoadZip zipData) ;;
  ret (unzip host zipData).

Definition entryAsync (relativePath : string) (entry : JSZipEntry) : M string :=
  call (ReadEntry relativePath) ;;
  ret (data entry).

Definition adapter_exists (path : string) : M bool :=
  call (Exists path) ;;
  gets (fun w => vaultExists (vault w) path).

Definition adapter_mkdir (path : string) : M unit :=
  call (Mkdir path) ;;
  modify (withVault (fun v => vaultMkdir v path)).

Definition adapter_writeBinary (path content : string) : M unit :=
  call (WriteBinary path content) ;;
  modify (withVault (fun v => vaultWrite v path content)).

Definition adapter_read (path : string) : M string :=
  call (Read path) ;;
  found <- gets (fun w => lookup path (files (vault w))) ;;
  match found with
  | Some content => ret content
  | None => throw (HostError "ENOENT")
  end.

Definition adapter_list (path : string) : M (list string) :=
  call (ListDir path) ;;
  gets (fun w => vaultList (vault w) path).

Definition adapter_write (path text : string) : M unit :=
  call (Write path text) ;;
  modify (withVault (fun v => vaultWrite v path text)).

(** [saveSettings]: [saveData(this.settings)] *)
Definition saveSettings : M unit :=
  s <- gets settings ;;
  call (SaveData s) ;;
  modify (fun w => {| vault := vault w; settings := settings w;
                      saved := Some s; trace := trace w |}).

(** [verifyLicense(licenseKey)] *)
Definition verifyLicense (licenseKey : string) : M VerifyResult :=
  tryCatch
    (response <- requestUrl "POST" VERIFY_URL
                   (JSON_stringify host (JObj [("license_key", JStr licenseKey)]) 0) ;;
     data <- responseJson response ;;
     isValid <- liftR (getProp data "valid") ;;
     if truthyProp isValid then
       dataTier <- liftR (getProp data "tier") ;;
       ret {| valid := true; tier := dataTier; error := None |}
     else
       message <- liftR (getProp data "message") ;;
       ret {| valid := false; tier := None;
              error := Some (orElse message (JStr "Invalid license key")) |})
    (fun err =>
       console_error "License verification error:" err ;;
       ret {| valid := false; tier := None;
              error := Some (JStr "Could not connect to server") |}).

(** [enableSnippets()] *)
Definition enableSnippetsWith : M unit :=
  let appearancePath := configDir host ++ "/appearance.json" in
  tryCatch
    (present <- adapter_exists appearancePath ;;
     appearance <-
       (if present then
          content <- adapter_read appearancePath ;;
          match JSON_parse host content with
          | Some v => ret (ofJson v)
          | None => throw SyntaxError
          end
        else ret (ofJson (JObj []))) ;;
     let snippetsPath := configDir host ++ "/snippets" in
     haveSnippets <- adapter_exists snippetsPath ;;
     if haveSnippets then
       snippetFiles <- adapter_list snippetsPath ;;
       let snippetNames :=
         map nameOf (filter (fun f => endsWith f ".css") snippetFiles) in
       appearance1 <- liftR (ensureList appearance) ;;
       appearance2 <- liftR (enableAll appearance1 snippetNames) ;;
       adapter_write appearancePath
         (JSON_stringify host (document appearance2) 2)
     else ret tt)
    (fun err => console_error "[Installer] Could not enable snippets:" err).

(** Step 3 of [installMonolithos]: the loop over [Object.entries(zip.files)]
    that collects the contents of the entries that are no directories. *)
Fixpoint readEntries (entries : list (string * JSZipEntry))
  : M (list (string * string)) :=
  match entries with
  | [] => ret []
  | (relativePath, entry) :: rest =>
      if dir entry then readEntries rest
      else
        content <- entryAsync relativePath entry ;;
        collected <- readEntries rest ;;
        ret ((relativePath, content) :: collected)
  end.

(** The body of the write loop for an entry that has a target. *)
Definition writeFile (target content : string) : M unit :=
  let dir := substring target 0 (Some (lastIndexOf target "/")) in
  missing <-
    (if nonEmpty dir then
       present <- adapter_exists dir ;; ret (negb present)
     else ret false) ;;
  (if missing then adapter_mkdir dir else ret tt) ;;
  adapter_writeBinary target content.

(** Step 4: the loop [for (const file of files)]. *)
Fixpoint writeFiles (collected : list (string * string)) : M unit :=
  match collected with
  | [] => ret tt
  | (path, content) :: rest =>
      match targetPath (configDir host) path with
      | Some target => writeFile target content ;; writeFiles rest
      | None => writeFiles rest
      end
  end.

(** Steps 1 to 4 of [installMonolithos]: download, decode, collect, write. *)
Definition downloadAndWrite : M unit :=
  onProgress "Downloading Monolithos..." ;;
  zipData <- requestUrl "GET" PLUGIN_DOWNLOAD_URL "" ;;
  onProgress "Extracting files..." ;;
  zip <- loadAsync zipData ;;
  collected <- readEntries zip ;;
  onProgress "Installing files..." ;;
  writeFiles collected.

Definition markInstalled (s : Settings) : Settings :=
  {| licenseKey := licenseKey s; installed := true; installedVersion := "1.0.0" |}.

(** Steps 5 and 6: the appearance edit, then the settings. *)
Definition configureAndFinish : M bool :=
  onProgress "Configuring appearance..." ;;
  enableSnippetsWith ;;
  onProgress "Installation complete!" ;;
  modify (withSettings markInstalled) ;;
  saveSettings ;;
  ret true.

(** [installMonolithos(onProgress)] *)
Definition installMonolithosWith : M bool :=
  tryCatch
    (downloadAndWrite ;; configureAndFinish)
    (fun err =>
       console_error "[Installer] Installation failed:" err ;;
       throw err).

End Plugin.

(** The current revision. *)
Definition enableSnippets (host : Host) : M unit :=
  enableSnippetsWith host snippetName.

Definition installMonolithos (host : Host) : M bool :=
  installMonolithosWith host snippetName.

(** ** What a run leaves behind *)

(** The effect of a completed host call on the vault. *)
Definition effect (e : Event) (v : Vault) : Vault :=
  match e with
  | Mkdir path => vaultMkdir v path
  | WriteBinary path content => vaultWrite v path content
  | Write path text => vaultWrite v path text
  | _ => v
  end.

Definition replay (t : list Event) (v : Vault) : Vault :=
  fold_left (fun v e => effect e v) t v.

(** The world after the host calls [t] were completed, one after the other:
    nothing but these calls has touched the vault, and the settings, in
    memory and on disk, are as they were. *)
Definition advance (t : list Event) (w : World) : World :=
  {| vault := replay t (vault w); settings := settings w; saved := saved w;
     trace := (trace w ++ t)%list |}.

(** The binary writes among the calls [t], in order. *)
Definition writesOf (t : list Event) : list (string * string) :=
  flat_map (fun e => match e with
                     | WriteBinary path content => [(path, content)]
                     | _ => []
                     end) t.

(** The statuses the progress callback received. *)
Definition progressOf (t : list Event) : list string :=
  flat_map (fun e => match e with Progress status => [status] | _ => [] end) t.

(** The last content written to [path] by the calls [t]. *)
Definition lastWrite (path : string) (t : list Event) : option string :=
  fold_left (fun acc e =>
               match e with
               | WriteBinary p c => if String.eqb p path then Some c else acc
               | Write p c => if String.eqb p path then Some c else acc
               | _ => acc
               end) t None.

(** Calls that leave the vault alone. *)
Definition readOnly (e : Event) : bool :=
  match e with
  | Mkdir _ | WriteBinary _ _ | Write _ _ => false
  | _ => true
  end.

(** The calls the write loop makes. *)
Definition isWriteStep (e : Event) : bool :=
  match e with
  | Exists _ | Mkdir _ | WriteBinary _ _ => true
  | _ => false
  end.

(** The entries of an archive that are files, with their contents. *)
Definition fileEntries (entries : list (string * JSZipEntry)) : list (string * string) :=
  flat_map (fun pe => if dir (snd pe) then [] else [(fst pe, data (snd pe))]) entries.

(** Where the files of an archive go: target path and content of each entry
    that has a target, in archive order. *)
Definition placed (configDir : string) (collected : list (string * string))
  : list (string * string) :=
  flat_map (fun pc => match targetPath configDir (fst pc) with
                      | Some target => [(target, snd pc)]
                      | None => []
                      end) collected.

(** The archive a host serves. *)
Definition archive (host : Host) : list (string * JSZipEntry) :=
  unzip host (server host "GET" PLUGIN_DOWNLOAD_URL "").

Definition appearancePathOf (host : Host) : string :=
  configDir host ++ "/appearance.json".

Definition snippetsPathOf (host : Host) : string :=
  configDir host ++ "/snippets".

(** The document [enableSnippets] starts from, read off the vault. *)
Definition loadedAppearance (host : Host) (v : Vault) : Result Appearance :=
  if vaultExists v (appearancePathOf host) then
    match lookup (appearancePathOf host) (files v) with
    | Some content =>
        match JSON_parse host content with
        | Some j => inr (ofJson j)
        | None => inl SyntaxError
        end
    | None => inl (HostError "ENOENT")
    end
  else inr (ofJson (JObj [])).

(** The names [enableSnippets] goes through. *)
Definition listedNames (host : Host) (nameOf : string -> string) (v : Vault)
  : list string :=
  map nameOf (filter (fun f => endsWith f ".css") (vaultList v (snippetsPathOf host))).

(** The document [enableSnippets] arrives at when no host call fails:
    [None] when there is no snippets folder, so nothing to write. *)
Definition editedAppearance (host : Host) (nameOf : string -> string) (v : Vault)
  : Result (option Appearance) :=
  (appearance <- loadedAppearance host v ;;
   if vaultExists v (snippetsPathOf host) then
     appearance1 <- ensureList appearance ;;
     appearance2 <- enableAll appearance1 (listedNames host nameOf v) ;;
     inr (Some appearance2)
   else inr None)%result.

(** The enabled-snippets list of a document. *)
Definition enabledOf (j : json) : list json :=
  match j with
  | JObj properties =>
      match lookup "enabledCssSnippets" properties with
      | Some (JArr elements) => elements
      | _ => []
      end
  | _ => []
  end.

(** The properties of a document other than the enabled-snippets list. *)
Definition otherProperties (j : json) : list (string * json) :=
  match j with
  | JObj properties =>
      filter (fun kv => negb (String.eqb (fst kv) "enabledCssSnippets")) properties
  | _ => []
  end.

(** The enabled-snippets list as the appearance file of a vault has it. *)
Definition enabledSnippets (host : Host) (v : Vault) : list json :=
  match lookup (appearancePathOf host) (files v) with
  | Some content =>
      match JSON_parse host content with
      | Some j => enabledOf j
      | None => []
      end
  | None => []
  end.

(** A host none of whose calls fails. *)
Definition faultFree (host : Host) : Prop :=
  forall t e, fault host t e = None.

(** The folder the write loop makes sure of before it writes [target]. *)
Definition dirOf (target : string) : string :=
  substring target 0 (Some (lastIndexOf target "/")).

(** The vault after the write loop went through [writes] without a fault. *)
Definition writeEffect (v : Vault) (tc : string * string) : Vault :=
  let dir := dirOf (fst tc) in
  let v1 := if nonEmpty dir && negb (vaultExists v dir) then vaultMkdir v dir else v in
  vaultWrite v1 (fst tc) (snd tc).

Definition afterWrites (host : Host) (v : Vault) : Vault :=
  fold_left writeEffect (placed (configDir host) (fileEntries (archive host))) v.

(** The calls of steps 1 to 3, up to the start of the write loop. *)
Definition preparation (host : Host) : list Event :=
  ([Progress "Downloading Monolithos...";
    Request "GET" PLUGIN_DOWNLOAD_URL "";
    Progress "Extracting files...";
    LoadZip (server host "GET" PLUGIN_DOWNLOAD_URL "")]
   ++ map ReadEntry (map fst (fileEntries (archive host)))
   ++ [Progress "Installing files..."])%list.

(** The calls [enableSnippets] makes before it writes. *)
Definition isQuery (e : Event) : bool :=
  match e with
  | Exists _ | Read _ | ListDir _ => true
  | _ => false
  end.

Definition enableFailed : string := "[Installer] Could not enable snippets:".
Definition installFailed : string := "[Installer] Installation failed:".

(** The world once [saveData] has stored the settings. *)
Definition persisted (w : World) : World :=
  {| vault := vault w; settings := settings w; saved := Some (settings w);
     trace := trace w |}.

Definition listKey : string := "enabledCssSnippets".

(** The three ways a run of [enableSnippets] on the vault [v] can go, told
    by the calls [t] it completed: it wrote the edited document; or it found
    no snippets folder and wrote nothing; or it caught an error, thrown by
    the edit itself or by a host call. *)
Definition editOutcome (host : Host) (nameOf : string -> string) (v : Vault)
           (t : list Event) : Prop :=
  (exists a pre,
     editedAppearance host nameOf v = inr (Some a)
     /\ t = (pre ++ [Write (appearancePathOf host)
                      (JSON_stringify host (document a) 2)])%list
     /\ forallb isQuery pre = true)
  \/ (editedAppearance host nameOf v = inr None
      /\ forallb isQuery t = true /\ t <> [])
  \/ (exists err pre,
        t = (pre ++ [ConsoleError enableFailed err])%list
        /\ forallb isQuery pre = true
        /\ (editedAppearance host nameOf v = inl err
            \/ exists t0 e, fault host t0 e = Some err)).

(** The vault after [enableSnippets] ran without a fault. *)
Definition afterEdit (host : Host) (nameOf : string -> string) (v : Vault) : Vault :=
  match editedAppearance host nameOf v with
  | inr (Some a) =>
      vaultWrite v (appearancePathOf host) (JSON_stringify host (document a) 2)
  | _ => v
  end.

Definition couldNotConnect : VerifyResult :=
  {| valid := false; tier := None;
     error := Some (JStr "Could not connect to server") |}.

Definition verifyBody (host : Host) (licenseKey : string) : string :=
  JSON_stringify host (JObj [("license_key", JStr licenseKey)]) 0.

(** [suffix] is what is left of [path] from the first occurrence of
    [marker] on. *)
Definition suffixFromFirst (path marker suffix : string) : Prop :=
  exists pre rest,
    path = pre ++ marker ++ rest
    /\ suffix = marker ++ rest
    /\ forall m, m < String.length pre -> startsWith (drop m path) marker = false.

Definition finalProgress : list Event :=
  [Progress "Installation complete!"].

(** The calls the appearance edit makes. *)
Definition isEditStep (e : Event) : bool :=
  match e with
  | Exists _ | Read _ | ListDir _ | Write _ _ | ConsoleError _ _ => true
  | _ => false
  end.

(** ** A concrete host, to run the plugin on *)

Module Demo.

Definition quote : string := String (ascii_of_nat 34) EmptyString.
Definition newline : string := String (ascii_of_nat 10) EmptyString.

Fixpoint spaces (n : nat) : string :=
  match n with
  | O => EmptyString
  | S n' => String " " (spaces n')
  end.

(** The quote and the backslash are escaped; the demo has no other
    character that JSON escapes. *)
Fixpoint escape (s : string) : string :=
  match s with
  | EmptyString => EmptyString
  | String c s' =>
      if Ascii.eqb c (ascii_of_nat 34) || Ascii.eqb c (ascii_of_nat 92)
      then String (ascii_of_nat 92) (String c (escape s'))
      else String c (escape s')
  end.

Fixpoint joinWith (sep : string) (items : list string) : string :=
  match items with
  | [] => EmptyString
  | [x] => x
  | x :: rest => x ++ sep ++ joinWith sep rest
  end.

Definition bracket (opening closing : string) (gap level : nat)
           (items : list string) : string :=
  match items with
  | [] => opening ++ closing
  | _ =>
      if Nat.eqb gap 0 then opening ++ joinWith "," items ++ closing
      else
        opening ++ newline ++ spaces (gap * S level)
        ++ joinWith ("," ++ newline ++ spaces (gap * S level)) items
        ++ newline ++ spaces (gap * level) ++ closing
  end.

(** The text [JSON.stringify(j, null, gap)] returns. *)
Fixpoint print (gap level : nat) (j : json) {struct j} : string :=
  match j with
  | JNull => "null"
  | JBool true => "true"
  | JBool false => "false"
  | JNum n => DecimalString.NilZero.string_of_int (Z.to_int n)
  | JStr s => quote ++ escape s ++ quote
  | JArr elements =>
      bracket "[" "]" gap level (map (print gap (S level)) elements)
  | JObj properties =>
      bracket "{" "}" gap level
        (map (fun kv : string * json =>
                let (k, v) := kv in
                quote ++ escape k ++ quote
                ++ (if Nat.eqb gap 0 then ":" else ": ")
                ++ print gap (S level) v) properties)
  end.

Definition stringify (j : json) (gap : nat) : string := print gap 0 j.

Definition rejected : json :=
  JObj [("valid", JBool false); ("message", JStr "")].

Definition twice : json :=
  JObj [("enabledCssSnippets", JArr [JStr "a"; JStr "a"])].

Definition themed : json :=
  JObj [("theme", JStr "obsidian")].

Definition themedEmpty : json :=
  JObj [("theme", JStr "obsidian"); ("enabledCssSnippets", JArr [])].

Definition themedCore : json :=
  JObj [("theme", JStr "obsidian");
        ("enabledCssSnippets", JArr [JStr "monolithos-core"])].

(** The documents the demo's parser knows. *)
Definition documents : list json :=
  [rejected; twice; themed; themedEmpty; themedCore;
   JObj []; JObj [("enabledCssSnippets", JArr [])];
   JObj [("enabledCssSnippets", JArr [JStr "monolithos-core"])]].

(** [JSON.parse] on the texts of these documents, compact or indented by
    two; any other text is taken as malformed. *)
Definition parse (text : string) : option json :=
  List.find (fun d => String.eqb text (print 2 0 d) || String.eqb text (print 0 0 d))
            documents.

Definition file (content : string) : JSZipEntry :=
  {| dir := false; data := content |}.

Definition folder : JSZipEntry := {| dir := true; data := "" |}.

(** The archive of the specification's example. *)
Definition example : list (string * JSZipEntry) :=
  [("plugins/monolithos/main.js", file "main");
   ("snippets/theme.css", file "theme");
   ("readme.txt", file "readme")].

(** An archive with a top folder, a folder entry and a matching snippet. *)
Definition package : list (string * JSZipEntry) :=
  [("pkg/", folder);
   ("pkg/plugins/monolithos/main.js", file "main");
   ("pkg/snippets/", folder);
   ("pkg/snippets/monolithos-core.css", file "core");
   ("pkg/readme.txt", file "readme")].

Definition noFault : list Event -> Event -> option Error := fun _ _ => None.

(** The host: the server rejects every key with an empty message. *)
Definition host (entries : list (string * JSZipEntry))
           (faults : list Event -> Event -> option Error) : Host :=
  {| configDir := ".obsidian";
     server := fun method _ _ =>
                 if String.eqb method "POST" then print 0 0 rejected else "PK";
     unzip := fun _ => entries;
     JSON_parse := parse;
     JSON_stringify := stringify;
     fault := faults |}.

Definition emptyVault : Vault := {| files := []; folders := [".obsidian"] |}.

Definition start (v : Vault) : World :=
  {| vault := v; settings := DEFAULT_SETTINGS; saved := None; trace := [] |}.

(** A vault whose appearance file holds [text]. *)
Definition withAppearance (text : string) : Vault :=
  {| files := [(".obsidian/appearance.json", text)]; folders := [".obsidian"] |}.

(** The write of the snippet fails. *)
Definition snippetWriteFails : list Event -> Event -> option Error :=
  fun _ e =>
    match e with
    | WriteBinary path _ =>
        if String.eqb path ".obsidian/snippets/theme.css"
        then Some (HostError "EACCES") else None
    | _ => None
    end.

(** The download fails. *)
Definition offline : list Event -> Event -> option Error :=
  fun _ e =>
    match e with
    | Request _ _ _ => Some (HostError "net::ERR_CONNECTION_REFUSED")
    | _ => None
    end.

End Demo.

(** ** The rest of the plugin: settings, the install modal, the settings tab *)

(** [loadSettings]: [Object.assign({}, DEFAULT_SETTINGS, await loadData())],
    for the data [saveData] has stored ([None]: nothing saved yet, [loadData]
    resolves to [null]). *)
Definition assignSettings (defaults : Settings) (data : option Settings) : Settings :=
  match data with
  | Some s => s
  | None => defaults
  end.

Definition loadSettings : M unit :=
  modify (fun w => {| vault := vault w;
                      settings := assignSettings DEFAULT_SETTINGS (saved w);
                      saved := saved w; trace := trace w |}).

(** White space, among the characters a [string] has here (code units below
    256): tab, line feed, vertical tab, form feed, carriage return, space
    and no-break space. *)
Definition isWhiteSpace (c : ascii) : bool :=
  let n := nat_of_ascii c in
  ((9 <=? n) && (n <=? 13))%nat || Nat.eqb n 32 || Nat.eqb n 160.

Fixpoint trimStart (s : string) : string :=
  match s with
  | String c s' => if isWhiteSpace c then trimStart s' else s
  | EmptyString => EmptyString
  end.

Fixpoint trimEnd (s : string) : string :=
  match s with
  | String c s' =>
      match trimEnd s' with
      | EmptyString => if isWhiteSpace c then EmptyString else String c EmptyString
      | rest => String c rest
      end
  | EmptyString => EmptyString
  end.

(** [s.trim()] *)
Definition trim (s : string) : string := trimEnd (trimStart s).

(** What is assigned to [statusEl.textContent]: a text, a value the DOM
    turns into text, or the template [`License valid! Tier: ${tier}`]. *)
Inductive Display : Type :=
| Text (s : string)
| Shown (v : json)
| LicenseValid (tier : option json).

(** The state of an [InstallModal]: its [isInstalling] field and what
    [handleInstall] reads and writes of the input, the status line and the
    primary button; whether it is open, and whether the timer that closes it
    (and then shows the notice) is set. *)
Record Modal : Type := {
  isInstalling : bool;
  inputValue : string;
  statusText : Display;
  statusClass : string;
  buttonText : string;
  buttonDisabled : bool;
  isOpen : bool;
  closeTimer : bool
}.


(** The click handler of the cancel button. *)
Definition cancel (m : Modal) : Modal :=
  if negb (isInstalling m) then
    {| isInstalling := isInstalling m; inputValue := inputValue m;
       statusText := statusText m; statusClass := statusClass m;
       buttonText := buttonText m; buttonDisabled := buttonDisabled m;
       isOpen := false; closeTimer := closeTimer m |}
  else m.

(** Code of the modal: the state of the modal and of the plugin, both
    surviving a throw. *)
Definition UI (A : Type) : Type := Modal -> World -> Result A * Modal * World.

Definition uret {A : Type} (a : A) : UI A := fun m w => (inr a, m, w).

Definition ubind {A B : Type} (c : UI A) (k : A -> UI B) : UI B :=
  fun m w =>
    match c m w with
    | (inr a, m', w') => k a m' w'
    | (inl e, m', w') => (inl e, m', w')
    end.

Definition utry {A : Type} (c : UI A) (handler : Error -> UI A) : UI A :=
  fun m w =>
    match c m w with
    | (inl e, m', w') => handler e m' w'
    | (inr a, m', w') => (inr a, m', w')
    end.

(** Plugin code called from the modal. *)
Definition plugin {A : Type} (c : M A) : UI A :=
  fun m w => let (r, w') := c w in (r, m, w').

Definition setModal (f : Modal -> Modal) : UI unit := fun m w => (inr tt, f m, w).

Definition getModal {A : Type} (f : Modal -> A) : UI A := fun m w => (inr (f m), m, w).

Declare Scope ui_scope.
Delimit Scope ui_scope with ui.
Notation "x <- c ;; k" := (ubind c (fun x => k))
  (at level 61, c at next level, right associativity) : ui_scope.
Notation "c ;; k" := (ubind c (fun _ => k))
  (at level 61, right associativity) : ui_scope.

Definition setStatus (text : Display) (class : string) (m : Modal) : Modal :=
  {| isInstalling := isInstalling m; inputValue := inputValue m;
     statusText := text; statusClass := class;
     buttonText := buttonText m; buttonDisabled := buttonDisabled m;
     isOpen := isOpen m; closeTimer := closeTimer m |}.

Definition setStatusText (text : Display) (m : Modal) : Modal :=
  setStatus text (statusClass m) m.

Definition setButton (text : string) (disabled : bool) (m : Modal) : Modal :=
  {| isInstalling := isInstalling m; inputValue := inputValue m;
     statusText := statusText m; statusClass := statusClass m;
     buttonText := text; buttonDisabled := disabled;
     isOpen := isOpen m; closeTimer := closeTimer m |}.

Definition setInstalling (b : bool) (m : Modal) : Modal :=
  {| isInstalling := b; inputValue := inputValue m;
     statusText := statusText m; statusClass := statusClass m;
     buttonText := buttonText m; buttonDisabled := buttonDisabled m;
     isOpen := isOpen m; closeTimer := closeTimer m |}.

(** [setTimeout(() => { this.close(); new Notice(...) }, 1500)] *)
Definition setCloseTimer (m : Modal) : Modal :=
  {| isInstalling := isInstalling m; inputValue := inputValue m;
     statusText := statusText m; statusClass := statusClass m;
     buttonText := buttonText m; buttonDisabled := buttonDisabled m;
     isOpen := isOpen m; closeTimer := true |}.

(** [a ?? b] *)
Definition nullish (a : option json) (b : json) : json :=
  match a with
  | None => b
  | Some JNull => b
  | Some x => x
  end.

(** What assigning [v] to [textContent] shows. *)
Definition shown (v : json) : Display :=
  match v with
  | JStr s => Text s
  | _ => Shown v
  end.

Definition setLicenseKey (key : string) (s : Settings) : Settings :=
  {| licenseKey := key; installed := installed s;
     installedVersion := installedVersion s |}.

Section Modal.

Variable host : Host.

(** [error.message] as the engine words it, for the errors it throws
    itself. *)
Variable engineMessage : Error -> string.

(** [error instanceof Error ? error.message : 'Unknown error'] *)
Definition errorMessage (e : Error) : string :=
  match e with
  | TypeError | SyntaxError => engineMessage e
  | HostError message => message
  | Thrown _ => "Unknown error"
  end.

Local Open Scope ui_scope.

(** [installMonolithos] with the modal's callback, which shows each status
    it receives. *)
Definition installFromModal : UI bool :=
  fun m w =>
    let (r, w') := installMonolithos host w in
    let statuses := progressOf (skipn (List.length (trace w)) (trace w')) in
    (r, fold_left (fun m status => setStatusText (Text status) m) statuses m, w').

(** [handleInstall(input, statusEl, installBtn)] *)
Definition handleInstall : UI unit :=
  busy <- getModal isInstalling ;;
  if busy then uret tt
  else
    value <- getModal inputValue ;;
    let key := trim value in
    if negb (nonEmpty key) then
      setModal (setStatus (Text "Please enter a license key") "installer-status error")
    else
      setModal (setInstalling true) ;;
      setModal (setButton "Verifying..." true) ;;
      setModal (setStatus (Text "Verifying license...") "installer-status") ;;
      result <- plugin (verifyLicense host key) ;;
      if negb (valid result) then
        setModal (setStatus (shown (nullish (error result) (JStr "Verification failed")))
                            "installer-status error") ;;
        setModal (setButton "Verify & install" false) ;;
        setModal (setInstalling false)
      else
        plugin (modify (withSettings (setLicenseKey key))) ;;
        plugin (saveSettings host) ;;
        setModal (setStatusText (LicenseValid (tier result))) ;;
        setModal (fun m => setButton "Installing..." (buttonDisabled m) m) ;;
        utry
          (installFromModal ;;
           setModal (setStatus (Text "Installation complete!") "installer-status success") ;;
           setModal (fun m => setButton "Done!" (buttonDisabled m) m) ;;
           setModal setCloseTimer)
          (fun err =>
             setModal (setStatus (Text ("Installation failed: " ++ errorMessage err))
                                 "installer-status error") ;;
             setModal (setButton "Retry" false) ;;
             setModal (setInstalling false)).

End Modal.

(** The modal [m] with these in its fields: whether it is installing, the
    status text and class, the text of the primary button and whether it is
    disabled, and whether the closing timer is set. *)
Definition shows (busy : bool) (status : Display) (class : string)
           (button : string) (disabled timer : bool) (m : Modal) : Modal :=
  {| isInstalling := busy; inputValue := inputValue m;
     statusText := status; statusClass := class;
     buttonText := button; buttonDisabled := disabled;
     isOpen := isOpen m; closeTimer := timer |}.

(** A string of white space only. *)
Fixpoint blank (s : string) : bool :=
  match s with
  | EmptyString => true
  | String c s' => isWhiteSpace c && blank s'
  end.

(** What [display] of the settings tab shows: the description and the
    button of the status row, and whether there is a license row. *)
Record SettingsView : Type := {
  statusDescription : string;
  installButton : string;
  licenseRow : bool
}.

Definition display (s : Settings) : SettingsView :=
  {| statusDescription :=
       if installed s
       then "Monolithos v" ++ installedVersion s ++ " installed"
       else "Not installed";
     installButton := if installed s then "Reinstall" else "Install";
     licenseRow := nonEmpty (licenseKey s) |}.


(** ** The earlier revision *)

(** [main.ts] writes [".obsidian"] where the current revision reads the
    vault's [configDir], and names a listed snippet by
    [snippetName_legacy]. *)
Definition withConfigDir (dir : string) (host : Host) : Host :=
  {| configDir := dir; server := server host; unzip := unzip host;
     JSON_parse := JSON_parse host; JSON_stringify := JSON_stringify host;
     fault := fault host |}.

Module Earlier.

Definition enableSnippets (host : Host) : M unit :=
  enableSnippetsWith (withConfigDir ".obsidian" host) snippetName_legacy.

Definition installMonolithos (host : Host) : M bool :=
  installMonolithosWith (withConfigDir ".obsidian" host) snippetName_legacy.

End Earlier.

(** ** What a run may touch *)

(** A path under one of the two folders the installer writes to. *)
Definition underInstallFolders (configDir path : string) : bool :=
  startsWith path (configDir ++ "/plugins/monolithos/")
  || startsWith path (configDir ++ "/snippets/").

(** The host calls [installMonolithos] may make. *)
Definition installCall (host : Host) (e : Event) : Prop :=
  match e with
  | Request method url body =>
      method = "GET" /\ url = PLUGIN_DOWNLOAD_URL /\ body = ""
  | WriteBinary path _ => underInstallFolders (configDir host) path = true
  | Mkdir path =>
      exists target,
        underInstallFolders (configDir host) target = true /\ path = dirOf target
  | Write path _ => path = appearancePathOf host
  | Read path => path = appearancePathOf host
  | ListDir path => path = snippetsPathOf host
  | _ => True
  end.

(** No [mkdir] among the calls [t], made from the vault [v] on, is for a
    path that exists when it is made. *)
Definition mkdirGuarded (v : Vault) (t : list Event) : Prop :=
  forall t1 path t2,
    t = (t1 ++ Mkdir path :: t2)%list -> vaultExists (replay t1 v) path = false.

(** Each of the calls [calls], made in this order from the trace [t] on,
    goes through: the host throws at none of them. *)
Fixpoint answered (host : Host) (t calls : list Event) : Prop :=
  match calls with
  | [] => True
  | e :: rest => fault host t e = None /\ answered host (t ++ [e])%list rest
  end.

Definition isReadEntry (e : Event) : bool :=
  match e with ReadEntry _ => true | _ => false end.

(** The names the loop of [enableSnippets] appends to the list [l], going
    through [names] in order. *)
Fixpoint appended (l : list json) (names : list string) : list string :=
  match names with
  | [] => []
  | name :: rest =>
      if isMonolithosSnippet name && negb (existsb (isString name) l)
      then name :: appended (l ++ [JStr name])%list rest
      else appended l rest
  end.

Module DemoMore.

(** The server accepts every key, with tier ["pro"]. *)
Definition accepted : json := JObj [("valid", JBool true); ("tier", JStr "pro")].

Definition parse (text : string) : option json :=
  if String.eqb text (Demo.print 0 0 accepted) then Some accepted
  else Demo.parse text.

Definition host (entries : list (string * JSZipEntry))
           (faults : list Event -> Event -> option Error) : Host :=
  {| configDir := ".obsidian";
     server := fun method _ _ =>
                 if String.eqb method "POST" then Demo.print 0 0 accepted else "PK";
     unzip := fun _ => entries;
     JSON_parse := parse;
     JSON_stringify := Demo.stringify;
     fault := faults |}.

(** Saving the settings fails. *)
Definition saveFails : list Event -> Event -> option Error :=
  fun _ e =>
    match e with
    | SaveData _ => Some (HostError "EROFS")
    | _ => None
    end.

Definition engineText (e : Error) : string :=
  match e with
  | TypeError => "Cannot read properties of null"
  | SyntaxError => "Unexpected token"
  | _ => ""
  end.


Definition typed (key : string) : Modal :=
  {| isInstalling := false; inputValue := key; statusText := Text "";
     statusClass := "installer-status"; buttonText := "Verify & install";
     buttonDisabled := false; isOpen := true; closeTimer := false |}.

(** A host without faults whose codec also reads the compact text of
    [doc]. *)
Definition reading (doc : json) : Host :=
  {| configDir := ".obsidian";
     server := fun _ _ _ => "PK";
     unzip := fun _ => Demo.package;
     JSON_parse := fun text =>
                     if String.eqb text (Demo.print 0 0 doc) then Some doc
                     else Demo.parse text;
     JSON_stringify := Demo.stringify;
     fault := Demo.noFault |}.

(** A vault with the appearance file [text] and one snippet that matches. *)
Definition withSnippet (text : string) : Vault :=
  {| files := [(".obsidian/appearance.json", text);
               (".obsidian/snippets/monolithos-core.css", "core")];
     folders := [".obsidian"; ".obsidian/snippets"] |}.

(** An archive with the same snippet in two folders. *)
Definition twoCopies : list (string * JSZipEntry) :=
  [("old/snippets/theme.css", Demo.file "old");
   ("new/snippets/theme.css", Demo.file "new")].

(** A document whose list is a number. *)
Definition counted : json := JObj [("enabledCssSnippets", JNum 1)].

End DemoMore.

(** ** The definitions at work *)

Example indexOf_first : indexOf "a/snippets/b/snippets/c.css" "snippets/" = 2%Z.
Proof. vm_compute. reflexivity. Qed.

Example indexOf_absent : indexOf "readme.txt" "snippets/" = (-1)%Z.
Proof. vm_compute. reflexivity. Qed.

Example substring_suffix :
  substring "a/snippets/b.css" (indexOf "a/snippets/b.css" "snippets/") None
  = "snippets/b.css".
Proof. vm_compute. reflexivity. Qed.

Example substring_negative_end : substring "theme.css" 0 (Some (-1)%Z) = "".
Proof. vm_compute. reflexivity. Qed.

Example lastIndexOf_slash : lastIndexOf ".obsidian/snippets/b.css" "/" = 18%Z.
Proof. vm_compute. reflexivity. Qed.

Example replace_first_only : replace "a.css.css" ".css" "" = "a.css".
Proof. vm_compute. reflexivity. Qed.

Example snippetName_of_path :
  snippetName ".obsidian/snippets/monolithos-core.css" = "monolithos-core".
Proof. vm_compute. reflexivity. Qed.

Example snippetName_legacy_of_path :
  snippetName_legacy ".obsidian/snippets/monolithos-core.css" = "monolithos-core".
Proof. vm_compute. reflexivity. Qed.

Example targetPath_plugin :
  targetPath ".obsidian" "pkg/plugins/monolithos/main.js"
  = Some ".obsidian/plugins/monolithos/main.js".
Proof. vm_compute. reflexivity. Qed.

Example targetPath_substring_anywhere :
  targetPath ".obsidian" "docs/mysnippets/a.txt" = Some ".obsidian/snippets/a.txt".
Proof. vm_compute. reflexivity. Qed.

Example targetPath_other : targetPath ".obsidian" "readme.txt" = None.
Proof. vm_compute. reflexivity. Qed.

Example enableAll_appends :
  (a1 <- ensureList (ofJson Demo.themed) ;;
   enableAll a1 ["monolithos-core"; "theme"; "monolithos-core"])%result
  = inr (ofJson Demo.themedCore).
Proof. vm_compute. reflexivity. Qed.

Example enableAll_on_a_string_list :
  (a1 <- ensureList (ofJson (JObj [("enabledCssSnippets", JStr "x")])) ;;
   enableAll a1 ["monolithos-core"])%result
  = inl TypeError.
Proof. vm_compute. reflexivity. Qed.

Example enableAll_on_a_number :
  (a1 <- ensureList (ofJson (JNum 7)) ;; enableAll a1 [])%result = inl TypeError.
Proof. vm_compute. reflexivity. Qed.

Example enableAll_on_an_array :
  (a1 <- ensureList (ofJson (JArr [JNum 1])) ;;
   a2 <- enableAll a1 ["monolithos-core"] ;;
   inr (document a2))%result
  = inr (JArr [JNum 1]).
Proof. vm_compute. reflexivity. Qed.

Example print_indented :
  Demo.parse (Demo.print 2 0 Demo.themedCore) = Some Demo.themedCore.
Proof. vm_compute. reflexivity. Qed.
(** ** Facts about the string methods *)

Lemma startsWith_append (s sub : string) :
  startsWith s sub = true <-> exists rest, s = sub ++ rest.
Proof.
  revert s; induction sub as [|c sub IH]; intros s; simpl.
  - split; [intros _; now exists s | intros _; reflexivity].
  - destruct s as [|d s].
    + split; [discriminate | intros [rest H]; discriminate].
    + rewrite andb_true_iff, IH, Ascii.eqb_eq. split.
      * intros [-> [rest ->]]. now exists rest.
      * intros [rest H]. injection H as -> ->. split; [reflexivity | now exists rest].
Qed.

Lemma drop_length_le (n : nat) (s : string) :
  String.length (drop n s) = String.length s - n.
Proof.
  revert s; induction n as [|n IH]; intros [|c s]; simpl; auto.
Qed.

Lemma take_drop (n : nat) (s : string) : take n s ++ drop n s = s.
Proof.
  revert s; induction n as [|n IH]; intros [|c s]; simpl; auto.
  now rewrite IH.
Qed.

Lemma take_all (n : nat) (s : string) :
  String.length s <= n -> take n s = s.
Proof.
  revert s; induction n as [|n IH]; intros [|c s]; simpl; auto; try lia.
  intros H. rewrite IH; auto. lia.
Qed.

Lemma take_length_le (n : nat) (s : string) : String.length (take n s) <= n.
Proof.
  revert s; induction n as [|n IH]; intros [|c s]; simpl; try lia.
  specialize (IH s). lia.
Qed.

Lemma append_length (a b : string) :
  String.length (a ++ b) = String.length a + String.length b.
Proof. induction a as [|c a IH]; simpl; auto. Qed.

Lemma drop_append (a b : string) : drop (String.length a) (a ++ b) = b.
Proof. induction a as [|c a IH]; simpl; auto. Qed.

Lemma take_append (a b : string) : take (String.length a) (a ++ b) = a.
Proof. induction a as [|c a IH]; simpl; auto. now rewrite IH. Qed.

Lemma append_assoc (a b c : string) : (a ++ b) ++ c = a ++ (b ++ c).
Proof. induction a as [|x a IH]; simpl; auto. now rewrite IH. Qed.

Lemma append_inj_l (a b c : string) : a ++ b = a ++ c -> b = c.
Proof. induction a as [|x a IH]; simpl; auto. intros H. injection H. auto. Qed.

(** [find] returns an occurrence, within the string. *)
Lemma find_occurs (s sub : string) (n : nat) :
  find s sub = Some n ->
  n <= String.length s /\ startsWith (drop n s) sub = true.
Proof.
  revert n; induction s as [|c s IH]; intros n; simpl.
  - destruct sub; simpl; [|discriminate].
    intros H; injection H as <-. auto.
  - destruct (startsWith (String c s) sub) eqn:E.
    + intros H; injection H as <-. split; [lia | exact E].
    + destruct (find s sub) as [m|] eqn:F; simpl; [|discriminate].
      intros H; injection H as <-. destruct (IH m eq_refl). split; [lia | assumption].
Qed.

(** ... and it is the first one. *)
Lemma find_first (s sub : string) (n m : nat) :
  find s sub = Some n -> m < n -> startsWith (drop m s) sub = false.
Proof.
  revert n m; induction s as [|c s IH]; intros n m; simpl.
  - destruct sub; simpl; [|discriminate]. intros H; injection H as <-. lia.
  - destruct (startsWith (String c s) sub) eqn:E.
    + intros H; injection H as <-. lia.
    + destruct (find s sub) as [k|] eqn:F; simpl; [|discriminate].
      intros H; injection H as <-. intros Hm.
      destruct m as [|m]; simpl; [exact E | apply (IH k); [reflexivity | lia]].
Qed.

Lemma find_none (s sub : string) (n : nat) :
  find s sub = None -> startsWith (drop n s) sub = false.
Proof.
  revert n; induction s as [|c s IH]; intros n; simpl.
  - destruct sub; simpl; [discriminate|]. intros _. destruct n; reflexivity.
  - destruct (startsWith (String c s) sub) eqn:E; [discriminate|].
    destruct (find s sub) eqn:F; simpl; [discriminate|]. intros _.
    destruct n as [|n]; simpl; [exact E | now apply IH].
Qed.

(** [includes] is the substring relation. *)
Lemma includes_iff (s sub : string) :
  includes s sub = true <-> exists pre post, s = pre ++ sub ++ post.
Proof.
  unfold includes. split.
  - destruct (find s sub) as [n|] eqn:F; [|discriminate]. intros _.
    apply find_occurs in F as [_ F]. apply startsWith_append in F as [post F].
    exists (take n s), post. now rewrite <- F, take_drop.
  - intros (pre & post & ->).
    destruct (find (pre ++ sub ++ post) sub) eqn:F; [reflexivity|].
    apply (find_none _ _ (String.length pre)) in F.
    rewrite drop_append in F.
    assert (startsWith (sub ++ post) sub = true) by (apply startsWith_append; now exists post).
    congruence.
Qed.

Lemma substring_from (s : string) (n : nat) :
  n <= String.length s -> substring s (Z.of_nat n) None = drop n s.
Proof.
  intros H. unfold substring, clamp.
  rewrite Z.max_r by lia. rewrite Nat2Z.id.
  rewrite (Nat.min_l n) by lia. rewrite Nat.min_l by lia. rewrite Nat.max_r by lia.
  apply take_all. rewrite drop_length_le. lia.
Qed.

(** The suffix [s.substring(s.indexOf(sub))] of a string that includes
    [sub]: it starts at the first occurrence of [sub]. *)
Lemma suffix_from_first (s sub : string) :
  includes s sub = true ->
  exists pre rest,
    s = pre ++ sub ++ rest
    /\ substring s (indexOf s sub) None = sub ++ rest
    /\ forall m, m < String.length pre -> startsWith (drop m s) sub = false.
Proof.
  unfold includes, indexOf. destruct (find s sub) as [n|] eqn:F; [|discriminate].
  intros _. destruct (find_occurs _ _ _ F) as [Hn Hs].
  apply startsWith_append in Hs as [rest Hs].
  exists (take n s), rest. split; [|split].
  - now rewrite <- Hs, take_drop.
  - now rewrite substring_from.
  - intros m Hm. apply (find_first _ _ n); auto.
    pose proof (take_length_le n s). lia.
Qed.

(** The three cases of the classification: the plugin marker first, then
    the snippets marker, else no target. *)
Lemma targetPath_spec (cfg path : string) :
  (includes path "plugins/monolithos/" = true ->
   exists suffix,
     suffixFromFirst path "plugins/monolithos/" suffix
     /\ targetPath cfg path = Some (cfg ++ "/" ++ suffix))
  /\ (includes path "plugins/monolithos/" = false ->
      includes path "snippets/" = true ->
      exists suffix,
        suffixFromFirst path "snippets/" suffix
        /\ targetPath cfg path = Some (cfg ++ "/" ++ suffix))
  /\ (includes path "plugins/monolithos/" = false ->
      includes path "snippets/" = false ->
      targetPath cfg path = None).
Proof.
  unfold targetPath, suffixFromFirst. repeat split.
  - intros I. rewrite I. destruct (suffix_from_first _ _ I) as (pre & rest & E & S & F).
    exists ("plugins/monolithos/" ++ rest). rewrite S. split; [|reflexivity].
    now exists pre, rest.
  - intros N I. rewrite N, I.
    destruct (suffix_from_first _ _ I) as (pre & rest & E & S & F).
    exists ("snippets/" ++ rest). rewrite S. split; [|reflexivity].
    now exists pre, rest.
  - now intros -> ->.
Qed.

Lemma fileEntries_In (entries : list (string * JSZipEntry)) (path content : string) :
  In (path, content) (fileEntries entries)
  <-> exists entry, In (path, entry) entries /\ dir entry = false /\ content = data entry.
Proof.
  unfold fileEntries. rewrite in_flat_map. split.
  - intros ([p e] & I & H). simpl in H. destruct (dir e) eqn:D; [destruct H|].
    destruct H as [[= <- <-]|[]]. now exists e.
  - intros (e & I & D & ->). exists (path, e). split; [exact I|]. simpl. rewrite D.
    now left.
Qed.

Lemma placed_In (cfg : string) (collected : list (string * string))
      (target content : string) :
  In (target, content) (placed cfg collected)
  <-> exists path, In (path, content) collected /\ targetPath cfg path = Some target.
Proof.
  unfold placed. rewrite in_flat_map. split.
  - intros ([p c] & I & H). simpl in H.
    destruct (targetPath cfg p) eqn:T; [|destruct H].
    destruct H as [[= <- <-]|[]]. now exists p.
  - intros (p & I & T). exists (p, content). split; [exact I|]. simpl. rewrite T.
    now left.
Qed.


(** ** Association lists *)

Section Assoc.

Context {A : Type}.

Lemma lookup_update_eq (k : string) (v : A) (l : list (string * A)) :
  lookup k (update k v l) = Some v.
Proof.
  induction l as [|[k' v'] l IH]; simpl.
  - now rewrite String.eqb_refl.
  - destruct (String.eqb k k') eqn:E; simpl; rewrite ?String.eqb_refl, ?E; auto.
Qed.

Lemma lookup_update_neq (k k' : string) (v : A) (l : list (string * A)) :
  k' <> k -> lookup k' (update k v l) = lookup k' l.
Proof.
  intros N. induction l as [|[k0 v0] l IH]; simpl.
  - apply String.eqb_neq in N. now rewrite N.
  - destruct (String.eqb k k0) eqn:E; simpl.
    + apply String.eqb_eq in E as <-. apply String.eqb_neq in N. now rewrite N.
    + destruct (String.eqb k' k0); auto.
Qed.

Lemma update_update (k : string) (v1 v2 : A) (l : list (string * A)) :
  update k v2 (update k v1 l) = update k v2 l.
Proof.
  induction l as [|[k' v'] l IH]; simpl.
  - now rewrite String.eqb_refl.
  - destruct (String.eqb k k') eqn:E; simpl; rewrite ?String.eqb_refl, ?E; auto.
    now rewrite IH.
Qed.

Lemma update_same (k : string) (v : A) (l : list (string * A)) :
  lookup k l = Some v -> update k v l = l.
Proof.
  induction l as [|[k' v'] l IH]; simpl; [discriminate|].
  destruct (String.eqb k k') eqn:E.
  - apply String.eqb_eq in E as <-. now intros [= ->].
  - intros H. now rewrite IH.
Qed.

Lemma keys_update_present (k : string) (v : A) (l : list (string * A)) :
  In k (map fst l) -> map fst (update k v l) = map fst l.
Proof.
  induction l as [|[k' v'] l IH]; simpl; [tauto|].
  destruct (String.eqb k k') eqn:E; simpl.
  - apply String.eqb_eq in E as <-. reflexivity.
  - intros [<-|H]; [now rewrite String.eqb_refl in E | now rewrite IH].
Qed.

Lemma keys_update_incl (k k' : string) (v : A) (l : list (string * A)) :
  In k' (map fst l) -> In k' (map fst (update k v l)).
Proof.
  induction l as [|[k0 v0] l IH]; simpl; [tauto|].
  destruct (String.eqb k k0) eqn:E; simpl.
  - apply String.eqb_eq in E as <-. tauto.
  - intros [<-|H]; auto.
Qed.

Lemma keys_update_new (k : string) (v : A) (l : list (string * A)) :
  In k (map fst (update k v l)).
Proof.
  induction l as [|[k' v'] l IH]; simpl; auto.
  destruct (String.eqb k k') eqn:E; simpl; auto.
Qed.

Lemma keys_update_filter (k : string) (v : A) (l : list (string * A))
      (keep : string -> bool) :
  keep k = false ->
  filter keep (map fst (update k v l)) = filter keep (map fst l).
Proof.
  intros K. induction l as [|[k' v'] l IH]; simpl.
  - now rewrite K.
  - destruct (String.eqb k k') eqn:E; simpl.
    + apply String.eqb_eq in E as <-. reflexivity.
    + now rewrite IH.
Qed.

Lemma lookup_app (k : string) (l1 l2 : list (string * A)) :
  lookup k (l1 ++ l2)
  = match lookup k l1 with Some v => Some v | None => lookup k l2 end.
Proof.
  induction l1 as [|[k' v'] l1 IH]; simpl; auto.
  destruct (String.eqb k k'); auto.
Qed.

Lemma lookup_in (k : string) (v : A) (l : list (string * A)) :
  lookup k l = Some v -> In (k, v) l.
Proof.
  induction l as [|[k' v'] l IH]; simpl; [discriminate|].
  destruct (String.eqb k k') eqn:E.
  - apply String.eqb_eq in E as <-. intros [= ->]. now left.
  - auto.
Qed.

Lemma lookup_keys (k : string) (l : list (string * A)) :
  In k (map fst l) <-> lookup k l <> None.
Proof.
  induction l as [|[k' v'] l IH]; simpl; [tauto|].
  destruct (String.eqb k k') eqn:E.
  - apply String.eqb_eq in E as <-. split; [discriminate | auto].
  - apply String.eqb_neq in E. rewrite <- IH. split; [intros [?|?]; congruence | auto].
Qed.

End Assoc.

(** ** The edit of the appearance document *)

Lemma setField_same (a : Appearance) (v : json) :
  getField a listKey = inr (Some v) -> setField a listKey v = inr a.
Proof.
  unfold getField, setField. destruct a as [d n]; simpl.
  destruct d; simpl; try discriminate; intros [= H]; now rewrite update_same.
Qed.

Lemma setField_setField (a a1 : Appearance) (v1 v2 : json) :
  setField a listKey v1 = inr a1 ->
  setField a1 listKey v2 = setField a listKey v2.
Proof.
  unfold setField. destruct a as [d n]; simpl.
  destruct d; simpl; try discriminate; intros [= <-]; simpl; now rewrite update_update.
Qed.

Lemma getField_setField (a a1 : Appearance) (v : json) :
  setField a listKey v = inr a1 -> getField a1 listKey = inr (Some v).
Proof.
  unfold setField, getField. destruct a as [d n]; simpl.
  destruct d; simpl; try discriminate; intros [= <-]; simpl; now rewrite lookup_update_eq.
Qed.

Lemma existsb_isString_app (name : string) (l1 l2 : list json) :
  existsb (isString name) l1 = true -> existsb (isString name) (l1 ++ l2) = true.
Proof. intros H. rewrite existsb_app, H. reflexivity. Qed.

Lemma existsb_isString_In (name : string) (l : list json) :
  existsb (isString name) l = true <-> In (JStr name) l.
Proof.
  rewrite existsb_exists. split.
  - intros (x & I & S). destruct x; simpl in S; try discriminate.
    apply String.eqb_eq in S as ->. exact I.
  - intros I. exists (JStr name). split; [exact I | apply String.eqb_refl].
Qed.

(** When the list is an array, the loop goes through: it appends the names
    that match and are missing, each once, and nothing else changes. *)
Lemma enableAll_array (names : list string) (a : Appearance) (l : list json) :
  getField a listKey = inr (Some (JArr l)) ->
  exists added a',
    enableAll a names = inr a'
    /\ setField a listKey (JArr (l ++ added)) = inr a'
    /\ (NoDup l -> NoDup (l ++ added))
    /\ Forall (fun name => isMonolithosSnippet name = true ->
                           existsb (isString name) (l ++ added) = true) names
    /\ (Forall (fun name => isMonolithosSnippet name = true ->
                            existsb (isString name) l = true) names ->
        added = []).
Proof.
  revert a l; induction names as [|name rest IH]; intros a l G; simpl.
  - exists [], a. rewrite app_nil_r. repeat split; auto. now apply setField_same.
  - unfold enableOne. fold listKey.
    destruct (isMonolithosSnippet name) eqn:K; simpl.
    + rewrite G; simpl. destruct (existsb (isString name) l) eqn:P; simpl.
      * destruct (IH a l G) as (added & a' & E & S & N & I & Z).
        exists added, a'. repeat split; auto.
        -- constructor; auto. intros _. now apply existsb_isString_app.
        -- intros F. apply Z. now inversion F.
      * destruct (setField a listKey (JArr (l ++ [JStr name]))) as [e|a1] eqn:S1.
        { exfalso. revert G S1. unfold getField, setField. destruct a as [d n]; simpl.
          destruct d; simpl; discriminate. }
        destruct (IH a1 _ (getField_setField _ _ _ S1)) as (added & a' & E & S & N & I & Z).
        exists (JStr name :: added), a'.
        replace (l ++ JStr name :: added)%list with ((l ++ [JStr name]) ++ added)%list
          by (now rewrite <- app_assoc).
        repeat split; auto.
        -- now rewrite <- (setField_setField _ _ _ _ S1).
        -- intros ND. apply N. apply NoDup_app; repeat split.
           ++ exact ND.
           ++ constructor; [intros []|constructor].
           ++ intros x Hx [<-|[]]. apply existsb_isString_In in Hx. congruence.
        -- constructor; auto. intros _. apply existsb_isString_app.
           rewrite existsb_app. simpl. now rewrite String.eqb_refl, orb_true_r.
        -- intros F. inversion F as [|? ? F1 F2]. rewrite (F1 K) in P. discriminate.
    + destruct (IH a l G) as (added & a' & E & S & N & I & Z).
      exists added, a'. repeat split; auto.
      * constructor; auto. congruence.
      * intros F. apply Z. now inversion F.
Qed.

(** When the list is something else, the loop goes through only if it has
    nothing to add, and then changes nothing. *)
Lemma enableAll_other (names : list string) (a a' : Appearance) (v : option json) :
  getField a listKey = inr v ->
  (forall l, v <> Some (JArr l)) ->
  enableAll a names = inr a' ->
  a' = a.
Proof.
  intros G NA. induction names as [|name rest IH]; simpl.
  - now intros [= <-].
  - unfold enableOne. fold listKey. destruct (isMonolithosSnippet name); simpl; auto.
    rewrite G; simpl. destruct v as [[]|]; simpl; try discriminate.
    + destruct (includes s name); simpl; [auto | discriminate].
    + now destruct (NA elements).
Qed.

(** An object whose list is an array holding every matching name is left
    as it is. *)
Lemma edit_settled (names : list string) (props : list (string * json))
      (l : list json) :
  lookup listKey props = Some (JArr l) ->
  Forall (fun name => isMonolithosSnippet name = true ->
                      existsb (isString name) l = true) names ->
  exists b1 b,
    ensureList (ofJson (JObj props)) = inr b1
    /\ enableAll b1 names = inr b
    /\ document b = JObj props.
Proof.
  intros L F. unfold ensureList. fold listKey. unfold getField; simpl. rewrite L; simpl.
  assert (G : getField (ofJson (JObj props)) listKey = inr (Some (JArr l)))
    by (unfold getField; simpl; now rewrite L).
  destruct (enableAll_array names _ _ G) as (added & b & E & S & _ & _ & Z).
  rewrite (Z F), app_nil_r in S. rewrite (setField_same _ _ G) in S.
  injection S as <-. eauto.
Qed.

(** What the edit does to a document [j], when it goes through. *)
Lemma edit_spec (j : json) (names : list string) (a1 a : Appearance) :
  ensureList (ofJson j) = inr a1 ->
  enableAll a1 names = inr a ->
  exists added,
    enabledOf (document a) = (enabledOf j ++ added)%list
    /\ (NoDup (enabledOf j) -> NoDup (enabledOf (document a)))
    /\ (document a = j
        \/ exists props,
            j = JObj props
            /\ document a
               = JObj (update listKey (JArr (enabledOf j ++ added)) props))
    /\ exists b1 b,
        ensureList (ofJson (document a)) = inr b1
        /\ enableAll b1 names = inr b
        /\ document b = document a.
Proof.
  assert (Same : forall a1 a, ensureList (ofJson j) = inr a1 ->
                   enableAll a1 names = inr a -> document a = j ->
                   exists added,
                     enabledOf (document a) = (enabledOf j ++ added)%list
                     /\ (NoDup (enabledOf j) -> NoDup (enabledOf (document a)))
                     /\ (document a = j
                         \/ exists props,
                             j = JObj props
                             /\ document a
                                = JObj (update listKey (JArr (enabledOf j ++ added)) props))
                     /\ exists b1 b,
                         ensureList (ofJson (document a)) = inr b1
                         /\ enableAll b1 names = inr b
                         /\ document b = document a).
  { intros b1 b E1 E2 D. exists []. rewrite D, app_nil_r.
    repeat split; auto. exists b1, b. now rewrite D. }
  assert (Grow : forall props l0 a1,
            j = JObj props ->
            enabledOf j = l0 ->
            getField a1 listKey = inr (Some (JArr l0)) ->
            document a1 = JObj (update listKey (JArr l0) props) ->
            enableAll a1 names = inr a ->
            exists added,
              enabledOf (document a) = (enabledOf j ++ added)%list
              /\ (NoDup (enabledOf j) -> NoDup (enabledOf (document a)))
              /\ (document a = j
                  \/ exists props,
                      j = JObj props
                      /\ document a
                         = JObj (update listKey (JArr (enabledOf j ++ added)) props))
              /\ exists b1 b,
                  ensureList (ofJson (document a)) = inr b1
                  /\ enableAll b1 names = inr b
                  /\ document b = document a).
  { intros props l0 b1 -> L G D E.
    destruct (enableAll_array names _ _ G) as (added & a' & E' & S & N & I & _).
    rewrite E in E'. injection E' as <-.
    assert (Da : document a = JObj (update listKey (JArr (l0 ++ added)) props)).
    { revert S. unfold setField. rewrite D. intros [= <-]. simpl.
      now rewrite update_update. }
    exists added. rewrite L, Da. simpl. fold listKey. rewrite lookup_update_eq.
    repeat split; auto.
    - right. now exists props.
    - apply (edit_settled names _ (l0 ++ added)); [apply lookup_update_eq | exact I]. }
  destruct j as [| b | n | s | xs | props]; unfold ensureList at 1; fold listKey;
    unfold getField, setField; simpl; try discriminate.
  - (* a top-level array keeps its elements *)
    intros [= <-] E. apply (Same _ a eq_refl E).
    destruct (enableAll_array names {| document := JArr xs;
                                       named := [(listKey, JArr [])] |} [] eq_refl)
      as (added & a' & E' & S & _). rewrite E in E'. injection E' as <-.
    revert S. unfold setField; simpl. now intros [= <-].
  - destruct (lookup listKey props) as [cur|] eqn:L; simpl.
    + destruct (truthy cur) eqn:T.
      * intros [= <-] E.
        assert (E1 : ensureList (ofJson (JObj props)) = inr (ofJson (JObj props))).
        { unfold ensureList; fold listKey; unfold getField; simpl.
          rewrite L; simpl. now rewrite T. }
        assert (G : getField (ofJson (JObj props)) listKey = inr (Some cur))
          by (unfold getField; simpl; now rewrite L).
        destruct cur as [| b | n | s | l0 | ps];
          try (apply (Same _ a E1 E);
               rewrite (enableAll_other names _ _ _ G ltac:(intros; discriminate) E);
               reflexivity).
        apply (Grow props l0 (ofJson (JObj props)) eq_refl);
          [ simpl; fold listKey; now rewrite L
          | exact G
          | simpl; now rewrite update_same
          | exact E ].
      * intros [= <-] E.
        apply (Grow props [] {| document := JObj (update listKey (JArr []) props);
                                 named := [] |} eq_refl);
          [ simpl; fold listKey; rewrite L; destruct cur; try reflexivity; discriminate T
          | unfold getField; simpl; now rewrite lookup_update_eq
          | reflexivity
          | exact E ].
    + intros [= <-] E.
      apply (Grow props [] {| document := JObj (update listKey (JArr []) props);
                               named := [] |} eq_refl);
        [ simpl; fold listKey; now rewrite L
        | unfold getField; simpl; now rewrite lookup_update_eq
        | reflexivity
        | exact E ].
Qed.

(** ** Runs of the plugin's methods *)

Lemma advance_nil (w : World) : advance [] w = w.
Proof. destruct w; unfold advance; simpl. now rewrite app_nil_r. Qed.

Lemma replay_app (t1 t2 : list Event) (v : Vault) :
  replay (t1 ++ t2) v = replay t2 (replay t1 v).
Proof. unfold replay. apply fold_left_app. Qed.

Lemma replay_cons (e : Event) (t : list Event) (v : Vault) :
  replay (e :: t) v = replay t (effect e v).
Proof. reflexivity. Qed.

Lemma replay_nil (v : Vault) : replay [] v = v.
Proof. reflexivity. Qed.

(** Replays a list of calls piece by piece. *)
Ltac replay_steps :=
  rewrite <- ?app_assoc;
  repeat (progress (rewrite ?replay_app, ?replay_cons, ?replay_nil; cbn [effect])).

Lemma advance_app (t1 t2 : list Event) (w : World) :
  advance t2 (advance t1 w) = advance (t1 ++ t2) w.
Proof. unfold advance; simpl. now rewrite replay_app, app_assoc. Qed.

Lemma writesOf_app (t1 t2 : list Event) :
  writesOf (t1 ++ t2) = (writesOf t1 ++ writesOf t2)%list.
Proof. unfold writesOf. apply flat_map_app. Qed.

Lemma progressOf_app (t1 t2 : list Event) :
  progressOf (t1 ++ t2) = (progressOf t1 ++ progressOf t2)%list.
Proof. unfold progressOf. apply flat_map_app. Qed.

Lemma replay_readOnly (t : list Event) (v : Vault) :
  forallb readOnly t = true -> replay t v = v.
Proof.
  revert v; induction t as [|e t IH]; intros v; simpl; auto.
  rewrite andb_true_iff. intros [He Ht]. rewrite <- (IH v Ht) at 2.
  unfold replay; simpl. destruct e; simpl in *; try discriminate; reflexivity.
Qed.

(** Two worlds that differ in the bracketing of their traces only. *)
Ltac same_world :=
  unfold advance, record, withVault, withSettings, persisted; simpl;
  rewrite <- ?app_assoc; simpl;
  repeat (progress (rewrite ?replay_app; simpl; unfold replay at 1; simpl;
                    fold replay));
  reflexivity.

Section Runs.

Variable h : Host.
Variable nameOf : string -> string.

Lemma call_run (e : Event) (w : World) (r : Result unit) (w' : World) :
  call h e w = (r, w') ->
  (fault h (trace w) e = None /\ r = inr tt /\ w' = record e w)
  \/ (exists err, fault h (trace w) e = Some err /\ r = inl err /\ w' = w).
Proof.
  unfold call. destruct (fault h (trace w) e) as [err|]; intros H; injection H as <- <-.
  - right. now exists err.
  - now left.
Qed.

Lemma bind_run {A B : Type} (m : M A) (k : A -> M B) (w : World)
      (r : Result B) (w' : World) :
  bind m k w = (r, w') ->
  (exists a w1, m w = (inr a, w1) /\ k a w1 = (r, w'))
  \/ (exists err, m w = (inl err, w') /\ r = inl err).
Proof.
  unfold bind. destruct (m w) as [[err|a] w1]; intros H.
  - injection H as <- <-. right. now exists err.
  - left. now exists a, w1.
Qed.

Lemma writeFile_run (target content : string) (w : World)
      (r : Result unit) (w' : World) :
  writeFile h target content w = (r, w') ->
  exists t,
    w' = advance t w
    /\ forallb isWriteStep t = true
    /\ ((r = inr tt /\ writesOf t = [(target, content)]
         /\ replay t (vault w) = writeEffect (vault w) (target, content))
        \/ ((exists err, r = inl err /\ exists t0 e, fault h t0 e = Some err)
            /\ writesOf t = [])).
Proof.
  unfold writeFile, writeEffect, dirOf, adapter_exists, adapter_mkdir, adapter_writeBinary,
    call, bind, ret, gets, modify. simpl.
  destruct (nonEmpty (substring target 0 (Some (lastIndexOf target "/")))); simpl.
  - destruct (fault h (trace w) (Exists _)) eqn:F1; simpl.
    + intros H; injection H as <- <-. exists []. rewrite advance_nil. eauto 12.
    + destruct (vaultExists (vault w) _) eqn:E; simpl.
      * destruct (fault h _ (WriteBinary _ _)) eqn:F2; intros H; injection H as <- <-.
        -- eexists [Exists _]. split; [same_world|]. eauto 12.
        -- eexists [Exists _; WriteBinary _ _].
           split; [same_world|].
           split; [reflexivity|]. left. auto.
      * destruct (fault h _ (Mkdir _)) eqn:F2; simpl.
        -- intros H; injection H as <- <-. eexists [Exists _]. split; [same_world|]. eauto 12.
        -- destruct (fault h _ (WriteBinary _ _)) eqn:F3; intros H; injection H as <- <-.
           ++ eexists [Exists _; Mkdir _].
              split; [same_world|]. eauto 12.
           ++ eexists [Exists _; Mkdir _; WriteBinary _ _].
              split; [same_world|].
              split; [reflexivity|]. left. auto.
  - destruct (fault h _ (WriteBinary _ _)) eqn:F2; intros H; injection H as <- <-.
    + exists []. rewrite advance_nil. eauto 12.
    + eexists [WriteBinary _ _]. split; [same_world|]. split; [reflexivity|]. left. auto.
Qed.

Lemma isWriteStep_progress (t : list Event) :
  forallb isWriteStep t = true -> progressOf t = [].
Proof.
  induction t as [|e t IH]; simpl; auto. rewrite andb_true_iff. intros [He Ht].
  destruct e; simpl in *; try discriminate; auto.
Qed.

Lemma writeFiles_run (collected : list (string * string)) (w : World)
      (r : Result unit) (w' : World) :
  writeFiles h collected w = (r, w') ->
  exists t,
    w' = advance t w
    /\ forallb isWriteStep t = true
    /\ (exists rest, placed (configDir h) collected = (writesOf t ++ rest)%list)
    /\ (r = inr tt ->
        writesOf t = placed (configDir h) collected
        /\ replay t (vault w)
           = fold_left writeEffect (placed (configDir h) collected) (vault w))
    /\ (forall err, r = inl err -> exists t0 e, fault h t0 e = Some err).
Proof.
  revert w; induction collected as [|[path content] rest IH]; intros w; simpl.
  - unfold ret. intros H; injection H as <- <-. exists []. rewrite advance_nil.
    repeat split; auto; [now exists [] | discriminate].
  - unfold placed; simpl. fold (placed (configDir h) rest).
    destruct (targetPath (configDir h) path) as [target|]; simpl; [|apply IH].
    intros H. apply bind_run in H as [(a & w1 & H1 & H2)|(err & H1 & ->)].
    + apply writeFile_run in H1 as (t1 & -> & S1 & [(_ & W1 & V1)|((err & E & _) & _)]);
        [|discriminate].
      apply IH in H2 as (t2 & -> & S2 & (tail & P2) & OK2 & KO2).
      exists (t1 ++ t2)%list. rewrite advance_app, forallb_app, S1, S2, writesOf_app, W1.
      repeat split; auto.
      * exists tail. simpl. now rewrite P2.
      * simpl. f_equal. now apply OK2.
      * rewrite replay_app. simpl in OK2. destruct (OK2 H) as [_ ->]. now rewrite V1.
    + apply writeFile_run in H1 as (t1 & -> & S1 & [(E & _)|((err' & E & F) & W1)]);
        [discriminate|].
      exists t1. rewrite W1. repeat split; auto; try discriminate.
      * now exists ((target, content) :: placed (configDir h) rest).
      * intros ? [= <-]. injection E as <-. exact F.
Qed.

Lemma readEntries_run (entries : list (string * JSZipEntry)) (w : World)
      (r : Result (list (string * string))) (w' : World) :
  readEntries h entries w = (r, w') ->
  exists t,
    w' = advance t w
    /\ forallb readOnly t = true /\ progressOf t = [] /\ writesOf t = []
    /\ (forall collected, r = inr collected ->
         collected = fileEntries entries
         /\ t = map ReadEntry (map fst (fileEntries entries)))
    /\ (forall err, r = inl err -> exists t0 e, fault h t0 e = Some err).
Proof.
  revert w r w'; induction entries as [|[path entry] rest IH]; intros w r w'; simpl.
  - unfold ret. intros H; injection H as <- <-. exists []. rewrite advance_nil.
    repeat split; auto; try discriminate; now injection H as <-.
  - unfold fileEntries; simpl. fold (fileEntries rest).
    destruct (dir entry); simpl; [apply IH|].
    unfold entryAsync, call, bind at 1 2, ret. 
    destruct (fault h (trace w) (ReadEntry path)) eqn:F.
    + intros H; injection H as <- <-. exists []. rewrite advance_nil.
      repeat split; auto; try discriminate. intros ? [= <-]. eauto.
    + intros H. apply bind_run in H as [(a & w1 & H1 & H2)|(err & H1 & ->)].
      * apply IH in H1 as (t & -> & R & P & W & OK & KO).
        unfold ret in H2. injection H2 as <- <-.
        exists (ReadEntry path :: t). split; [same_world|].
        simpl. repeat split; auto; try discriminate;
          injection H as <-; destruct (OK a eq_refl); congruence.
      * apply IH in H1 as (t & -> & R & P & W & OK & KO).
        exists (ReadEntry path :: t). split; [same_world|].
        simpl. repeat split; auto; discriminate.
Qed.

Lemma advance_intro (w' w : World) (t : list Event) :
  trace w' = (trace w ++ t)%list ->
  vault w' = replay t (vault w) ->
  settings w' = settings w ->
  saved w' = saved w ->
  w' = advance t w.
Proof. destruct w'; unfold advance; simpl. now intros -> -> -> ->. Qed.

(** Closes [w' = advance ?t w], reading [?t] off the trace of [w']. *)
Ltac read_trace :=
  eapply advance_intro;
  [ simpl; rewrite <- ?app_assoc; simpl; reflexivity | reflexivity .. ].

Lemma downloadAndWrite_run (w : World) (r : Result unit) (w' : World) :
  downloadAndWrite h w = (r, w') ->
  exists t,
    w' = advance t w
    /\ (exists rest,
          placed (configDir h) (fileEntries (archive h)) = (writesOf t ++ rest)%list)
    /\ (r = inr tt ->
        exists tw,
          t = (preparation h ++ tw)%list
          /\ forallb isWriteStep tw = true
          /\ writesOf tw = placed (configDir h) (fileEntries (archive h))
          /\ replay t (vault w) = afterWrites h (vault w))
    /\ (forall err, r = inl err -> exists t0 e, fault h t0 e = Some err).
Proof.
  unfold downloadAndWrite, onProgress, requestUrl, loadAsync, call, bind, ret.
  set (all := placed (configDir h) (fileEntries (archive h))).
  assert (Hfail : forall t : list Event, writesOf t = [] ->
            exists rest, all = (writesOf t ++ rest)%list)
    by (intros t ->; now exists all).
  destruct (fault h (trace w) (Progress _)) eqn:F1.
  { intros H; injection H as <- <-. exists []. rewrite advance_nil.
    repeat split; auto; try discriminate. intros ? [= <-]; eauto. }
  destruct (fault h _ (Request _ _ _)) eqn:F2.
  { intros H; injection H as <- <-. eexists. split; [read_trace|].
    split; [now apply Hfail |]. split; [discriminate | intros ? [= <-]; eauto]. }
  destruct (fault h _ (Progress "Extracting files...")) eqn:F3.
  { intros H; injection H as <- <-. eexists. split; [read_trace|].
    split; [now apply Hfail |]. split; [discriminate | intros ? [= <-]; eauto]. }
  destruct (fault h _ (LoadZip _)) eqn:F4.
  { intros H; injection H as <- <-. eexists. split; [read_trace|].
    split; [now apply Hfail |]. split; [discriminate | intros ? [= <-]; eauto]. }
  match goal with |- context [readEntries h ?es ?w0] =>
    destruct (readEntries h es w0) as [[err|collected] w1] eqn:R end;
    apply readEntries_run in R as (t1 & -> & RO & P1 & W1 & OK1 & KO1).
  { intros H; injection H as <- <-.
    exists ([Progress "Downloading Monolithos..."; Request "GET" PLUGIN_DOWNLOAD_URL "";
             Progress "Extracting files...";
             LoadZip (server h "GET" PLUGIN_DOWNLOAD_URL "")] ++ t1)%list.
    split; [same_world|]. split; [|split; [discriminate | intros ? [= <-]; now apply KO1]].
    apply Hfail. rewrite writesOf_app, W1. reflexivity. }
  destruct (OK1 collected eq_refl) as [-> ->]. fold (archive h) in *.
  destruct (fault h _ (Progress "Installing files...")) eqn:F5.
  { intros H; injection H as <- <-.
    exists ([Progress "Downloading Monolithos..."; Request "GET" PLUGIN_DOWNLOAD_URL "";
             Progress "Extracting files...";
             LoadZip (server h "GET" PLUGIN_DOWNLOAD_URL "")]
            ++ map ReadEntry (map fst (fileEntries (archive h))))%list.
    split; [same_world|]. split; [|split; [discriminate | intros ? [= <-]; eauto]].
    apply Hfail. rewrite writesOf_app, W1. reflexivity. }
  intros H. apply writeFiles_run in H as (tw & -> & S & (rest & P) & OK & KO).
  assert (Wp : writesOf (preparation h) = []).
  { unfold preparation. rewrite !writesOf_app, W1. reflexivity. }
  assert (Vp : forall v, replay (preparation h) v = v).
  { intros v. apply replay_readOnly. unfold preparation.
    rewrite !forallb_app, RO. reflexivity. }
  exists (preparation h ++ tw)%list. split; [|split; [|split; [|exact KO]]].
  - unfold preparation, advance, record; simpl. rewrite !replay_app; simpl.
    rewrite <- ?app_assoc; simpl. rewrite <- ?app_assoc; simpl.
    fold (archive h). rewrite (replay_readOnly _ _ RO). reflexivity.
  - exists rest. rewrite writesOf_app, Wp. exact P.
  - intros ->. exists tw. destruct (OK eq_refl) as [W V]. repeat split; auto.
    rewrite replay_app, Vp. unfold afterWrites. fold all.
    simpl in V. rewrite (replay_readOnly _ _ RO) in V. exact V.
Qed.

(** Case analysis on everything [enableSnippets] branches on. *)
Ltac crack h :=
  repeat match goal with
    | |- context [fault h ?t ?e] => destruct (fault h t e) eqn:?; simpl
    | |- context [vaultExists ?v ?p] => destruct (vaultExists v p) eqn:?; simpl
    | |- context [lookup ?p (files ?v)] => destruct (lookup p (files v)) eqn:?; simpl
    | |- context [JSON_parse h ?c] => destruct (JSON_parse h c) eqn:?; simpl
    | |- context [ensureList ?a] => destruct (ensureList a) eqn:?; simpl
    | |- context [enableAll ?a ?l] => destruct (enableAll a l) eqn:?; simpl
    end.

(** The three ways a run of [enableSnippets] ends. *)
Ltac outcome :=
  eexists; split; [f_equal; read_trace|];
  match goal with
  | |- (exists a pre, _ /\ ?t = _ /\ _) \/ _ =>
      first
        [ left; eexists _, (removelast t);
          split; [reflexivity|]; split; reflexivity
        | right; left; split; [reflexivity|]; split; [reflexivity | discriminate]
        | right; right; eexists _, (removelast t);
          split; [reflexivity|]; split; [reflexivity|];
          first [ left; reflexivity | right; eauto ] ]
  end.

Lemma enableSnippets_run (w : World) :
  exists t,
    enableSnippetsWith h nameOf w = (inr tt, advance t w)
    /\ editOutcome h nameOf (vault w) t.
Proof.
  unfold editOutcome, enableSnippetsWith, editedAppearance, loadedAppearance,
    listedNames, tryCatch, adapter_exists, adapter_read, adapter_list, adapter_write,
    console_error, call, bind, ret, gets, modify, throw, liftR, bindR.
  fold (appearancePathOf h). fold (snippetsPathOf h). fold enableFailed. simpl.
  crack h; try congruence; outcome.
Qed.

(** Every way a run of [installMonolithos] can go. *)
Lemma install_run (w : World) (r : Result bool) (w' : World) :
  installMonolithosWith h nameOf w = (r, w') ->
  exists r1 t1,
    downloadAndWrite h w = (r1, advance t1 w)
    /\ match r1 with
       | inl err =>
           r = inl err /\ w' = advance (t1 ++ [ConsoleError installFailed err]) w
       | inr _ =>
           (exists err,
              r = inl err /\ w' = advance (t1 ++ [ConsoleError installFailed err]) w
              /\ exists t0,
                  fault h t0 (Progress "Configuring appearance...") = Some err)
           \/ exists t2,
               enableSnippetsWith h nameOf
                 (advance (t1 ++ [Progress "Configuring appearance..."]) w)
               = (inr tt,
                  advance ((t1 ++ [Progress "Configuring appearance..."]) ++ t2) w)
               /\ editOutcome h nameOf (replay t1 (vault w)) t2
               /\ let t := (t1 ++ [Progress "Configuring appearance..."] ++ t2)%list in
                  (exists err,
                     r = inl err
                     /\ w' = advance (t ++ [ConsoleError installFailed err]) w
                     /\ exists t0,
                         fault h t0 (Progress "Installation complete!") = Some err)
                  \/ (exists err,
                        r = inl err
                        /\ w' = withSettings markInstalled
                                (advance (t ++ [Progress "Installation complete!";
                                                ConsoleError installFailed err]) w)
                        /\ exists t0 s, fault h t0 (SaveData s) = Some err)
                  \/ (r = inr true
                      /\ w' = persisted
                                (withSettings markInstalled
                                   (advance
                                      (t ++ [Progress "Installation complete!";
                                             SaveData (markInstalled (settings w))])
                                      w)))
       end.
Proof.
  unfold installMonolithosWith, tryCatch, bind at 1. fold installFailed.
  destruct (downloadAndWrite h w) as [[err|[]] w1] eqn:D;
    destruct (downloadAndWrite_run _ _ _ D) as (t1 & -> & _).
  - unfold console_error, bind, modify, throw. intros H; injection H as <- <-.
    exists (inl err), t1. split; [reflexivity|]. split; [reflexivity|same_world].
  - exists (inr tt), t1. split; [reflexivity|]. revert H.
    unfold configureAndFinish, onProgress, bind at 1, call at 1.
    destruct (fault h _ (Progress "Configuring appearance...")) eqn:F1.
    { unfold console_error, bind, modify, throw. intros H; injection H as <- <-.
      left. eexists. split; [reflexivity|]. split; [same_world|eauto]. }
    right.
    replace (record (Progress "Configuring appearance...") (advance t1 w))
      with (advance (t1 ++ [Progress "Configuring appearance..."]) w) in H
      by same_world.
    destruct (enableSnippets_run (advance (t1 ++ [Progress "Configuring appearance..."]) w))
      as (t2 & E & O).
    rewrite advance_app in E. exists t2. split; [exact E|].
    split; [simpl in O; rewrite replay_app in O; exact O|]. revert H.
    unfold bind at 1. rewrite E.
    unfold saveSettings, console_error, call, bind, modify, gets, throw, ret. simpl.
    destruct (fault h _ (Progress "Installation complete!")) eqn:F2.
    { intros H; injection H as <- <-. left. eexists.
      split; [reflexivity|]. split; [same_world|eauto]. }
    destruct (fault h _ (SaveData _)) eqn:F3; intros H; injection H as <- <-.
    + right; left. eexists. split; [reflexivity|]. split; [same_world|eauto].
    + right; right. split; [reflexivity|same_world].
Qed.

End Runs.

(** ** Consequences, for the claims *)

Lemma isQuery_quiet (t : list Event) :
  forallb isQuery t = true ->
  writesOf t = [] /\ progressOf t = [] /\ forallb readOnly t = true.
Proof.
  induction t as [|e t IH]; simpl; auto. rewrite andb_true_iff. intros [Q R].
  destruct (IH R) as (W & P & O). destruct e; simpl in *; try discriminate; auto.
Qed.

Lemma lastWrite_snoc (path : string) (t : list Event) (e : Event) :
  lastWrite path (t ++ [e])
  = match e with
    | WriteBinary p c => if String.eqb p path then Some c else lastWrite path t
    | Write p c => if String.eqb p path then Some c else lastWrite path t
    | _ => lastWrite path t
    end.
Proof. unfold lastWrite. rewrite fold_left_app. simpl. now destruct e. Qed.

(** A file of the replayed vault holds what was last written to it. *)
Lemma lookup_replay (path : string) (t : list Event) (v : Vault) :
  lookup path (files (replay t v))
  = match lastWrite path t with
    | Some c => Some c
    | None => lookup path (files v)
    end.
Proof.
  induction t as [|e t IH] using rev_ind; [reflexivity|].
  rewrite replay_app, lastWrite_snoc. simpl.
  destruct e; simpl; auto;
    (destruct (String.eqb path0 path) eqn:E;
     [ apply String.eqb_eq in E as ->; apply lookup_update_eq
     | apply String.eqb_neq in E; rewrite lookup_update_neq; auto ]).
Qed.

Lemma lastWrite_written (path content : string) (t : list Event) :
  In (path, content) (writesOf t) -> lastWrite path t <> None.
Proof.
  induction t as [|e t IH] using rev_ind; [intros []|].
  rewrite writesOf_app, lastWrite_snoc, in_app_iff.
  destruct e; simpl; try tauto;
    destruct (String.eqb path0 path) eqn:E; try discriminate; try tauto.
  intros [H|[[= -> ->]|[]]]; auto. now rewrite String.eqb_refl in E.
Qed.

(** What was written is in the vault. *)
Lemma lookup_written (path content : string) (t : list Event) (v : Vault) :
  In (path, content) (writesOf t) -> lookup path (files (replay t v)) <> None.
Proof.
  intros I. rewrite lookup_replay. pose proof (lastWrite_written _ _ _ I).
  now destruct (lastWrite path t).
Qed.

Section Outcomes.

Variable h : Host.
Variable nameOf : string -> string.

(** The edit calls neither the progress callback nor [writeBinary], it makes
    at least one call, and the appearance file is all it can change. *)
Lemma editOutcome_quiet (v : Vault) (t : list Event) :
  editOutcome h nameOf v t ->
  writesOf t = [] /\ progressOf t = [] /\ t <> []
  /\ (replay t v = v
      \/ exists a,
          editedAppearance h nameOf v = inr (Some a)
          /\ replay t v
             = vaultWrite v (appearancePathOf h) (JSON_stringify h (document a) 2)).
Proof.
  intros [(a & pre & E & -> & Q)|[(E & Q & N)|(err & pre & -> & Q & _)]];
    destruct (isQuery_quiet _ Q) as (W & P & O).
  - rewrite writesOf_app, progressOf_app, W, P, replay_app, (replay_readOnly _ _ O).
    repeat split; auto; [now destruct pre | right; now exists a].
  - rewrite (replay_readOnly _ _ O). auto.
  - rewrite writesOf_app, progressOf_app, W, P, replay_app, (replay_readOnly _ _ O).
    repeat split; auto. now destruct pre.
Qed.

(** Without faults, the edit is a function of the vault. *)
Lemma editOutcome_faultFree (v : Vault) (t : list Event) :
  faultFree h -> editOutcome h nameOf v t -> replay t v = afterEdit h nameOf v.
Proof.
  intros FF. unfold afterEdit.
  intros [(a & pre & E & -> & Q)|[(E & Q & N)|(err & pre & -> & Q & [E|(t0 & e & F)])]];
    try (rewrite FF in F; discriminate);
    destruct (isQuery_quiet _ Q) as (_ & _ & O); rewrite E.
  - now rewrite replay_app, (replay_readOnly _ _ O).
  - now apply replay_readOnly.
  - now rewrite replay_app, (replay_readOnly _ _ O).
Qed.

(** A run of [installMonolithos] that returns: what it called, in order. *)
Lemma install_success (w w' : World) (b : bool) :
  installMonolithosWith h nameOf w = (inr b, w') ->
  exists tw te,
    b = true
    /\ w' = persisted
              (withSettings markInstalled
                 (advance
                    (preparation h ++ tw
                     ++ [Progress "Configuring appearance..."] ++ te
                     ++ [Progress "Installation complete!";
                         SaveData (markInstalled (settings w))])
                    w))
    /\ forallb isWriteStep tw = true
    /\ writesOf tw = placed (configDir h) (fileEntries (archive h))
    /\ replay (preparation h ++ tw) (vault w) = afterWrites h (vault w)
    /\ editOutcome h nameOf (afterWrites h (vault w)) te.
Proof.
  intros H. apply install_run in H as (r1 & t1 & D & H).
  destruct r1 as [err|[]]; [destruct H; discriminate|].
  destruct (downloadAndWrite_run _ _ _ _ D) as (t1' & A & _ & OK & _).
  destruct (OK eq_refl) as (tw & -> & S & W & V).
  assert (t1 = (preparation h ++ tw)%list) as ->.
  { apply (f_equal trace) in A. simpl in A. now apply app_inv_head in A. }
  destruct H as [(err & H & _)|(te & _ & O & [(err & H & _)|[(err & H & _)|[[= ->] ->]]])];
    try discriminate.
  exists tw, te. rewrite V in O. repeat split; auto.
  now rewrite <- !app_assoc.
Qed.

(** Without faults [installMonolithos] returns. *)
Lemma install_faultFree (w : World) :
  faultFree h -> exists w', installMonolithosWith h nameOf w = (inr true, w').
Proof.
  intros FF. destruct (installMonolithosWith h nameOf w) as [r w'] eqn:H.
  destruct (install_run _ _ _ _ _ H) as (r1 & t1 & D & C).
  destruct (downloadAndWrite_run _ _ _ _ D) as (_ & _ & _ & _ & KO).
  destruct r1 as [err|[]].
  - destruct (KO err eq_refl) as (t0 & e & F). rewrite FF in F. discriminate.
  - destruct C as [(err & _ & _ & t0 & F)
                  |(te & _ & _ & [(err & _ & _ & t0 & F)
                                 |[(err & _ & _ & t0 & s & F)|[-> _]]])];
      try (rewrite FF in F; discriminate).
    now exists w'.
Qed.

End Outcomes.

(** ** Reading the edit off the vault *)

Lemma loadedAppearance_ok (h : Host) (v : Vault) (start : Appearance) :
  loadedAppearance h v = inr start ->
  (vaultExists v (appearancePathOf h) = false /\ start = ofJson (JObj []))
  \/ exists content j,
      lookup (appearancePathOf h) (files v) = Some content
      /\ JSON_parse h content = Some j
      /\ start = ofJson j.
Proof.
  unfold loadedAppearance. destruct (vaultExists v (appearancePathOf h)).
  - destruct (lookup _ (files v)) as [content|]; [|discriminate].
    destruct (JSON_parse h content) as [j|] eqn:P; [|discriminate].
    intros [= <-]. right. now exists content, j.
  - intros [= <-]. now left.
Qed.

Lemma editedAppearance_some (h : Host) (nameOf : string -> string) (v : Vault)
      (a : Appearance) :
  editedAppearance h nameOf v = inr (Some a) ->
  exists start a1,
    loadedAppearance h v = inr start
    /\ vaultExists v (snippetsPathOf h) = true
    /\ ensureList start = inr a1
    /\ enableAll a1 (listedNames h nameOf v) = inr a.
Proof.
  unfold editedAppearance, bindR.
  destruct (loadedAppearance h v) as [e|start]; [discriminate|].
  destruct (vaultExists v (snippetsPathOf h)); [|discriminate].
  destruct (ensureList start) as [e|a1] eqn:E1; [discriminate|].
  destruct (enableAll a1 _) as [e|a2] eqn:E2; [discriminate|].
  intros [= <-]. now exists start, a1.
Qed.

Lemma editedAppearance_none (h : Host) (nameOf : string -> string) (v : Vault) :
  editedAppearance h nameOf v = inr None ->
  exists start,
    loadedAppearance h v = inr start
    /\ vaultExists v (snippetsPathOf h) = false.
Proof.
  unfold editedAppearance, bindR.
  destruct (loadedAppearance h v) as [e|start]; [discriminate|].
  destruct (vaultExists v (snippetsPathOf h)).
  - destruct (ensureList start) as [e|a1]; [discriminate|].
    destruct (enableAll a1 _) as [e|a2]; discriminate.
  - intros _. now exists start.
Qed.

Lemma filter_update (k : string) (v : json) (props : list (string * json)) :
  filter (fun kv => negb (String.eqb (fst kv) k)) (update k v props)
  = filter (fun kv => negb (String.eqb (fst kv) k)) props.
Proof.
  induction props as [|[k' x] props IH]; simpl.
  - now rewrite String.eqb_refl.
  - destruct (String.eqb k k') eqn:E; simpl.
    + apply String.eqb_eq in E as <-. now rewrite String.eqb_refl.
    + rewrite IH. reflexivity.
Qed.

Lemma otherProperties_update (v : json) (props : list (string * json)) :
  otherProperties (JObj (update listKey v props)) = otherProperties (JObj props).
Proof. apply filter_update. Qed.

(** ** Running the install again *)

Lemma findLast_appearance (cfg : string) :
  findLast (cfg ++ "/appearance.json") "/" = Some (String.length cfg).
Proof.
  induction cfg as [|c cfg IH]; [reflexivity|].
  change (String c cfg ++ "/appearance.json")
    with (String c (cfg ++ "/appearance.json")).
  cbn [findLast]. now rewrite IH.
Qed.

Lemma parentOf_appearance (cfg : string) :
  parentOf (cfg ++ "/appearance.json") = cfg.
Proof.
  unfold parentOf, lastIndexOf. rewrite findLast_appearance.
  unfold substring, clamp. change (Z.to_nat (Z.max 0 0)) with 0.
  rewrite (Z.max_r 0 (Z.of_nat _)) by lia. rewrite Nat2Z.id.
  rewrite append_length, Nat.min_0_l, (Nat.min_l (String.length cfg)) by lia.
  rewrite Nat.min_0_l, Nat.max_0_l, Nat.sub_0_r. simpl drop. apply take_append.
Qed.

Lemma parentOf_appearance_not_snippets (cfg : string) :
  String.eqb (parentOf (cfg ++ "/appearance.json")) (cfg ++ "/snippets") = false.
Proof.
  rewrite parentOf_appearance. apply String.eqb_neq. intros E.
  apply (f_equal String.length) in E. rewrite append_length in E. simpl in E. lia.
Qed.

Lemma snippets_not_appearance (cfg : string) :
  cfg ++ "/snippets" <> cfg ++ "/appearance.json".
Proof. intros E. apply append_inj_l in E. discriminate. Qed.

(** No entry of the archive is written to the appearance file. *)
Lemma target_not_appearance (cfg path target : string) :
  targetPath cfg path = Some target -> target <> cfg ++ "/appearance.json".
Proof.
  intros T E. destruct (targetPath_spec cfg path) as (A & B & C).
  destruct (includes path "plugins/monolithos/") eqn:IA.
  - destruct (A eq_refl) as (suffix & (pre & rest & _ & -> & _) & T').
    rewrite T in T'. injection T' as ->. apply append_inj_l in E. discriminate.
  - destruct (includes path "snippets/") eqn:IB.
    + destruct (B eq_refl eq_refl) as (suffix & (pre & rest & _ & -> & _) & T').
      rewrite T in T'. injection T' as ->. apply append_inj_l in E. discriminate.
    + rewrite (C eq_refl eq_refl) in T. discriminate.
Qed.

Lemma vaultExists_write (v : Vault) (path content p : string) :
  vaultExists v p = true -> vaultExists (vaultWrite v path content) p = true.
Proof.
  unfold vaultExists, vaultWrite; simpl. rewrite !orb_true_iff.
  intros [F|L]; [now left|right].
  destruct (String.eqb p path) eqn:E.
  - apply String.eqb_eq in E as ->. now rewrite lookup_update_eq.
  - apply String.eqb_neq in E. now rewrite lookup_update_neq.
Qed.

Lemma vaultExists_mkdir (v : Vault) (path p : string) :
  vaultExists v p = true -> vaultExists (vaultMkdir v path) p = true.
Proof.
  unfold vaultExists, vaultMkdir; simpl. rewrite !orb_true_iff, existsb_app.
  intros [F|L]; [left; now rewrite F | now right].
Qed.

Lemma vaultExists_mkdir_new (v : Vault) (path : string) :
  vaultExists (vaultMkdir v path) path = true.
Proof.
  unfold vaultExists, vaultMkdir; simpl. rewrite existsb_app. simpl.
  now rewrite String.eqb_refl, !orb_true_r.
Qed.

Lemma vaultExists_writeEffect (v : Vault) (tc : string * string) (p : string) :
  vaultExists v p = true -> vaultExists (writeEffect v tc) p = true.
Proof.
  intros E. unfold writeEffect. apply vaultExists_write.
  destruct (nonEmpty _ && negb (vaultExists v _)); auto.
  now apply vaultExists_mkdir.
Qed.

Lemma writeEffect_dir (v : Vault) (tc : string * string) :
  nonEmpty (dirOf (fst tc)) = true ->
  vaultExists (writeEffect v tc) (dirOf (fst tc)) = true.
Proof.
  intros N. unfold writeEffect. fold (dirOf (fst tc)). rewrite N. simpl.
  apply vaultExists_write.
  destruct (vaultExists v (dirOf (fst tc))) eqn:E; simpl; auto.
  apply vaultExists_mkdir_new.
Qed.

Lemma writeEffect_settled (v : Vault) (tc : string * string) :
  (nonEmpty (dirOf (fst tc)) = true -> vaultExists v (dirOf (fst tc)) = true) ->
  folders (writeEffect v tc) = folders v.
Proof.
  intros H. unfold writeEffect. fold (dirOf (fst tc)).
  destruct (nonEmpty (dirOf (fst tc))); simpl; auto. now rewrite H.
Qed.

Lemma writeEffect_lookup (v : Vault) (tc : string * string) (p : string) :
  lookup p (files (writeEffect v tc))
  = if String.eqb p (fst tc) then Some (snd tc) else lookup p (files v).
Proof.
  unfold writeEffect.
  assert (F : forall v', files v' = files v ->
            lookup p (files (vaultWrite v' (fst tc) (snd tc)))
            = if String.eqb p (fst tc) then Some (snd tc) else lookup p (files v)).
  { intros v' E. unfold vaultWrite; simpl. rewrite E.
    destruct (String.eqb p (fst tc)) eqn:Q.
    - apply String.eqb_eq in Q as ->. apply lookup_update_eq.
    - apply String.eqb_neq in Q. now apply lookup_update_neq. }
  destruct (nonEmpty _ && negb (vaultExists v _)); now apply F.
Qed.

Lemma writeEffect_keys (v : Vault) (tc : string * string) :
  In (fst tc) (map fst (files (writeEffect v tc)))
  /\ (forall k, In k (map fst (files v)) -> In k (map fst (files (writeEffect v tc))))
  /\ (In (fst tc) (map fst (files v)) ->
      map fst (files (writeEffect v tc)) = map fst (files v)).
Proof.
  unfold writeEffect.
  destruct (nonEmpty _ && negb (vaultExists v _)); simpl;
    (split; [apply keys_update_new|split;
             [intros k; apply keys_update_incl | apply keys_update_present]]).
Qed.

Lemma writes_lookup (writes : list (string * string)) (v : Vault) (p : string) :
  lookup p (files (fold_left writeEffect writes v))
  = match lookup p (rev writes) with
    | Some c => Some c
    | None => lookup p (files v)
    end.
Proof.
  revert v. induction writes as [|[t c] rest IH]; intros v; simpl; auto.
  rewrite IH, lookup_app, writeEffect_lookup. simpl.
  destruct (lookup p (rev rest)); auto. now destruct (String.eqb p t).
Qed.

Lemma writes_exists (writes : list (string * string)) (v : Vault) (p : string) :
  vaultExists v p = true -> vaultExists (fold_left writeEffect writes v) p = true.
Proof.
  revert v. induction writes as [|tc rest IH]; intros v; simpl; auto.
  intros E. apply IH. now apply vaultExists_writeEffect.
Qed.

Lemma writes_keys_incl (writes : list (string * string)) (v : Vault) (k : string) :
  In k (map fst (files v)) ->
  In k (map fst (files (fold_left writeEffect writes v))).
Proof.
  revert v. induction writes as [|tc rest IH]; intros v; simpl; auto.
  intros I. apply IH. now apply writeEffect_keys.
Qed.

(** After the loop every target is a file, and its folder exists. *)
Lemma writes_done (writes : list (string * string)) (v : Vault)
      (tc : string * string) :
  In tc writes ->
  In (fst tc) (map fst (files (fold_left writeEffect writes v)))
  /\ (nonEmpty (dirOf (fst tc)) = true ->
      vaultExists (fold_left writeEffect writes v) (dirOf (fst tc)) = true).
Proof.
  revert v. induction writes as [|tc' rest IH]; intros v; simpl; [intros []|].
  intros [->|I]; [|now apply IH]. split.
  - apply writes_keys_incl. apply (proj1 (writeEffect_keys _ _)).
  - intros N. apply writes_exists. now apply writeEffect_dir.
Qed.

(** Where every target is a file already and every folder exists, the loop
    adds no file and no folder. *)
Lemma writes_settled (writes : list (string * string)) (v : Vault) :
  (forall tc, In tc writes ->
     In (fst tc) (map fst (files v))
     /\ (nonEmpty (dirOf (fst tc)) = true -> vaultExists v (dirOf (fst tc)) = true)) ->
  map fst (files (fold_left writeEffect writes v)) = map fst (files v)
  /\ folders (fold_left writeEffect writes v) = folders v.
Proof.
  revert v. induction writes as [|tc rest IH]; intros v H; simpl; auto.
  destruct (H tc (or_introl eq_refl)) as [K D].
  destruct (writeEffect_keys v tc) as (_ & Inc & Same).
  destruct (IH (writeEffect v tc)) as [IK IF].
  - intros tc' I. destruct (H tc' (or_intror I)) as [K' D']. split.
    + now apply Inc.
    + intros N. apply vaultExists_writeEffect. now apply D'.
  - rewrite IK, IF, (Same K). split; [reflexivity|]. now apply writeEffect_settled.
Qed.

Section Twice.

Variable h : Host.
Variable nameOf : string -> string.

Lemma placed_not_appearance (collected : list (string * string))
      (target content : string) :
  In (target, content) (placed (configDir h) collected) ->
  target <> appearancePathOf h.
Proof.
  intros I. apply placed_In in I as (path & _ & T).
  now apply (target_not_appearance _ _ _ T).
Qed.

Lemma afterEdit_cases (v : Vault) :
  ((forall a, editedAppearance h nameOf v <> inr (Some a))
   /\ afterEdit h nameOf v = v)
  \/ exists a,
      editedAppearance h nameOf v = inr (Some a)
      /\ afterEdit h nameOf v
         = vaultWrite v (appearancePathOf h) (JSON_stringify h (document a) 2).
Proof.
  unfold afterEdit. destruct (editedAppearance h nameOf v) as [e|[a|]]; eauto;
    left; split; auto; discriminate.
Qed.

Lemma afterEdit_lookup (v : Vault) (p : string) :
  p <> appearancePathOf h ->
  lookup p (files (afterEdit h nameOf v)) = lookup p (files v).
Proof.
  intros N. destruct (afterEdit_cases v) as [[_ ->]|(a & _ & ->)]; auto.
  simpl. now apply lookup_update_neq.
Qed.

Lemma afterEdit_exists (v : Vault) (p : string) :
  vaultExists v p = true -> vaultExists (afterEdit h nameOf v) p = true.
Proof.
  intros E. destruct (afterEdit_cases v) as [[_ ->]|(a & _ & ->)]; auto.
  now apply vaultExists_write.
Qed.

Lemma afterEdit_keys (v : Vault) (k : string) :
  In k (map fst (files v)) -> In k (map fst (files (afterEdit h nameOf v))).
Proof.
  intros I. destruct (afterEdit_cases v) as [[_ ->]|(a & _ & ->)]; auto.
  simpl. now apply keys_update_incl.
Qed.

(** The edit looks at the vault through [exists], [read] and [list] only. *)
Lemma editedAppearance_ext (v v' : Vault) :
  folders v = folders v' ->
  (forall p, lookup p (files v) = lookup p (files v')) ->
  map fst (files v) = map fst (files v') ->
  editedAppearance h nameOf v = editedAppearance h nameOf v'.
Proof.
  intros F L K.
  unfold editedAppearance, loadedAppearance, listedNames, vaultList, vaultExists.
  now rewrite F, K, !L.
Qed.

(** The write loop of a second run finds everything in place. *)
Lemma afterWrites_again (v : Vault) :
  let v1' := afterEdit h nameOf (afterWrites h v) in
  folders (afterWrites h v1') = folders v1'
  /\ map fst (files (afterWrites h v1')) = map fst (files v1')
  /\ forall p, lookup p (files (afterWrites h v1')) = lookup p (files v1').
Proof.
  intros v1'. unfold afterWrites.
  set (writes := placed (configDir h) (fileEntries (archive h))).
  assert (S : forall tc, In tc writes ->
            In (fst tc) (map fst (files v1'))
            /\ (nonEmpty (dirOf (fst tc)) = true ->
                vaultExists v1' (dirOf (fst tc)) = true)).
  { intros tc I. destruct (writes_done writes v tc I) as [K D]. split.
    - now apply afterEdit_keys.
    - intros N. apply afterEdit_exists. now apply D. }
  destruct (writes_settled writes v1' S) as [K F]. repeat split; auto.
  intros p. rewrite writes_lookup.
  destruct (lookup p (rev writes)) as [c|] eqn:L; auto.
  assert (I : In (p, c) writes) by (apply in_rev; now apply lookup_in).
  unfold v1'. rewrite afterEdit_lookup
    by (apply (placed_not_appearance (fileEntries (archive h)) p c I)).
  unfold afterWrites. fold writes. now rewrite writes_lookup, L.
Qed.

(** Once the edited document is in the appearance file, and the codec reads
    it back, the edit arrives at the same document again. *)
Lemma edit_again (v : Vault) (a : Appearance) :
  editedAppearance h nameOf v = inr (Some a) ->
  JSON_parse h (JSON_stringify h (document a) 2) = Some (document a) ->
  exists b,
    editedAppearance h nameOf
      (vaultWrite v (appearancePathOf h) (JSON_stringify h (document a) 2))
    = inr (Some b)
    /\ document b = document a.
Proof.
  intros E P. apply editedAppearance_some in E as (start & a1 & L & S & E1 & E2).
  assert (exists j, start = ofJson j) as (j & ->).
  { apply loadedAppearance_ok in L as [[_ ->]|(c & j & _ & _ & ->)]; eauto. }
  destruct (edit_spec _ _ _ _ E1 E2) as (_ & _ & _ & _ & b1 & b & B1 & B2 & D).
  exists b. split; [|exact D].
  set (text := JSON_stringify h (document a) 2) in *.
  assert (N : listedNames h nameOf (vaultWrite v (appearancePathOf h) text)
              = listedNames h nameOf v).
  { unfold listedNames, vaultList, vaultWrite; simpl.
    rewrite keys_update_filter; [reflexivity|].
    apply parentOf_appearance_not_snippets. }
  unfold editedAppearance, loadedAppearance. rewrite N.
  assert (X : vaultExists (vaultWrite v (appearancePathOf h) text) (appearancePathOf h)
              = true).
  { unfold vaultExists, vaultWrite; simpl. now rewrite lookup_update_eq, orb_true_r. }
  rewrite X. simpl files. rewrite lookup_update_eq, P. simpl.
  rewrite (vaultExists_write _ _ _ _ S), B1. simpl. now rewrite B2.
Qed.

(** Without faults, the vault after a run is the write loop, then the
    edit. *)
Lemma install_faultFree_vault (w : World) :
  faultFree h ->
  exists w',
    installMonolithosWith h nameOf w = (inr true, w')
    /\ vault w' = afterEdit h nameOf (afterWrites h (vault w)).
Proof.
  intros FF. destruct (install_faultFree h nameOf w FF) as [w' H].
  exists w'. split; [exact H|].
  destruct (install_success _ _ _ _ _ H) as (tw & te & _ & -> & _ & _ & V & O).
  unfold persisted, withSettings, advance. cbn [vault].
  rewrite (app_assoc (preparation h)), replay_app, V, !replay_app. simpl.
  now rewrite (editOutcome_faultFree _ _ _ _ FF O).
Qed.

(** Two runs leave what one run leaves. *)
Lemma afterInstall_again (v : Vault) :
  (forall a,
     editedAppearance h nameOf (afterWrites h v) = inr (Some a) ->
     JSON_parse h (JSON_stringify h (document a) 2) = Some (document a)) ->
  let once := afterEdit h nameOf (afterWrites h v) in
  let twice := afterEdit h nameOf (afterWrites h once) in
  folders twice = folders once
  /\ forall p, lookup p (files twice) = lookup p (files once).
Proof.
  intros RT once twice. destruct (afterWrites_again v) as (F & K & L).
  fold once in F, K, L.
  pose proof (editedAppearance_ext _ _ F L K) as E. unfold twice.
  destruct (afterEdit_cases (afterWrites h v)) as [[No Same]|(a & Ea & Wrote)];
    fold once in Same || fold once in Wrote.
  - (* the first run's edit wrote nothing; neither does the second's *)
    assert (U : afterEdit h nameOf (afterWrites h once) = afterWrites h once).
    { unfold afterEdit at 1. rewrite E, Same.
      destruct (editedAppearance h nameOf (afterWrites h v)) as [e|[a|]]; auto.
      now destruct (No a). }
    rewrite U. auto.
  - destruct (edit_again _ _ Ea (RT a Ea)) as (b & Eb & D).
    rewrite <- Wrote in Eb.
    assert (T : afterEdit h nameOf (afterWrites h once)
                = vaultWrite (afterWrites h once) (appearancePathOf h)
                    (JSON_stringify h (document a) 2)).
    { unfold afterEdit. now rewrite E, Eb, D. }
    rewrite T. split.
    + simpl. rewrite F. reflexivity.
    + intros p. simpl. destruct (String.eqb p (appearancePathOf h)) eqn:Q.
      * apply String.eqb_eq in Q as ->. rewrite lookup_update_eq, Wrote. simpl.
        now rewrite lookup_update_eq.
      * apply String.eqb_neq in Q. rewrite lookup_update_neq by exact Q. apply L.
Qed.

Lemma afterWrites_appearance (v : Vault) :
  lookup (appearancePathOf h) (files (afterWrites h v))
  = lookup (appearancePathOf h) (files v).
Proof.
  unfold afterWrites. rewrite writes_lookup.
  destruct (lookup _ (rev _)) as [c|] eqn:L; auto.
  apply lookup_in, in_rev in L. now destruct (placed_not_appearance _ _ _ L).
Qed.

(** The edit adds no duplicate to the list. *)
Lemma afterInstall_noDup (v : Vault) :
  (forall a,
     editedAppearance h nameOf (afterWrites h v) = inr (Some a) ->
     JSON_parse h (JSON_stringify h (document a) 2) = Some (document a)) ->
  NoDup (enabledSnippets h v) ->
  NoDup (enabledSnippets h (afterEdit h nameOf (afterWrites h v))).
Proof.
  intros RT ND.
  assert (Before : enabledSnippets h (afterWrites h v) = enabledSnippets h v)
    by (unfold enabledSnippets; now rewrite afterWrites_appearance).
  destruct (afterEdit_cases (afterWrites h v)) as [[_ ->]|(a & Ea & ->)];
    [now rewrite Before|].
  unfold enabledSnippets, vaultWrite; simpl. rewrite lookup_update_eq, (RT a Ea).
  apply editedAppearance_some in Ea as (start & a1 & L & _ & E1 & E2).
  apply loadedAppearance_ok in L as [[_ ->]|(c & j & Lc & P & ->)];
    destruct (edit_spec _ _ _ _ E1 E2) as (_ & _ & N & _); apply N.
  - constructor.
  - rewrite <- Before in ND. unfold enabledSnippets in ND. now rewrite Lc, P in ND.
Qed.

End Twice.

(** ** The license verifier *)

(** C1, as the code has it.  [verifyLicense] never throws: for every host,
    key and world it returns a result object.  When the request completes and
    the response parses to [data], a truthy [data.valid] gives
    [{valid: true, tier: data.tier}]; a falsy one gives [{valid: false}] with
    [data.message] as the error when that is truthy, and ["Invalid license
    key"] when it is absent or falsy (the empty string included).  When the
    request throws, the response does not parse, or it parses to [null], the
    result is [{valid: false, error: "Could not connect to server"}]. *)
Theorem verifyLicense_result (host : Host) (licenseKey : string) (w : World) :
  exists r w',
    verifyLicense host licenseKey w = (inr r, w')
    /\ vault w' = vault w /\ settings w' = settings w /\ saved w' = saved w
    /\ let request := Request "POST" VERIFY_URL (verifyBody host licenseKey) in
       let response := server host "POST" VERIFY_URL (verifyBody host licenseKey) in
       (forall data v,
          fault host (trace w) request = None ->
          JSON_parse host response = Some data ->
          getProp data "valid" = inr v ->
          truthyProp v = true ->
          exists dataTier,
            getProp data "tier" = inr dataTier
            /\ r = {| valid := true; tier := dataTier; error := None |})
       /\ (forall data v,
             fault host (trace w) request = None ->
             JSON_parse host response = Some data ->
             getProp data "valid" = inr v ->
             truthyProp v = false ->
             exists message,
               getProp data "message" = inr message
               /\ valid r = false /\ tier r = None
               /\ (forall m, message = Some m -> truthy m = true ->
                              error r = Some m)
               /\ (truthyProp message = false ->
                   error r = Some (JStr "Invalid license key")))
       /\ ((fault host (trace w) request <> None
            \/ JSON_parse host response = None
            \/ JSON_parse host response = Some JNull) ->
           r = couldNotConnect).
Proof.
  unfold verifyLicense, tryCatch, requestUrl, responseJson, console_error, call,
    bind, ret, throw, liftR, modify, verifyBody, couldNotConnect.
  destruct (fault host (trace w) _) as [err|] eqn:F; simpl.
  { eexists _, _. split; [reflexivity|]. repeat split; auto; intros; congruence. }
  destruct (JSON_parse host _) as [data|] eqn:P; simpl.
  2:{ eexists _, _. split; [reflexivity|]. repeat split; auto; intros; congruence. }
  destruct (getProp data "valid") as [e|v] eqn:V; simpl.
  { eexists _, _. split; [reflexivity|]. repeat split; auto; intros; congruence. }
  assert (N : data <> JNull) by (intros ->; discriminate).
  assert (T : exists x, getProp data "tier" = inr x)
    by (destruct data; simpl; eauto; congruence).
  assert (G : exists x, getProp data "message" = inr x)
    by (destruct data; simpl; eauto; congruence).
  destruct T as [x T], G as [m G].
  destruct (truthyProp v) eqn:TV; rewrite ?T, ?G; simpl;
    (eexists _, _; split; [reflexivity|]; do 3 (split; [reflexivity|]);
     split; [|split]).
  - intros data' v' _ [= <-]. rewrite V. intros [= <-] _. eauto.
  - intros data' v' _ [= <-]. rewrite V. intros [= <-]. congruence.
  - intros [?|[?|?]]; congruence.
  - intros data' v' _ [= <-]. rewrite V. intros [= <-]. congruence.
  - intros data' v' _ [= <-]. rewrite V. intros [= <-] _. exists m.
    repeat split; auto; simpl.
    + intros m' -> Tm. unfold orElse. now rewrite Tm.
    + destruct m as [m|]; simpl; [|reflexivity]. now intros ->.
  - intros [?|[?|?]]; congruence.
Qed.

(** C1 as stated fails where the server supplies an empty message: the
    response [{valid: false, message: ""}] does not come back with that
    message as the error, but with the generic one. *)
Lemma verifyLicense_empty_message :
  let host := Demo.host Demo.example Demo.noFault in
  let w := Demo.start Demo.emptyVault in
  JSON_parse host (server host "POST" VERIFY_URL (verifyBody host "UFO_sk_1"))
  = Some (JObj [("valid", JBool false); ("message", JStr "")])
  /\ exists r w',
      verifyLicense host "UFO_sk_1" w = (inr r, w')
      /\ error r = Some (JStr "Invalid license key")
      /\ error r <> Some (JStr "").
Proof.
  split; [reflexivity|]. eexists _, _. split; [vm_compute; reflexivity|].
  split; [reflexivity | discriminate].
Qed.

(** ** Where the entries of the archive go *)

(** Without faults, the binary writes of a run are the placed entries. *)
Lemma install_writes (host : Host) (w : World) :
  faultFree host ->
  exists t w',
    installMonolithos host w = (inr true, w')
    /\ trace w' = (trace w ++ t)%list
    /\ writesOf t = placed (configDir host) (fileEntries (archive host)).
Proof.
  intros FF. destruct (install_faultFree host snippetName w FF) as [w' H].
  destruct (install_success _ _ _ _ _ H) as (tw & te & _ & -> & S & W & V & O).
  destruct (editOutcome_quiet _ _ _ _ O) as (We & _).
  assert (Wp : writesOf (preparation host) = []).
  { unfold preparation. rewrite !writesOf_app. simpl.
    induction (map fst (fileEntries (archive host))); simpl; auto. }
  eexists _, _. split; [exact H|]. split; [reflexivity|].
  rewrite !writesOf_app, Wp, W, We. simpl. now rewrite app_nil_r.
Qed.

Lemma writes_In (host : Host) (target content : string) :
  In (target, content) (placed (configDir host) (fileEntries (archive host)))
  <-> exists path entry,
      In (path, entry) (archive host)
      /\ dir entry = false
      /\ content = data entry
      /\ targetPath (configDir host) path = Some target.
Proof.
  rewrite placed_In. split.
  - intros (path & I & T). apply fileEntries_In in I as (entry & I & D & ->).
    now exists path, entry.
  - intros (path & entry & I & D & -> & T). exists path. split; [|exact T].
    apply fileEntries_In. now exists entry.
Qed.

(** C2.  When no host call fails, [installMonolithos] returns [true], and
    the binary writes it made are, in archive order, one for each entry that
    is no directory and whose path includes ["plugins/monolithos/"] or
    ["snippets/"]; the target is the configuration directory, a slash, and
    the path from the first occurrence of the marker on (the plugin marker
    when the path has both).  Entries without a marker are passed over.  For
    the archive [plugins/monolithos/main.js], [snippets/theme.css],
    [readme.txt] that makes two writes. *)
Theorem install_writes_recognized_entries (host : Host) (w : World) :
  faultFree host ->
  exists t w',
    installMonolithos host w = (inr true, w')
    /\ trace w' = (trace w ++ t)%list
    /\ writesOf t = placed (configDir host) (fileEntries (archive host))
    /\ (forall target content,
          In (target, content) (writesOf t)
          <-> exists path entry,
              In (path, entry) (archive host)
              /\ dir entry = false
              /\ content = data entry
              /\ targetPath (configDir host) path = Some target)
    /\ (forall path,
          (includes path "plugins/monolithos/" = true ->
           exists suffix,
             suffixFromFirst path "plugins/monolithos/" suffix
             /\ targetPath (configDir host) path
                = Some (configDir host ++ "/" ++ suffix))
          /\ (includes path "plugins/monolithos/" = false ->
              includes path "snippets/" = true ->
              exists suffix,
                suffixFromFirst path "snippets/" suffix
                /\ targetPath (configDir host) path
                   = Some (configDir host ++ "/" ++ suffix))
          /\ (includes path "plugins/monolithos/" = false ->
              includes path "snippets/" = false ->
              targetPath (configDir host) path = None))
    /\ (forall main theme readme,
          archive host
          = [("plugins/monolithos/main.js", {| dir := false; data := main |});
             ("snippets/theme.css", {| dir := false; data := theme |});
             ("readme.txt", {| dir := false; data := readme |})] ->
          writesOf t
          = [(configDir host ++ "/plugins/monolithos/main.js", main);
             (configDir host ++ "/snippets/theme.css", theme)]).
Proof.
  intros FF. destruct (install_writes host w FF) as (t & w' & H & T & W).
  exists t, w'. split; [exact H|]. split; [exact T|]. split; [exact W|].
  rewrite W. split; [|split].
  - intros target content. apply writes_In.
  - intros path. apply targetPath_spec.
  - intros main theme readme ->. reflexivity.
Qed.

(** The specification's example archive, run on the demo host. *)
Lemma install_writes_recognized_entries_example :
  exists t w',
    installMonolithos (Demo.host Demo.example Demo.noFault)
                      (Demo.start Demo.emptyVault) = (inr true, w')
    /\ trace w' = t
    /\ writesOf t = [(".obsidian/plugins/monolithos/main.js", "main");
                     (".obsidian/snippets/theme.css", "theme")].
Proof.
  destruct (install_writes_recognized_entries
              (Demo.host Demo.example Demo.noFault) (Demo.start Demo.emptyVault)
              (fun _ _ => eq_refl))
    as (t & w' & H & T & _ & _ & _ & E).
  exists t, w'. split; [exact H|]. split; [exact T|].
  exact (E "main" "theme" "readme" eq_refl).
Defined.

(** C9.  A path that includes both markers is classified by the plugin
    marker: its target is the configuration directory, a slash, and the path
    from the first occurrence of ["plugins/monolithos/"] on, and that is
    where a run without faults writes the entry. *)
Theorem plugin_marker_takes_precedence (cfg path : string) :
  includes path "plugins/monolithos/" = true ->
  includes path "snippets/" = true ->
  exists suffix,
    suffixFromFirst path "plugins/monolithos/" suffix
    /\ targetPath cfg path = Some (cfg ++ "/" ++ suffix)
    /\ startsWith (cfg ++ "/" ++ suffix) (cfg ++ "/plugins/monolithos/") = true
    /\ forall host w entry,
        configDir host = cfg ->
        faultFree host ->
        In (path, entry) (archive host) ->
        dir entry = false ->
        exists t w',
          installMonolithos host w = (inr true, w')
          /\ trace w' = (trace w ++ t)%list
          /\ In (cfg ++ "/" ++ suffix, data entry) (writesOf t).
Proof.
  intros IA IB. destruct (targetPath_spec cfg path) as (A & _).
  destruct (A IA) as (suffix & S & T). exists suffix. split; [exact S|].
  split; [exact T|]. split.
  - destruct S as (pre & rest & _ & -> & _). apply startsWith_append.
    exists rest. now rewrite !append_assoc.
  - intros host w entry <- FF I D.
    destruct (install_writes host w FF) as (t & w' & H & Tr & W).
    exists t, w'. split; [exact H|]. split; [exact Tr|].
    rewrite W. apply writes_In. now exists path, entry.
Qed.

(** A snippet inside the plugin's own tree. *)
Lemma plugin_marker_takes_precedence_example :
  exists suffix,
    suffixFromFirst "pkg/plugins/monolithos/snippets/extra.css"
                    "plugins/monolithos/" suffix
    /\ targetPath ".obsidian" "pkg/plugins/monolithos/snippets/extra.css"
       = Some (".obsidian" ++ "/" ++ suffix).
Proof.
  destruct (plugin_marker_takes_precedence
              ".obsidian" "pkg/plugins/monolithos/snippets/extra.css"
              eq_refl eq_refl) as (suffix & S & T & _).
  exists suffix. split; [exact S | exact T].
Defined.

(** ** The order of a run *)

Lemma editOutcome_steps (host : Host) (nameOf : string -> string) (v : Vault)
      (t : list Event) :
  editOutcome host nameOf v t -> forallb isEditStep t = true.
Proof.
  assert (Q : forall pre, forallb isQuery pre = true -> forallb isEditStep pre = true).
  { induction pre as [|e pre IH]; simpl; auto. rewrite !andb_true_iff.
    intros [E R]. split; auto. now destruct e. }
  intros [(a & pre & _ & -> & P)|[(_ & P & _)|(err & pre & -> & P & _)]];
    rewrite ?forallb_app; simpl; rewrite Q; auto.
Qed.

(** C8.  A run of [installMonolithos] that returns [true] has made these
    calls, in this order: the download status, then the request; the
    extraction status, then the decoding and the reading of the entries; the
    installing status, then the calls of the write loop; the appearance
    status, then the calls of the edit; the completion status, then the
    saving of the settings.  The callback has received exactly these five
    statuses. *)
Theorem progress_sequence (host : Host) (w w' : World) :
  installMonolithos host w = (inr true, w') ->
  exists tw te,
    trace w'
    = (trace w
       ++ [Progress "Downloading Monolithos...";
           Request "GET" PLUGIN_DOWNLOAD_URL ""]
       ++ [Progress "Extracting files...";
           LoadZip (server host "GET" PLUGIN_DOWNLOAD_URL "")]
       ++ map ReadEntry (map fst (fileEntries (archive host)))
       ++ [Progress "Installing files..."] ++ tw
       ++ [Progress "Configuring appearance..."] ++ te
       ++ [Progress "Installation complete!"; SaveData (settings w')])%list
    /\ forallb isWriteStep tw = true
    /\ forallb isEditStep te = true
    /\ exists t,
        trace w' = (trace w ++ t)%list
        /\ progressOf t
           = ["Downloading Monolithos..."; "Extracting files...";
              "Installing files..."; "Configuring appearance...";
              "Installation complete!"].
Proof.
  intros H. destruct (install_success _ _ _ _ _ H) as (tw & te & _ & -> & S & _ & _ & O).
  pose proof (editOutcome_steps _ _ _ _ O) as E.
  destruct (editOutcome_quiet _ _ _ _ O) as (_ & P & _).
  exists tw, te. split; [|split; [exact S|split; [exact E|]]].
  - unfold preparation. simpl. now rewrite <- !app_assoc.
  - eexists. split; [reflexivity|].
    unfold preparation. rewrite !progressOf_app, (isWriteStep_progress _ S), P. simpl.
    assert (R : forall l, progressOf (map ReadEntry l) = [])
      by (induction l; simpl; auto).
    now rewrite R.
Qed.

(** The statuses of a run on the demo host. *)
Lemma progress_sequence_example :
  exists t,
    trace (snd (installMonolithos (Demo.host Demo.package Demo.noFault)
                                  (Demo.start Demo.emptyVault))) = t
    /\ progressOf t
       = ["Downloading Monolithos..."; "Extracting files...";
          "Installing files..."; "Configuring appearance...";
          "Installation complete!"].
Proof.
  assert (H : installMonolithos (Demo.host Demo.package Demo.noFault)
                                (Demo.start Demo.emptyVault)
              = (inr true,
                 snd (installMonolithos (Demo.host Demo.package Demo.noFault)
                                        (Demo.start Demo.emptyVault))))
    by (vm_compute; reflexivity).
  destruct (progress_sequence _ _ _ H) as (tw & te & _ & _ & _ & t & T & P).
  exists t. split; [exact T | exact P].
Defined.

(** ** Failures *)

(** C3.  When steps 1 to 4 (download, decode, collect, write) throw,
    [installMonolithos] logs the error and throws it on.  The settings, in
    memory and as saved, are what they were; the vault is as the failing
    step left it, every file written before the failure still holding what
    was last written to it. *)
Theorem install_failure_leaves_settings (host : Host) (w w1 : World) (err : Error) :
  downloadAndWrite host w = (inl err, w1) ->
  exists t w',
    installMonolithos host w = (inl err, w')
    /\ trace w1 = (trace w ++ t)%list
    /\ trace w' = (trace w1 ++ [ConsoleError installFailed err])%list
    /\ settings w' = settings w
    /\ saved w' = saved w
    /\ vault w' = vault w1
    /\ vault w1 = replay t (vault w)
    /\ forall path content,
        In (path, content) (writesOf t) ->
        exists c,
          lastWrite path t = Some c
          /\ lookup path (files (vault w')) = Some c.
Proof.
  intros D. destruct (downloadAndWrite_run _ _ _ _ D) as (t & -> & _).
  destruct (installMonolithos host w) as [r w'] eqn:H.
  destruct (install_run _ _ _ _ _ H) as (r1 & t1 & D1 & C).
  rewrite D in D1.
  assert (R : r1 = inl err) by congruence.
  assert (E : advance t w = advance t1 w) by congruence.
  subst r1.
  assert (t1 = t) as ->.
  { apply (f_equal trace) in E. simpl in E. now apply app_inv_head in E. }
  destruct C as [-> ->]. exists t, (advance (t ++ [ConsoleError installFailed err]) w).
  split; [reflexivity|]. simpl. rewrite app_assoc, replay_app. simpl.
  repeat split; auto.
  intros path content I. pose proof (lastWrite_written _ _ _ I) as L.
  destruct (lastWrite path t) as [c|] eqn:LW; [|congruence].
  exists c. split; [reflexivity|]. now rewrite lookup_replay, LW.
Qed.

(** The write of the second file fails, on the demo host: the run throws,
    the settings stay, and the first file stays written. *)
Lemma install_failure_leaves_settings_example :
  exists w',
    installMonolithos (Demo.host Demo.example Demo.snippetWriteFails)
                      (Demo.start Demo.emptyVault)
    = (inl (HostError "EACCES"), w')
    /\ settings w' = DEFAULT_SETTINGS
    /\ saved w' = None
    /\ lookup ".obsidian/plugins/monolithos/main.js" (files (vault w'))
       = Some "main".
Proof.
  assert (D : downloadAndWrite (Demo.host Demo.example Demo.snippetWriteFails)
                               (Demo.start Demo.emptyVault)
              = (inl (HostError "EACCES"),
                 snd (downloadAndWrite (Demo.host Demo.example Demo.snippetWriteFails)
                                       (Demo.start Demo.emptyVault))))
    by (vm_compute; reflexivity).
  destruct (install_failure_leaves_settings _ _ _ _ D)
    as (t & w' & H & _ & _ & S & P & V & _).
  exists w'. split; [exact H|]. split; [exact S|]. split; [exact P|].
  rewrite V. vm_compute. reflexivity.
Defined.

(** C5.  [enableSnippets] never throws.  Hence, once steps 1 to 4 are
    through and neither the progress callback nor the saving of the settings
    throws, [installMonolithos] returns [true] with [installed] set and
    saved, whatever happens in the appearance edit.  In particular, when the
    appearance file does not parse, the edit logs an error, leaves the vault
    as it is, and the run still returns [true]. *)
Theorem appearance_failure_is_not_fatal (host : Host) (w w1 : World) :
  downloadAndWrite host w = (inr tt, w1) ->
  (forall t status, fault host t (Progress status) = None) ->
  (forall t s, fault host t (SaveData s) = None) ->
  (forall w0, exists w0', enableSnippets host w0 = (inr tt, w0'))
  /\ exists w',
      installMonolithos host w = (inr true, w')
      /\ installed (settings w') = true
      /\ saved w' = Some (settings w')
      /\ forall content,
          lookup (appearancePathOf host) (files (vault w1)) = Some content ->
          JSON_parse host content = None ->
          vault w' = vault w1
          /\ exists e, In (ConsoleError enableFailed e) (trace w').
Proof.
  intros D FP FS. split.
  { intros w0. destruct (enableSnippets_run host snippetName w0) as (t & E & _). eauto. }
  destruct (installMonolithos host w) as [r w'] eqn:H.
  destruct (install_run _ _ _ _ _ H) as (r1 & t1 & D1 & C).
  rewrite D in D1. injection D1 as <- ->.
  destruct C as [(err & _ & _ & t0 & F)
                |(te & _ & O & [(err & _ & _ & t0 & F)
                               |[(err & _ & _ & t0 & s & F)|[-> ->]]])];
    try (rewrite ?FP, ?FS in F; discriminate).
  eexists. split; [reflexivity|]. simpl. do 2 (split; [reflexivity|]).
  intros content L P.
  assert (E : editedAppearance host snippetName (replay t1 (vault w)) = inl SyntaxError).
  { unfold editedAppearance, loadedAppearance, vaultExists.
    now rewrite L, P, orb_true_r. }
  destruct O as [(a & pre & E' & _)|[(E' & _)|(e & pre & -> & Q & _)]];
    try congruence.
  destruct (isQuery_quiet _ Q) as (_ & _ & R). split.
  - replay_steps. now rewrite (replay_readOnly _ _ R).
  - exists e. simpl. repeat (rewrite ?in_app_iff; simpl). tauto.
Qed.

(** An appearance file that is no JSON, on the demo host. *)
Lemma appearance_failure_is_not_fatal_example :
  exists w',
    installMonolithos (Demo.host Demo.package Demo.noFault)
                      (Demo.start (Demo.withAppearance "{ theme: "))
    = (inr true, w')
    /\ installed (settings w') = true
    /\ saved w' = Some (settings w')
    /\ exists e, In (ConsoleError enableFailed e) (trace w').
Proof.
  assert (D : downloadAndWrite (Demo.host Demo.package Demo.noFault)
                               (Demo.start (Demo.withAppearance "{ theme: "))
              = (inr tt,
                 snd (downloadAndWrite (Demo.host Demo.package Demo.noFault)
                        (Demo.start (Demo.withAppearance "{ theme: ")))))
    by (vm_compute; reflexivity).
  destruct (appearance_failure_is_not_fatal _ _ _ D
              (fun _ _ => eq_refl) (fun _ _ => eq_refl))
    as (_ & w' & H & I & S & M).
  exists w'. split; [exact H|]. split; [exact I|]. split; [exact S|].
  apply (M "{ theme: "); vm_compute; reflexivity.
Defined.

(** ** The installed flag *)

(** C6.  If a run of [installMonolithos] turns [installed] from [false] to
    [true], then by the time it did so the write loop had gone through every
    entry with a target (each is written, and is in the vault at the end),
    and after that [enableSnippets] had been called and had returned.  The
    edit's outcome is any of the three, an error caught included: the flag
    does not wait for it. *)
Theorem installed_only_after_writes (host : Host) (w w' : World) (r : Result bool) :
  installMonolithos host w = (r, w') ->
  installed (settings w) = false ->
  installed (settings w') = true ->
  exists tw te rest,
    trace w'
    = (trace w ++ preparation host ++ tw
       ++ [Progress "Configuring appearance..."] ++ te ++ rest)%list
    /\ writesOf tw = placed (configDir host) (fileEntries (archive host))
    /\ (forall target content,
          In (target, content) (placed (configDir host) (fileEntries (archive host))) ->
          lookup target (files (vault w')) <> None)
    /\ enableSnippets host
         (advance (preparation host ++ tw ++ [Progress "Configuring appearance..."]) w)
       = (inr tt,
          advance ((preparation host ++ tw ++ [Progress "Configuring appearance..."])
                   ++ te) w)
    /\ te <> []
    /\ editOutcome host snippetName (afterWrites host (vault w)) te
    /\ exists e, rest = [Progress "Installation complete!"; e].
Proof.
  intros H F T. destruct (install_run _ _ _ _ _ H) as (r1 & t1 & D & C).
  destruct (downloadAndWrite_run _ _ _ _ D) as (t1' & A & _ & OK & _).
  assert (t1' = t1) as ->.
  { apply (f_equal trace) in A. simpl in A. now apply app_inv_head in A. }
  destruct r1 as [err|[]].
  { destruct C as [_ ->]. simpl in T. congruence. }
  destruct (OK eq_refl) as (tw & -> & S & W & V).
  destruct C as [(err & _ & -> & _)|(te & E & O & C)]; [simpl in T; congruence|].
  rewrite V in O. destruct (editOutcome_quiet _ _ _ _ O) as (_ & _ & N & _).
  assert (Written : forall rest target content,
            In (target, content)
               (placed (configDir host) (fileEntries (archive host))) ->
            In (target, content)
               (writesOf (((preparation host ++ tw)
                           ++ [Progress "Configuring appearance..."] ++ te) ++ rest))).
  { intros rest target content I. rewrite !writesOf_app, W, !in_app_iff. auto. }
  destruct C as [(err & _ & -> & _)|[(err & _ & -> & _)|[_ ->]]];
    [simpl in T; congruence| |].
  - exists tw, te, [Progress "Installation complete!"; ConsoleError installFailed err].
    split; [cbn [trace withSettings advance]; now rewrite <- !app_assoc|].
    split; [exact W|].
    split; [intros target content I; cbn [vault withSettings advance];
            apply (lookup_written _ content); now apply Written|].
    rewrite <- !app_assoc in E. rewrite <- !app_assoc.
    split; [exact E|]. split; [exact N|]. split; [exact O|]. eauto.
  - exists tw, te, [Progress "Installation complete!";
                    SaveData (markInstalled (settings w))].
    split; [cbn [trace persisted withSettings advance]; now rewrite <- !app_assoc|].
    split; [exact W|].
    split; [intros target content I; cbn [vault persisted withSettings advance];
            apply (lookup_written _ content); now apply Written|].
    rewrite <- !app_assoc in E. rewrite <- !app_assoc.
    split; [exact E|]. split; [exact N|]. split; [exact O|]. eauto.
Qed.

(** On the demo host, with an appearance file that is no JSON: the flag is
    set although the edit failed. *)
Lemma installed_only_after_writes_example :
  exists w' tw te rest,
    installMonolithos (Demo.host Demo.package Demo.noFault)
                      (Demo.start (Demo.withAppearance "{ theme: "))
    = (inr true, w')
    /\ installed (settings w') = true
    /\ trace w'
       = (preparation (Demo.host Demo.package Demo.noFault) ++ tw
          ++ [Progress "Configuring appearance..."] ++ te ++ rest)%list
    /\ writesOf tw
       = [(".obsidian/plugins/monolithos/main.js", "main");
          (".obsidian/snippets/monolithos-core.css", "core")]
    /\ te <> [].
Proof.
  assert (H : installMonolithos (Demo.host Demo.package Demo.noFault)
                                (Demo.start (Demo.withAppearance "{ theme: "))
              = (inr true,
                 snd (installMonolithos (Demo.host Demo.package Demo.noFault)
                        (Demo.start (Demo.withAppearance "{ theme: ")))))
    by (vm_compute; reflexivity).
  assert (I : installed
                (settings
                   (snd (installMonolithos (Demo.host Demo.package Demo.noFault)
                           (Demo.start (Demo.withAppearance "{ theme: ")))))
              = true)
    by (vm_compute; reflexivity).
  destruct (installed_only_after_writes _ _ _ _ H eq_refl I)
    as (tw & te & rest & T & W & _ & _ & N & _).
  eexists _, tw, te, rest. split; [exact H|]. split; [exact I|].
  split; [exact T|]. split; [|exact N].
  rewrite W. vm_compute. reflexivity.
Defined.

(** ** The appearance edit *)

(** Finds the way through conjunctions, disjunctions and existentials
    whose ends are among the hypotheses or hold by computation. *)
Ltac edit_search :=
  match goal with
  | |- _ /\ _ => split; [edit_search | edit_search]
  | |- _ \/ _ => first [ solve [left; edit_search] | solve [right; edit_search] ]
  | |- exists _, _ => eexists; edit_search
  | |- _ =>
      first [ eassumption | reflexivity | exact I
            | rewrite <- ?app_assoc; cbn [app]; eassumption ]
  end.

(** Closes a leaf of the case analysis of [enableSnippets]. *)
Ltac edit_leaf outcome :=
  repeat match goal with
    | H : fault _ _ _ = _ |- _ =>
        progress (rewrite <- ?app_assoc in H; cbn [app] in H)
    end;
  eexists; split;
  [ f_equal; eapply advance_intro;
    [ cbn [vault trace files record withVault]; rewrite <- ?app_assoc; cbn [app];
      reflexivity
    | reflexivity .. ]
  | ];
  subst outcome; cbv beta;
  repeat match goal with H : vaultExists _ _ = _ |- _ => rewrite H end;
  cbn [app answered];
  match goal with
  | |- (exists err pre, ?t = _ /\ _) \/ _ =>
      first
        [ solve [ left; eexists _, (removelast t); split; [reflexivity|];
                  cbn [removelast app answered]; edit_search ]
        | solve [ right; edit_search ] ]
  end.

(** The next call of the run. *)
Ltac next_fault h :=
  match goal with
  | |- context [match fault h ?t ?e with _ => _ end] =>
      destruct (fault h t e) eqn:?; cbn [vault trace files record withVault]
  end.

(** The steps of [enableSnippets] once the document is loaded. *)
Ltac edit_tail h outcome :=
  next_fault h; [edit_leaf outcome|];
  match goal with
  | |- context [vaultExists ?v (snippetsPathOf h)] =>
      destruct (vaultExists v (snippetsPathOf h)) eqn:?;
      cbn [vault trace files record withVault]
  end; [|edit_leaf outcome];
  next_fault h; [edit_leaf outcome|];
  match goal with |- context [ensureList ?a] => destruct (ensureList a) eqn:? end;
    cbn [vault trace files record withVault]; [edit_leaf outcome|];
  match goal with |- context [enableAll ?a ?l] => destruct (enableAll a l) eqn:? end;
    cbn [vault trace files record withVault]; [edit_leaf outcome|];
  next_fault h; edit_leaf outcome.

(** Every way a run of [enableSnippets] can go, call by call: the calls
    [pre] that went through before an error was caught, with what threw; or
    the calls [t] of a run that caught nothing. *)
Lemma enableSnippets_cases (h : Host) (nameOf : string -> string) (w : World) :
  let asked :=
    if vaultExists (vault w) (appearancePathOf h)
    then [Exists (appearancePathOf h); Read (appearancePathOf h)]
    else [Exists (appearancePathOf h)] in
  let loaded := fun start : Appearance =>
    (vaultExists (vault w) (appearancePathOf h) = false /\ start = ofJson (JObj []))
    \/ exists content j,
        lookup (appearancePathOf h) (files (vault w)) = Some content
        /\ JSON_parse h content = Some j
        /\ start = ofJson j in
  exists t,
    enableSnippetsWith h nameOf w = (inr tt, advance t w)
    /\ ((exists err pre,
           t = (pre ++ [ConsoleError enableFailed err])%list
           /\ answered h (trace w) pre
           /\ ((pre = [] /\ fault h (trace w) (Exists (appearancePathOf h)) = Some err)
               \/ (vaultExists (vault w) (appearancePathOf h) = true
                   /\ pre = [Exists (appearancePathOf h)]
                   /\ fault h (trace w ++ pre) (Read (appearancePathOf h)) = Some err)
               \/ (vaultExists (vault w) (appearancePathOf h) = true
                   /\ lookup (appearancePathOf h) (files (vault w)) = None
                   /\ pre = asked
                   /\ err = HostError "ENOENT")
               \/ (exists content,
                     lookup (appearancePathOf h) (files (vault w)) = Some content
                     /\ JSON_parse h content = None
                     /\ pre = asked
                     /\ err = SyntaxError)
               \/ exists start,
                   loaded start
                   /\ ((pre = asked
                        /\ fault h (trace w ++ pre) (Exists (snippetsPathOf h))
                           = Some err)
                       \/ (vaultExists (vault w) (snippetsPathOf h) = true
                           /\ ((pre = (asked ++ [Exists (snippetsPathOf h)])%list
                                /\ fault h (trace w ++ pre) (ListDir (snippetsPathOf h))
                                   = Some err)
                               \/ (pre = (asked ++ [Exists (snippetsPathOf h);
                                                    ListDir (snippetsPathOf h)])%list
                                   /\ (ensureList start = inl err
                                       \/ exists a1,
                                           ensureList start = inr a1
                                           /\ (enableAll a1 (listedNames h nameOf (vault w))
                                               = inl err
                                               \/ exists a2,
                                                   enableAll a1
                                                     (listedNames h nameOf (vault w))
                                                   = inr a2
                                                   /\ fault h (trace w ++ pre)
                                                        (Write (appearancePathOf h)
                                                           (JSON_stringify h
                                                              (document a2) 2))
                                                      = Some err))))))))
        \/ exists start,
            loaded start
            /\ answered h (trace w) t
            /\ ((vaultExists (vault w) (snippetsPathOf h) = false
                 /\ t = (asked ++ [Exists (snippetsPathOf h)])%list)
                \/ (vaultExists (vault w) (snippetsPathOf h) = true
                    /\ exists a1 a2,
                        ensureList start = inr a1
                        /\ enableAll a1 (listedNames h nameOf (vault w)) = inr a2
                        /\ t = (asked ++ [Exists (snippetsPathOf h);
                                          ListDir (snippetsPathOf h);
                                          Write (appearancePathOf h)
                                            (JSON_stringify h (document a2) 2)])%list))).
Proof.
  intros asked loaded. subst asked loaded.
  unfold enableSnippetsWith, tryCatch, adapter_exists, adapter_read, adapter_list,
    adapter_write, console_error, call, bind, ret, gets, modify, throw, liftR,
    listedNames.
  fold (appearancePathOf h). fold (snippetsPathOf h). fold enableFailed.
  match goal with
  | |- exists t, _ = _ /\ @?Q t => remember Q as outcome eqn:Out
  end.
  cbn [vault trace files record withVault].
  next_fault h; [edit_leaf outcome|].
  destruct (vaultExists (vault w) (appearancePathOf h)) eqn:X;
    cbn [vault trace files record withVault].
  - next_fault h; [edit_leaf outcome|].
    destruct (lookup (appearancePathOf h) (files (vault w))) as [content|] eqn:L;
      cbn [vault trace files record withVault]; [|edit_leaf outcome].
    destruct (JSON_parse h content) as [j|] eqn:P;
      cbn [vault trace files record withVault]; [|edit_leaf outcome].
    edit_tail h outcome.
  - edit_tail h outcome.
Qed.

(** The calls of the edit on a host without faults: the appearance file is
    asked for, and read when it is there; the snippets folder is asked for,
    and when it is there it is listed and the document is written. *)
Lemma enableSnippets_faultFree_calls (h : Host) (nameOf : string -> string)
      (w : World) (t : list Event) (start : Appearance) :
  faultFree h ->
  enableSnippetsWith h nameOf w = (inr tt, advance t w) ->
  ((vaultExists (vault w) (appearancePathOf h) = false /\ start = ofJson (JObj []))
   \/ exists content j,
       lookup (appearancePathOf h) (files (vault w)) = Some content
       /\ JSON_parse h content = Some j
       /\ start = ofJson j) ->
  let asked :=
    if vaultExists (vault w) (appearancePathOf h)
    then [Exists (appearancePathOf h); Read (appearancePathOf h)]
    else [Exists (appearancePathOf h)] in
  (vaultExists (vault w) (snippetsPathOf h) = false ->
   t = (asked ++ [Exists (snippetsPathOf h)])%list)
  /\ forall a1 a2,
      vaultExists (vault w) (snippetsPathOf h) = true ->
      ensureList start = inr a1 ->
      enableAll a1 (listedNames h nameOf (vault w)) = inr a2 ->
      t = (asked ++ [Exists (snippetsPathOf h); ListDir (snippetsPathOf h);
                     Write (appearancePathOf h)
                       (JSON_stringify h (document a2) 2)])%list.
Proof.
  intros FF H Start asked. subst asked. revert H.
  unfold enableSnippetsWith, tryCatch, adapter_exists, adapter_read, adapter_list,
    adapter_write, console_error, call, bind, ret, gets, modify, throw, liftR,
    listedNames.
  fold (appearancePathOf h). fold (snippetsPathOf h).
  destruct Start as [[X ->]|(content & j & L & P & ->)].
  - repeat (rewrite ?FF, ?X; cbn [vault trace files record withVault]).
    destruct (vaultExists (vault w) (snippetsPathOf h));
      repeat (rewrite ?FF; cbn [vault trace files record withVault]).
    + intros H. split; [discriminate|]. intros a1 a2 _ E1 E2. revert H.
      rewrite E1, E2. repeat (rewrite ?FF; cbn [vault trace files record withVault]).
      intros H. apply (f_equal snd) in H. apply (f_equal trace) in H.
      cbn [snd vault trace files record withVault advance] in H.
      rewrite <- ?app_assoc in H. simpl in H. now apply app_inv_head in H.
    + intros H. split; [|discriminate]. intros _.
      apply (f_equal snd) in H. apply (f_equal trace) in H.
      cbn [snd vault trace files record withVault advance] in H.
      rewrite <- ?app_assoc in H. simpl in H. now apply app_inv_head in H.
  - assert (X : vaultExists (vault w) (appearancePathOf h) = true)
      by (unfold vaultExists; rewrite L; simpl; apply orb_true_r).
    repeat (rewrite ?FF, ?X, ?L, ?P; cbn [vault trace files record withVault]).
    destruct (vaultExists (vault w) (snippetsPathOf h));
      repeat (rewrite ?FF; cbn [vault trace files record withVault]).
    + intros H. split; [discriminate|]. intros a1 a2 _ E1 E2. revert H.
      rewrite E1, E2. repeat (rewrite ?FF; cbn [vault trace files record withVault]).
      intros H. apply (f_equal snd) in H. apply (f_equal trace) in H.
      cbn [snd vault trace files record withVault advance] in H.
      rewrite <- ?app_assoc in H. simpl in H. now apply app_inv_head in H.
    + intros H. split; [|discriminate]. intros _.
      apply (f_equal snd) in H. apply (f_equal trace) in H.
      cbn [snd vault trace files record withVault advance] in H.
      rewrite <- ?app_assoc in H. simpl in H. now apply app_inv_head in H.
Qed.

(** C7, as the code has it.  [enableSnippets] returns normally, and its
    calls to the vault adapter are these, in this order, each made only when
    the ones before it went through ([answered]): it asks whether the
    appearance file is there; reads it when it is; asks whether the
    snippets folder is there; and when it is, lists it and writes the
    edited document back to the appearance file, printed with an
    indentation of two.  The document it edits is the
    parsed text of the appearance file when there is one, and the empty
    object when there is none.  It catches an error, logs it and leaves the
    vault as it is in these cases only: one of those five calls throws; the
    appearance path is there but cannot be read as a file; its text does
    not parse; or the edit of the document throws.  When it catches
    nothing and there is no snippets folder, it writes nothing.  Hence, on
    a host none of whose calls fails and with a document the edit accepts,
    the appearance file is written exactly when the snippets folder is
    there. *)
Theorem enableSnippets_writes_back (host : Host) (w : World) :
  let asked :=
    if vaultExists (vault w) (appearancePathOf host)
    then [Exists (appearancePathOf host); Read (appearancePathOf host)]
    else [Exists (appearancePathOf host)] in
  let loaded := fun start : Appearance =>
    (vaultExists (vault w) (appearancePathOf host) = false
     /\ start = ofJson (JObj []))
    \/ exists content j,
        lookup (appearancePathOf host) (files (vault w)) = Some content
        /\ JSON_parse host content = Some j
        /\ start = ofJson j in
  exists t,
    enableSnippets host w = (inr tt, advance t w)
    /\ ((exists err pre,
           t = (pre ++ [ConsoleError enableFailed err])%list
           /\ answered host (trace w) pre
           /\ vault (advance t w) = vault w
           /\ ((pre = []
                /\ fault host (trace w) (Exists (appearancePathOf host)) = Some err)
               \/ (vaultExists (vault w) (appearancePathOf host) = true
                   /\ pre = [Exists (appearancePathOf host)]
                   /\ fault host (trace w ++ pre) (Read (appearancePathOf host))
                      = Some err)
               \/ (vaultExists (vault w) (appearancePathOf host) = true
                   /\ lookup (appearancePathOf host) (files (vault w)) = None
                   /\ pre = asked
                   /\ err = HostError "ENOENT")
               \/ (exists content,
                     lookup (appearancePathOf host) (files (vault w)) = Some content
                     /\ JSON_parse host content = None
                     /\ pre = asked
                     /\ err = SyntaxError)
               \/ exists start,
                   loaded start
                   /\ ((pre = asked
                        /\ fault host (trace w ++ pre) (Exists (snippetsPathOf host))
                           = Some err)
                       \/ (vaultExists (vault w) (snippetsPathOf host) = true
                           /\ ((pre = (asked ++ [Exists (snippetsPathOf host)])%list
                                /\ fault host (trace w ++ pre)
                                     (ListDir (snippetsPathOf host)) = Some err)
                               \/ (pre = (asked ++ [Exists (snippetsPathOf host);
                                                    ListDir (snippetsPathOf host)])%list
                                   /\ (ensureList start = inl err
                                       \/ exists a1,
                                           ensureList start = inr a1
                                           /\ (enableAll a1
                                                 (listedNames host snippetName (vault w))
                                               = inl err
                                               \/ exists a2,
                                                   enableAll a1
                                                     (listedNames host snippetName
                                                        (vault w))
                                                   = inr a2
                                                   /\ fault host (trace w ++ pre)
                                                        (Write (appearancePathOf host)
                                                           (JSON_stringify host
                                                              (document a2) 2))
                                                      = Some err))))))))
        \/ exists start,
            loaded start
            /\ answered host (trace w) t
            /\ ((vaultExists (vault w) (snippetsPathOf host) = false
                 /\ t = (asked ++ [Exists (snippetsPathOf host)])%list
                 /\ vault (advance t w) = vault w)
                \/ (vaultExists (vault w) (snippetsPathOf host) = true
                    /\ exists a1 a2,
                        ensureList start = inr a1
                        /\ enableAll a1 (listedNames host snippetName (vault w))
                           = inr a2
                        /\ t = (asked ++ [Exists (snippetsPathOf host);
                                          ListDir (snippetsPathOf host);
                                          Write (appearancePathOf host)
                                            (JSON_stringify host (document a2) 2)])%list
                        /\ vault (advance t w)
                           = vaultWrite (vault w) (appearancePathOf host)
                               (JSON_stringify host (document a2) 2))))
    /\ (faultFree host ->
        forall start,
          loaded start ->
          (vaultExists (vault w) (snippetsPathOf host) = false ->
           t = (asked ++ [Exists (snippetsPathOf host)])%list
           /\ vault (advance t w) = vault w)
          /\ forall a1 a2,
              vaultExists (vault w) (snippetsPathOf host) = true ->
              ensureList start = inr a1 ->
              enableAll a1 (listedNames host snippetName (vault w)) = inr a2 ->
              t = (asked ++ [Exists (snippetsPathOf host);
                             ListDir (snippetsPathOf host);
                             Write (appearancePathOf host)
                               (JSON_stringify host (document a2) 2)])%list
              /\ vault (advance t w)
                 = vaultWrite (vault w) (appearancePathOf host)
                     (JSON_stringify host (document a2) 2)).
Proof.
  intros asked loaded.
  assert (Quiet : forall l, forallb isQuery l = true ->
            vault (advance (asked ++ l)%list w) = vault w).
  { intros l Q. cbn [vault advance]. apply replay_readOnly.
    apply (isQuery_quiet (asked ++ l)%list). rewrite forallb_app, Q. subst asked.
    now destruct (vaultExists (vault w) (appearancePathOf host)). }
  assert (Written : forall l text, forallb isQuery l = true ->
            vault (advance (asked ++ l ++ [Write (appearancePathOf host) text])%list w)
            = vaultWrite (vault w) (appearancePathOf host) text).
  { intros l text Q. cbn [vault advance]. rewrite app_assoc, replay_app.
    change (replay (asked ++ l)%list (vault w))
      with (vault (advance (asked ++ l)%list w)).
    now rewrite (Quiet l Q). }
  pose proof (enableSnippets_cases host snippetName w) as (t & E & O).
  fold asked in O. fold loaded in O.
  exists t. split; [exact E|]. split.
  - destruct O as [(err & pre & -> & Ans & C)|(start & L & Ans & C)].
    + left. exists err, pre. split; [reflexivity|]. split; [exact Ans|].
      split; [|exact C].
      assert (Q : forallb readOnly pre = true).
      { clear - C. subst asked.
        repeat match goal with
          | H : _ \/ _ |- _ => destruct H
          | H : _ /\ _ |- _ => destruct H
          | H : exists _, _ |- _ => destruct H
          end; subst pre;
          try destruct (vaultExists (vault w) (appearancePathOf host)); reflexivity. }
      cbn [vault advance]. rewrite replay_app, (replay_readOnly _ _ Q). reflexivity.
    + right. exists start. split; [exact L|]. split; [exact Ans|].
      destruct C as [(S & ->)|(S & a1 & a2 & E1 & E2 & ->)].
      * left. split; [exact S|]. split; [reflexivity|]. now apply Quiet.
      * right. split; [exact S|]. exists a1, a2. split; [exact E1|].
        split; [exact E2|]. split; [reflexivity|].
        apply (Written [Exists (snippetsPathOf host); ListDir (snippetsPathOf host)]).
        reflexivity.
  - intros FF start Start.
    destruct (enableSnippets_faultFree_calls host snippetName w t start FF E Start)
      as [None_ Some_].
    fold asked in None_, Some_. split.
    + intros S. rewrite (None_ S). split; [reflexivity|]. now apply Quiet.
    + intros a1 a2 S E1 E2. rewrite (Some_ a1 a2 S E1 E2). split; [reflexivity|].
      apply (Written [Exists (snippetsPathOf host); ListDir (snippetsPathOf host)]).
      reflexivity.
Qed.

(** C7 as stated fails in a vault without a snippets folder: the edit
    reads the appearance file, catches no error, and writes nothing; the
    file keeps its text, which here is not indented. *)
Lemma enableSnippets_without_snippets_folder :
  let host := Demo.host Demo.package Demo.noFault in
  let w := Demo.start (Demo.withAppearance (Demo.print 0 0 Demo.themed)) in
  JSON_parse host (Demo.print 0 0 Demo.themed) = Some Demo.themed
  /\ exists w',
      enableSnippets host w = (inr tt, w')
      /\ trace w' = [Exists ".obsidian/appearance.json";
                     Read ".obsidian/appearance.json";
                     Exists ".obsidian/snippets"]
      /\ vault w' = vault w
      /\ lookup ".obsidian/appearance.json" (files (vault w'))
         <> Some (JSON_stringify host Demo.themed 2).
Proof.
  split; [reflexivity|]. eexists. split; [vm_compute; reflexivity|].
  split; [reflexivity|]. split; [reflexivity|]. vm_compute. discriminate.
Qed.

(** C10.  [enableSnippets] either leaves the vault as it is, or rewrites the
    appearance file and nothing else.  The document it writes is the one it
    started from, except that the enabled-snippets list has some entries
    appended: the earlier entries are all there, in their order, before the
    new ones, and every other property is as it was, in its place. *)
Theorem enableSnippets_only_appends (host : Host) (w : World) :
  exists t,
    enableSnippets host w = (inr tt, advance t w)
    /\ (vault (advance t w) = vault w
        \/ exists j a added,
            ((vaultExists (vault w) (appearancePathOf host) = false /\ j = JObj [])
             \/ exists content,
                 lookup (appearancePathOf host) (files (vault w)) = Some content
                 /\ JSON_parse host content = Some j)
            /\ vault (advance t w)
               = vaultWrite (vault w) (appearancePathOf host)
                   (JSON_stringify host (document a) 2)
            /\ enabledOf (document a) = (enabledOf j ++ added)%list
            /\ (document a = j
                \/ exists props,
                    j = JObj props
                    /\ document a
                       = JObj (update listKey (JArr (enabledOf j ++ added)) props))
            /\ otherProperties (document a) = otherProperties j
            /\ forall k, k <> listKey -> getProp (document a) k = getProp j k).
Proof.
  destruct (enableSnippets_run host snippetName w) as (t & E & O).
  exists t. split; [exact E|].
  destruct (editOutcome_quiet _ _ _ _ O) as (_ & _ & _ & [V|(a & Ed & V)]);
    [left; exact V|].
  right. apply editedAppearance_some in Ed as (start & a1 & L & _ & E1 & E2).
  assert (exists j, start = ofJson j
                    /\ ((vaultExists (vault w) (appearancePathOf host) = false
                         /\ j = JObj [])
                        \/ exists content,
                            lookup (appearancePathOf host) (files (vault w))
                            = Some content
                            /\ JSON_parse host content = Some j)) as (j & -> & Lj).
  { apply loadedAppearance_ok in L as [[X ->]|(content & j & X & P & ->)].
    - exists (JObj []). auto.
    - exists j. split; [reflexivity|]. right. now exists content. }
  destruct (edit_spec _ _ _ _ E1 E2) as (added & En & _ & Sh & _).
  exists j, a, added. repeat split; auto.
  - destruct Sh as [->|(props & -> & ->)]; [reflexivity|].
    apply otherProperties_update.
  - intros k K. destruct Sh as [->|(props & -> & ->)]; [reflexivity|].
    simpl. now rewrite lookup_update_neq.
Qed.

(** ** Installing twice *)

(** C4, as the code has it.  When no host call fails, and the codec reads
    back the document that the first run's edit arrives at, a second run
    with the same archive leaves every file with the content it had after
    the first, the same folders, and the same enabled-snippets list.  The
    runs add no duplicate to that list: if it had none before, it has none
    after; duplicates that were there stay. *)
Theorem install_twice (host : Host) (w : World) :
  faultFree host ->
  (forall a,
     editedAppearance host snippetName (afterWrites host (vault w)) = inr (Some a) ->
     JSON_parse host (JSON_stringify host (document a) 2) = Some (document a)) ->
  exists w1 w2,
    installMonolithos host w = (inr true, w1)
    /\ installMonolithos host w1 = (inr true, w2)
    /\ (forall path,
          lookup path (files (vault w2)) = lookup path (files (vault w1)))
    /\ folders (vault w2) = folders (vault w1)
    /\ enabledSnippets host (vault w2) = enabledSnippets host (vault w1)
    /\ (NoDup (enabledSnippets host (vault w)) ->
        NoDup (enabledSnippets host (vault w1))
        /\ NoDup (enabledSnippets host (vault w2))).
Proof.
  intros FF RT.
  destruct (install_faultFree_vault host snippetName w FF) as (w1 & H1 & V1).
  destruct (install_faultFree_vault host snippetName w1 FF) as (w2 & H2 & V2).
  exists w1, w2. split; [exact H1|]. split; [exact H2|].
  destruct (afterInstall_again host snippetName (vault w) RT) as [F L].
  rewrite V2, V1.
  assert (S : enabledSnippets host
                (afterEdit host snippetName
                   (afterWrites host
                      (afterEdit host snippetName (afterWrites host (vault w)))))
              = enabledSnippets host
                  (afterEdit host snippetName (afterWrites host (vault w))))
    by (unfold enabledSnippets; now rewrite L).
  repeat split; auto.
  - now apply afterInstall_noDup.
  - rewrite S. now apply afterInstall_noDup.
Qed.

(** Two runs on the demo host, from an appearance file with a theme. *)
Lemma install_twice_example :
  exists w1 w2,
    installMonolithos (Demo.host Demo.package Demo.noFault)
      (Demo.start (Demo.withAppearance (Demo.print 2 0 Demo.themed)))
    = (inr true, w1)
    /\ installMonolithos (Demo.host Demo.package Demo.noFault) w1 = (inr true, w2)
    /\ (forall path,
          lookup path (files (vault w2)) = lookup path (files (vault w1)))
    /\ enabledSnippets (Demo.host Demo.package Demo.noFault) (vault w2)
       = enabledSnippets (Demo.host Demo.package Demo.noFault) (vault w1).
Proof.
  destruct (install_twice (Demo.host Demo.package Demo.noFault)
              (Demo.start (Demo.withAppearance (Demo.print 2 0 Demo.themed)))
              (fun _ _ => eq_refl))
    as (w1 & w2 & H1 & H2 & L & _ & E & _).
  - intros a Ea. vm_compute in Ea. injection Ea as <-. vm_compute. reflexivity.
  - exists w1, w2. split; [exact H1|]. split; [exact H2|]. split; [exact L | exact E].
Defined.

(** C4 as stated fails for a vault whose list has a duplicate already: the
    runs leave it there. *)
Lemma install_twice_keeps_duplicates :
  let host := Demo.host Demo.example Demo.noFault in
  let w := Demo.start (Demo.withAppearance (Demo.print 2 0 Demo.twice)) in
  enabledSnippets host (vault w) = [JStr "a"; JStr "a"]
  /\ exists w1 w2,
      installMonolithos host w = (inr true, w1)
      /\ installMonolithos host w1 = (inr true, w2)
      /\ enabledSnippets host (vault w1) = [JStr "a"; JStr "a"]
      /\ enabledSnippets host (vault w2) = [JStr "a"; JStr "a"]
      /\ ~ NoDup (enabledSnippets host (vault w2)).
Proof.
  split; [reflexivity|]. eexists _, _.
  split; [vm_compute; reflexivity|]. split; [vm_compute; reflexivity|].
  split; [reflexivity|]. split; [reflexivity|].
  intros N. vm_compute in N. inversion N as [|x l NI _]. apply NI. now left.
Qed.

(** ** Further properties: what a run may touch *)

Lemma advance_inj (t t' : list Event) (w : World) :
  advance t w = advance t' w -> t = t'.
Proof.
  intros E. apply (f_equal trace) in E. cbn [trace advance] in E.
  now apply app_inv_head in E.
Qed.

Lemma targetPath_under (cfg path target : string) :
  targetPath cfg path = Some target -> underInstallFolders cfg target = true.
Proof.
  intros T. destruct (targetPath_spec cfg path) as (A & B & C).
  unfold underInstallFolders. apply orb_true_iff.
  destruct (includes path "plugins/monolithos/") eqn:IA.
  - destruct (A eq_refl) as (suffix & (pre & rest & _ & -> & _) & T').
    rewrite T in T'. injection T' as ->. left. apply startsWith_append.
    exists rest. now rewrite append_assoc.
  - destruct (includes path "snippets/") eqn:IB.
    + destruct (B eq_refl eq_refl) as (suffix & (pre & rest & _ & -> & _) & T').
      rewrite T in T'. injection T' as ->. right. apply startsWith_append.
      exists rest. now rewrite append_assoc.
    + rewrite (C eq_refl eq_refl) in T. discriminate.
Qed.

(** Closes [w' = advance ?t w], reading [?t] off the trace of [w']. *)
Ltac by_trace :=
  eapply advance_intro;
  [ simpl; rewrite <- ?app_assoc; simpl; reflexivity | reflexivity .. ].

Lemma readOnly_guarded (v : Vault) (t : list Event) :
  forallb readOnly t = true -> mkdirGuarded v t.
Proof.
  intros O t1 path t2 ->. rewrite forallb_app in O. simpl in O.
  rewrite andb_false_r in O. discriminate.
Qed.

Lemma noMkdir_guarded (v : Vault) (t : list Event) :
  (forall path, ~ In (Mkdir path) t) -> mkdirGuarded v t.
Proof.
  intros N t1 path t2 ->. destruct (N path). apply in_or_app. right. now left.
Qed.

Lemma guarded_app (v : Vault) (ta tb : list Event) :
  mkdirGuarded v ta -> mkdirGuarded (replay ta v) tb -> mkdirGuarded v (ta ++ tb).
Proof.
  intros A B t1 path t2 E. apply app_eq_app in E as (l & [[-> E]|[-> ->]]).
  - destruct l as [|e l]; simpl in E.
    + specialize (B [] path t2). rewrite app_nil_r in B. apply B. now rewrite <- E.
    + injection E as <- ->. now apply (A t1 path l).
  - rewrite replay_app. now apply (B l path t2).
Qed.

Section Calls.

Variable h : Host.
Variable nameOf : string -> string.

Lemma writeFile_calls (target content : string) (w : World)
      (r : Result unit) (w' : World) :
  underInstallFolders (configDir h) target = true ->
  writeFile h target content w = (r, w') ->
  exists t,
    w' = advance t w /\ Forall (installCall h) t /\ mkdirGuarded (vault w) t.
Proof.
  intros U.
  assert (Mk : installCall h (Mkdir (dirOf target))) by (now exists target).
  unfold writeFile, adapter_exists, adapter_mkdir, adapter_writeBinary,
    call, bind, ret, gets, modify. fold (dirOf target). simpl.
  destruct (nonEmpty (dirOf target)); simpl;
    repeat match goal with
      | |- context [fault h ?t ?e] => destruct (fault h t e) eqn:?; simpl
      | |- context [vaultExists ?v ?p] => destruct (vaultExists v p) eqn:?; simpl
      end;
    intros H; injection H as <- <-;
    first [ exists []; rewrite advance_nil; split; [reflexivity|];
            split; [constructor | now apply readOnly_guarded]
          | eexists; split; [by_trace|]; split; [repeat constructor; auto|];
            intros t1 path t2 E;
            destruct t1 as [|e1 [|e2 [|e3 [|e4 t1]]]]; inversion E; subst; simpl; auto ].
Qed.

Lemma writeFiles_calls (collected : list (string * string)) (w : World)
      (r : Result unit) (w' : World) :
  writeFiles h collected w = (r, w') ->
  exists t,
    w' = advance t w /\ Forall (installCall h) t /\ mkdirGuarded (vault w) t.
Proof.
  revert w; induction collected as [|[path content] rest IH]; intros w; simpl.
  - unfold ret. intros H; injection H as <- <-. exists []. rewrite advance_nil.
    split; [reflexivity|]. split; [constructor | now apply readOnly_guarded].
  - destruct (targetPath (configDir h) path) as [target|] eqn:T; [|apply IH].
    intros H. apply bind_run in H as [(a & w1 & H1 & H2)|(err & H1 & ->)];
      apply (writeFile_calls _ _ _ _ _ (targetPath_under _ _ _ T)) in H1
        as (t1 & -> & F1 & G1).
    + apply IH in H2 as (t2 & -> & F2 & G2). exists (t1 ++ t2)%list.
      rewrite advance_app. split; [reflexivity|].
      split; [apply Forall_app; auto | now apply guarded_app].
    + now exists t1.
Qed.

Lemma readEntries_calls (entries : list (string * JSZipEntry)) (w : World)
      (r : Result (list (string * string))) (w' : World) :
  readEntries h entries w = (r, w') ->
  exists t, w' = advance t w /\ forallb isReadEntry t = true.
Proof.
  revert w r w'; induction entries as [|[path entry] rest IH]; intros w r w'; simpl.
  - unfold ret. intros H; injection H as <- <-. exists []. now rewrite advance_nil.
  - destruct (dir entry); [apply IH|].
    unfold entryAsync, call, bind at 1 2, ret.
    destruct (fault h (trace w) (ReadEntry path)) eqn:F.
    + intros H; injection H as <- <-. exists []. now rewrite advance_nil.
    + intros H. apply bind_run in H as [(a & w1 & H1 & H2)|(err & H1 & ->)];
        apply IH in H1 as (t & -> & R).
      * unfold ret in H2. injection H2 as <- <-.
        exists (ReadEntry path :: t). split; [same_world | exact R].
      * exists (ReadEntry path :: t). split; [same_world | exact R].
Qed.

Lemma isReadEntry_calls (t : list Event) :
  forallb isReadEntry t = true ->
  Forall (installCall h) t /\ forallb readOnly t = true.
Proof.
  induction t as [|e t IH]; simpl; [auto|]. rewrite andb_true_iff. intros [E R].
  destruct (IH R). destruct e; try discriminate. split; [constructor|]; simpl; auto.
Qed.

Lemma progressOf_In (status : string) (t : list Event) :
  In (Progress status) t <-> In status (progressOf t).
Proof.
  unfold progressOf. rewrite in_flat_map. split.
  - intros I. exists (Progress status). simpl. auto.
  - intros (e & I & S). destruct e; simpl in S; try tauto. now destruct S as [<-|[]].
Qed.

(** Until the write loop starts, a run only reads; the statuses it reports
    are the first three. *)
Lemma downloadAndWrite_calls (w : World) (r : Result unit) (w' : World) :
  downloadAndWrite h w = (r, w') ->
  exists t,
    w' = advance t w
    /\ Forall (installCall h) t
    /\ (forallb readOnly t = true \/ In (Progress "Installing files...") t)
    /\ incl (progressOf t)
         ["Downloading Monolithos..."; "Extracting files..."; "Installing files..."]
    /\ mkdirGuarded (vault w) t.
Proof.
  cut (downloadAndWrite h w = (r, w') ->
       exists t,
         w' = advance t w
         /\ Forall (installCall h) t
         /\ (forallb readOnly t = true \/ In (Progress "Installing files...") t)
         /\ incl (progressOf t)
              ["Downloading Monolithos..."; "Extracting files..."; "Installing files..."]
         /\ (forallb readOnly t = true \/ mkdirGuarded (vault w) t)).
  { intros Cut H. destruct (Cut H) as (t & E & C & P & S & [O|G]);
      exists t; repeat split; auto. now apply readOnly_guarded. }
  unfold downloadAndWrite, onProgress, requestUrl, loadAsync, call, bind, ret.
  destruct (fault h (trace w) (Progress _)) eqn:F1.
  { intros H; injection H as <- <-. exists []. rewrite advance_nil.
    repeat split; auto. intros ? []. }
  destruct (fault h _ (Request _ _ _)) eqn:F2.
  { intros H; injection H as <- <-. eexists. split; [by_trace|].
    split; [repeat constructor | split; [left; reflexivity|split; [|left; reflexivity]]].
    simpl. intros ? [<-|[]]; simpl; auto. }
  destruct (fault h _ (Progress "Extracting files...")) eqn:F3.
  { intros H; injection H as <- <-. eexists. split; [by_trace|].
    split; [repeat constructor; auto | split; [left; reflexivity|split; [|left; reflexivity]]].
    simpl. intros ? [<-|[]]; simpl; auto. }
  destruct (fault h _ (LoadZip _)) eqn:F4.
  { intros H; injection H as <- <-. eexists. split; [by_trace|].
    split; [repeat constructor; auto | split; [left; reflexivity|split; [|left; reflexivity]]].
    simpl. intros ? [<-|[<-|[]]]; simpl; auto. }
  match goal with |- context [readEntries h ?es ?w0] =>
    destruct (readEntries h es w0) as [[err|collected] w1] eqn:R end;
    pose proof (readEntries_run _ _ _ _ _ R) as (t0 & E0 & _ & P0 & _);
    apply readEntries_calls in R as (t1 & -> & R1);
    apply advance_inj in E0 as <-;
    destruct (isReadEntry_calls _ R1) as [C1 O1].
  { intros H; injection H as <- <-.
    exists ([Progress "Downloading Monolithos..."; Request "GET" PLUGIN_DOWNLOAD_URL "";
             Progress "Extracting files...";
             LoadZip (server h "GET" PLUGIN_DOWNLOAD_URL "")] ++ t1)%list.
    split; [same_world|]. split; [|split; [|split]].
    - repeat (constructor; [simpl; auto|]). exact C1.
    - left. simpl. exact O1.
    - simpl. rewrite P0. intros ? [<-|[<-|[]]]; simpl; auto.
    - left. simpl. exact O1. }
  destruct (fault h _ (Progress "Installing files...")) eqn:F5.
  { intros H; injection H as <- <-.
    exists ([Progress "Downloading Monolithos..."; Request "GET" PLUGIN_DOWNLOAD_URL "";
             Progress "Extracting files...";
             LoadZip (server h "GET" PLUGIN_DOWNLOAD_URL "")] ++ t1)%list.
    split; [same_world|]. split; [|split; [|split]].
    - repeat (constructor; [simpl; auto|]). exact C1.
    - left. simpl. exact O1.
    - simpl. rewrite P0. intros ? [<-|[<-|[]]]; simpl; auto.
    - left. simpl. exact O1. }
  intros H. pose proof (writeFiles_run _ _ _ _ _ H) as (tw0 & Ew & Sw & _).
  apply writeFiles_calls in H as (tw & -> & Cw & Gw).
  apply advance_inj in Ew as <-. apply isWriteStep_progress in Sw.
  exists (([Progress "Downloading Monolithos..."; Request "GET" PLUGIN_DOWNLOAD_URL "";
            Progress "Extracting files...";
            LoadZip (server h "GET" PLUGIN_DOWNLOAD_URL "")] ++ t1)
          ++ [Progress "Installing files..."] ++ tw)%list.
  split; [|split; [|split; [|split]]].
  - unfold advance, record; simpl. rewrite <- ?app_assoc; simpl.
    rewrite <- ?app_assoc; simpl.
    f_equal. replay_steps. now rewrite (replay_readOnly _ _ O1).
  - apply Forall_app. split.
    + repeat (constructor; [simpl; auto|]). exact C1.
    + constructor; [exact I | exact Cw].
  - right. rewrite !in_app_iff. simpl. auto.
  - rewrite !progressOf_app. simpl. rewrite P0, Sw. simpl.
    intros ? [<-|[<-|[<-|[]]]]; simpl; auto.
  - right. simpl in Gw. apply guarded_app; [apply readOnly_guarded; exact O1|].
    apply guarded_app; [now apply readOnly_guarded|].
    rewrite !replay_app. simpl. rewrite (replay_readOnly _ _ O1) in *. exact Gw.
Qed.

Ltac split_cases h :=
  repeat match goal with
    | |- context [fault h ?t ?e] => destruct (fault h t e) eqn:?; simpl
    | |- context [vaultExists ?v ?p] => destruct (vaultExists v p) eqn:?; simpl
    | |- context [lookup ?p (files ?v)] => destruct (lookup p (files v)) eqn:?; simpl
    | |- context [JSON_parse h ?c] => destruct (JSON_parse h c) eqn:?; simpl
    | |- context [ensureList ?a] => destruct (ensureList a) eqn:?; simpl
    | |- context [enableAll ?a ?l] => destruct (enableAll a l) eqn:?; simpl
    end.

Lemma enableSnippets_calls (w : World) :
  exists t,
    enableSnippetsWith h nameOf w = (inr tt, advance t w)
    /\ Forall (installCall h) t
    /\ progressOf t = []
    /\ forall path, ~ In (Mkdir path) t.
Proof.
  unfold enableSnippetsWith, tryCatch, adapter_exists, adapter_read, adapter_list,
    adapter_write, console_error, call, bind, ret, gets, modify, throw, liftR.
  fold (appearancePathOf h). fold (snippetsPathOf h). simpl.
  split_cases h;
    (eexists; split; [f_equal; by_trace|];
     split; [repeat constructor; auto|];
     split; [reflexivity|];
     intros path I; simpl in I;
     repeat (destruct I as [I|I]; [discriminate I|]); exact I).
Qed.

(** A run of [installMonolithos], whatever its outcome: the calls it made,
    and what they tell about the state it leaves. *)
Lemma install_shape (w : World) (r : Result bool) (w' : World) :
  installMonolithosWith h nameOf w = (r, w') ->
  exists t,
    trace w' = (trace w ++ t)%list
    /\ vault w' = replay t (vault w)
    /\ Forall (installCall h) t
    /\ mkdirGuarded (vault w) t
    /\ (~ In (Progress "Installing files...") t ->
        forallb readOnly t = true /\ settings w' = settings w
        /\ saved w' = saved w /\ exists err, r = inl err)
    /\ (settings w' = settings w \/ settings w' = markInstalled (settings w))
    /\ (forall err, r = inl err ->
         saved w' = saved w
         /\ exists t0, t = (t0 ++ [ConsoleError installFailed err])%list)
    /\ (In (Progress "Installation complete!") t ->
        settings w' = markInstalled (settings w)
        /\ (forall target content,
              In (target, content) (placed (configDir h) (fileEntries (archive h))) ->
              lookup target (files (vault w')) <> None)
        /\ ((r = inr true /\ saved w' = Some (settings w'))
            \/ exists err t0 s,
                r = inl err /\ saved w' = saved w
                /\ fault h t0 (SaveData s) = Some err)).
Proof.
  intros H. apply install_run in H as (r1 & t1 & D & C).
  destruct (downloadAndWrite_calls _ _ _ D) as (t1' & E1 & C1 & P1 & S1 & G1).
  apply advance_inj in E1 as <-.
  assert (Guard : forall tail, (forall path, ~ In (Mkdir path) tail) ->
            mkdirGuarded (vault w) (t1 ++ tail))
    by (intros tail N; apply guarded_app; [exact G1 | now apply noMkdir_guarded]).
  assert (NoMk : forall (e : Error) path, ~ In (Mkdir path) [ConsoleError installFailed e])
    by (intros e path [I|[]]; discriminate I).
  assert (No1 : ~ In (Progress "Installation complete!") t1).
  { intros I. apply progressOf_In in I. apply S1 in I. simpl in I.
    repeat destruct I as [I|I]; try discriminate I. exact I. }
  destruct r1 as [err|[]].
  - destruct C as [-> ->]. eexists. split; [reflexivity|]. split; [reflexivity|].
    split; [apply Forall_app; split; [exact C1 | repeat constructor]|].
    split; [apply Guard, NoMk|].
    split; [|split; [now left|split]].
    + intros N. destruct P1 as [O|I]; [|exfalso; apply N; apply in_or_app; now left].
      rewrite forallb_app, O. simpl. eauto.
    + intros ? [= <-]. cbn [saved settings advance]. eauto.
    + rewrite in_app_iff. simpl. intros [I|[I|[]]]; [now destruct No1 | discriminate I].
  - destruct (downloadAndWrite_run _ _ _ _ D) as (t1' & E & _ & OK & _).
    apply advance_inj in E as <-. destruct (OK eq_refl) as (tw & T1 & _ & W & _).
    assert (Here : In (Progress "Installing files...") t1).
    { rewrite T1. unfold preparation. rewrite !in_app_iff. simpl. auto. }
    assert (Placed : forall tail target content,
              In (target, content) (placed (configDir h) (fileEntries (archive h))) ->
              lookup target (files (replay (t1 ++ tail) (vault w))) <> None).
    { intros tail target content I. apply (lookup_written _ content).
      rewrite <- W in I. rewrite T1, !writesOf_app, !in_app_iff. auto. }
    destruct C as [(err & -> & -> & _)|(te & E & _ & C)].
    { eexists. split; [reflexivity|]. split; [reflexivity|].
      split; [apply Forall_app; split; [exact C1 | repeat constructor]|].
      split; [apply Guard, NoMk|].
      split; [|split; [now left|split]].
      - intros N. exfalso. apply N. apply in_or_app. now left.
      - intros ? [= <-]. cbn [saved settings advance]. eauto.
      - rewrite in_app_iff. simpl. intros [I|[I|[]]]; [now destruct No1 | discriminate I]. }
    destruct (enableSnippets_calls
                (advance (t1 ++ [Progress "Configuring appearance..."]) w))
      as (te' & E' & Ce & Pe & Me).
    assert (Same : advance ((t1 ++ [Progress "Configuring appearance..."]) ++ te) w
                   = advance ((t1 ++ [Progress "Configuring appearance..."]) ++ te') w)
      by (rewrite <- (advance_app _ te'); congruence).
    apply advance_inj in Same. apply app_inv_head in Same as <-. clear E'.
    assert (Noe : ~ In (Progress "Installation complete!") te)
      by (intros I; apply progressOf_In in I; now rewrite Pe in I).
    assert (Calls : forall tail, Forall (installCall h) tail ->
              Forall (installCall h)
                ((t1 ++ [Progress "Configuring appearance..."] ++ te) ++ tail)).
    { intros tail Ct. rewrite !Forall_app. repeat split; auto. repeat constructor. }
    assert (Started : forall tail,
              ~ In (Progress "Installing files...")
                  ((t1 ++ [Progress "Configuring appearance..."] ++ te) ++ tail) ->
              False).
    { intros tail N. apply N. rewrite !in_app_iff. auto. }
    assert (Guards : forall tail, (forall path, ~ In (Mkdir path) tail) ->
              mkdirGuarded (vault w)
                ((t1 ++ [Progress "Configuring appearance..."] ++ te) ++ tail)).
    { intros tail N. rewrite <- app_assoc. apply Guard. intros path.
      pose proof (Me path). pose proof (N path).
      rewrite !in_app_iff. simpl. intuition discriminate. }
    destruct C as [(err & -> & -> & _)|[(err & -> & -> & t0 & s & F)|[-> ->]]].
    + eexists. split; [reflexivity|]. split; [reflexivity|].
      split; [apply Calls; repeat constructor|].
      split; [apply Guards; intros path I; simpl in I;
              repeat (destruct I as [I|I]; [discriminate I|]); exact I|].
      split; [intros N; now destruct (Started _ N)|]. split; [now left|]. split.
      * intros ? [= <-]. cbn [saved settings advance]. eauto.
      * rewrite !in_app_iff. simpl.
        intros [[I|[[I|[]]|I]]|[I|[]]]; try discriminate I; tauto.
    + exists ((t1 ++ [Progress "Configuring appearance..."] ++ te)
              ++ [Progress "Installation complete!"; ConsoleError installFailed err])%list.
      split; [reflexivity|]. split; [reflexivity|].
      split; [apply Calls; repeat constructor|].
      split; [apply Guards; intros path I; simpl in I;
              repeat (destruct I as [I|I]; [discriminate I|]); exact I|].
      split; [intros N; now destruct (Started _ N)|]. split; [now right|]. split.
      * intros ? [= <-]. cbn [saved settings withSettings advance].
        split; [reflexivity|].
        exists ((t1 ++ [Progress "Configuring appearance..."] ++ te)
                ++ [Progress "Installation complete!"])%list.
        exact (app_assoc _ [_] [_]).
      * intros _. split; [reflexivity|]. split.
        -- intros target content I. cbn [vault withSettings advance].
           rewrite <- (app_assoc t1). now apply (Placed _ _ content).
        -- right. exists err, t0, s. auto.
    + eexists. split; [cbn [trace persisted withSettings advance]; reflexivity|].
      split; [reflexivity|].
      split; [apply Calls; repeat constructor|].
      split; [apply Guards; intros path I; simpl in I;
              repeat (destruct I as [I|I]; [discriminate I|]); exact I|].
      split; [intros N; now destruct (Started _ N)|]. split; [now right|].
      split; [discriminate|].
      intros _. split; [reflexivity|]. split.
      * intros target content I. cbn [vault persisted withSettings advance].
        rewrite <- (app_assoc t1). now apply (Placed _ _ content).
      * left. auto.
Qed.

End Calls.

(** Calls confined to the install folders and the appearance file leave
    every other file as it is. *)
Lemma replay_outside (h : Host) (t : list Event) (v : Vault) (path : string) :
  Forall (installCall h) t ->
  underInstallFolders (configDir h) path = false ->
  path <> appearancePathOf h ->
  lookup path (files (replay t v)) = lookup path (files v).
Proof.
  intros C U N. revert v. induction C as [|e t Ce Ct IH]; intros v; [reflexivity|].
  rewrite replay_cons, IH. destruct e; simpl in *; try reflexivity.
  - apply lookup_update_neq. congruence.
  - apply lookup_update_neq. congruence.
Qed.

(** X1.  Whatever the outcome of a run of [installMonolithos], the only
    request it sends is the download ([GET] on the download address, with no
    body); every binary write goes to a path that starts with
    [<configDir>/plugins/monolithos/] or [<configDir>/snippets/], every
    folder it makes is the folder of such a path, and the only text file it
    reads or writes is [<configDir>/appearance.json].  So a file whose path
    is none of these has after the run the content it had before; and the
    license key in the settings is not touched.  (Paths are taken as they
    are written: the vault of the model resolves no [..].) *)
Theorem install_confined (host : Host) (w w' : World) (r : Result bool) :
  installMonolithos host w = (r, w') ->
  exists t,
    trace w' = (trace w ++ t)%list
    /\ Forall (installCall host) t
    /\ (forall path,
          underInstallFolders (configDir host) path = false ->
          path <> appearancePathOf host ->
          lookup path (files (vault w')) = lookup path (files (vault w)))
    /\ licenseKey (settings w') = licenseKey (settings w).
Proof.
  intros H. apply install_shape in H as (t & T & V & C & _ & _ & S & _).
  exists t. split; [exact T|]. split; [exact C|]. split.
  - intros path U N. rewrite V. now apply (replay_outside host).
  - now destruct S as [-> | ->].
Qed.

(** On the demo host, a note in the vault is still there after the run. *)
Lemma install_confined_example :
  let host := Demo.host Demo.package Demo.noFault in
  let w := Demo.start {| files := [("notes/todo.md", "buy milk")];
                         folders := [".obsidian"] |} in
  lookup "notes/todo.md" (files (vault (snd (installMonolithos host w))))
  = Some "buy milk".
Proof.
  intros host w.
  destruct (install_confined host w _ _ (surjective_pairing (installMonolithos host w)))
    as (t & _ & _ & Files & _).
  rewrite (Files "notes/todo.md"); [reflexivity | reflexivity | discriminate].
Defined.

(** X2.  A run of [installMonolithos] that has not reported the status
    ["Installing files..."] has thrown, and it has changed nothing: the vault
    and the settings, in memory and as saved, are what they were. *)
Theorem install_fails_early_untouched (host : Host) (w w' : World)
        (r : Result bool) (t : list Event) :
  installMonolithos host w = (r, w') ->
  trace w' = (trace w ++ t)%list ->
  ~ In (Progress "Installing files...") t ->
  (exists err, r = inl err)
  /\ vault w' = vault w /\ settings w' = settings w /\ saved w' = saved w.
Proof.
  intros H T N. apply install_shape in H as (t' & T' & V & _ & _ & Early & _).
  rewrite T' in T. apply app_inv_head in T as ->.
  destruct (Early N) as (O & S & P & E). repeat split; auto.
  rewrite V. now apply replay_readOnly.
Qed.

(** Offline, on the demo host: the run throws and the vault is untouched. *)
Lemma install_fails_early_untouched_example :
  let host := Demo.host Demo.package Demo.offline in
  let w := Demo.start Demo.emptyVault in
  (exists err, fst (installMonolithos host w) = inl err)
  /\ vault (snd (installMonolithos host w)) = Demo.emptyVault.
Proof.
  intros host w.
  assert (T : trace (snd (installMonolithos host w))
              = (trace w ++ [Progress "Downloading Monolithos...";
                             ConsoleError installFailed
                               (HostError "net::ERR_CONNECTION_REFUSED")])%list)
    by (vm_compute; reflexivity).
  destruct (install_fails_early_untouched host w _ _ _
              (surjective_pairing (installMonolithos host w)) T)
    as (E & V & _).
  - simpl. intros [I|[I|[]]]; discriminate I.
  - split; [exact E | exact V].
Defined.

(** X3.  When a run of [installMonolithos] throws after it has reported
    ["Installation complete!"], the error is that of saving the settings.
    The settings in memory then say [installed], version ["1.0.0"], while
    the saved ones are what they were, so that loading the settings anew
    gives back the earlier state; every file of the archive that has a
    target is in the vault. *)
Theorem install_save_failure (host : Host) (w w' : World) (err : Error)
        (t : list Event) :
  installMonolithos host w = (inl err, w') ->
  trace w' = (trace w ++ t)%list ->
  In (Progress "Installation complete!") t ->
  (exists t0 s, fault host t0 (SaveData s) = Some err)
  /\ settings w' = markInstalled (settings w)
  /\ saved w' = saved w
  /\ settings (snd (loadSettings w')) = assignSettings DEFAULT_SETTINGS (saved w)
  /\ forall target content,
      In (target, content) (placed (configDir host) (fileEntries (archive host))) ->
      lookup target (files (vault w')) <> None.
Proof.
  intros H T I. apply install_shape in H as (t' & T' & _ & _ & _ & _ & _ & _ & Done).
  rewrite T' in T. apply app_inv_head in T as ->.
  destruct (Done I) as (S & P & [[E _]|(e & t0 & s & E & Sv & F)]); [discriminate|].
  injection E as <-. split; [eauto|]. split; [exact S|]. split; [exact Sv|].
  split; [|exact P]. unfold loadSettings, modify. cbn [snd settings]. now rewrite Sv.
Qed.

(** The vault refuses the settings file, on the demo host: the run throws,
    the plugin says [installed] until it is loaded anew, and the plugin file
    is in the vault. *)
Lemma install_save_failure_example :
  let host := DemoMore.host Demo.package DemoMore.saveFails in
  let w := Demo.start Demo.emptyVault in
  let w' := snd (installMonolithos host w) in
  fst (installMonolithos host w) = inl (HostError "EROFS")
  /\ installed (settings w') = true
  /\ saved w' = None
  /\ installed (settings (snd (loadSettings w'))) = false
  /\ lookup ".obsidian/plugins/monolithos/main.js" (files (vault w')) <> None.
Proof.
  intros host w w'.
  assert (H : installMonolithos host w = (inl (HostError "EROFS"), w'))
    by (vm_compute; reflexivity).
  assert (T : exists t, trace w' = (trace w ++ t)%list
                        /\ In (Progress "Installation complete!") t).
  { exists (trace w'). split; [reflexivity|]. vm_compute. tauto. }
  destruct T as (t & T & I).
  destruct (install_save_failure host w w' _ t H T I) as (_ & S & Sv & L & P).
  split; [now rewrite H|]. split; [now rewrite S|]. split; [exact Sv|].
  split; [now rewrite L|].
  apply (P _ "main"). vm_compute. tauto.
Defined.

(** ** Further properties: what the appearance edit adds *)

Lemma appended_In (names : list string) (l : list json) (name : string) :
  In name (appended l names)
  <-> In name names /\ isMonolithosSnippet name = true
      /\ existsb (isString name) l = false.
Proof.
  revert l; induction names as [|n rest IH]; intros l; simpl; [tauto|].
  destruct (isMonolithosSnippet n && negb (existsb (isString n) l)) eqn:C.
  - apply andb_true_iff in C as [K P]. apply negb_true_iff in P.
    simpl. rewrite IH, existsb_app. simpl. rewrite orb_false_r, orb_false_iff.
    rewrite String.eqb_neq. split.
    + intros [<-|(I & M & A & _)]; auto.
    + intros ([->|I] & M & A); auto.
      destruct (string_dec n name) as [->|N]; auto.
  - rewrite IH. split; [tauto|]. intros ([<-|I] & M & A); auto.
    rewrite M, A in C. discriminate.
Qed.

Lemma appended_NoDup (names : list string) (l : list json) :
  NoDup (appended l names).
Proof.
  revert l; induction names as [|n rest IH]; intros l; simpl; [constructor|].
  destruct (isMonolithosSnippet n && negb (existsb (isString n) l)); [|apply IH].
  constructor; [|apply IH]. rewrite appended_In, existsb_app. simpl.
  rewrite String.eqb_refl, orb_true_r. intros (_ & _ & A). discriminate.
Qed.

(** When the list is an array, the loop appends [appended l names]. *)
Lemma enableAll_appended (names : list string) (a : Appearance) (l : list json) :
  getField a listKey = inr (Some (JArr l)) ->
  exists a',
    enableAll a names = inr a'
    /\ setField a listKey (JArr (l ++ map JStr (appended l names))) = inr a'.
Proof.
  revert a l; induction names as [|name rest IH]; intros a l G; simpl.
  - exists a. rewrite app_nil_r. split; [reflexivity | now apply setField_same].
  - unfold enableOne. fold listKey.
    destruct (isMonolithosSnippet name) eqn:K; simpl; [|now apply IH].
    rewrite G; simpl. destruct (existsb (isString name) l) eqn:P; simpl; [now apply IH|].
    destruct (setField a listKey (JArr (l ++ [JStr name]))) as [e|a1] eqn:S1.
    { exfalso. revert G S1. unfold getField, setField. destruct a as [d n]; simpl.
      destruct d; simpl; discriminate. }
    destruct (IH a1 _ (getField_setField _ _ _ S1)) as (a' & E & S).
    exists a'. split; [exact E|].
    rewrite <- (setField_setField _ _ _ _ S1), <- S. do 2 f_equal.
    now rewrite <- app_assoc.
Qed.

(** The edit of an object whose list is an array, or absent, or falsy. *)
Lemma edit_appended (props : list (string * json)) (names : list string) :
  (forall v, lookup listKey props = Some v -> truthy v = true -> exists l, v = JArr l) ->
  exists a1 a,
    ensureList (ofJson (JObj props)) = inr a1
    /\ enableAll a1 names = inr a
    /\ document a
       = JObj (update listKey
                 (JArr (enabledOf (JObj props)
                        ++ map JStr (appended (enabledOf (JObj props)) names)))
                 props).
Proof.
  intros A. remember (enabledOf (JObj props)) as old eqn:Old.
  unfold ensureList. fold listKey. unfold getField. simpl. fold listKey.
  assert (Fresh : old = [] ->
            exists a1 a,
              setField (ofJson (JObj props)) listKey (JArr []) = inr a1
              /\ enableAll a1 names = inr a
              /\ document a
                 = JObj (update listKey (JArr (old ++ map JStr (appended old names)))
                           props)).
  { intros ->. eexists.
    destruct (enableAll_appended names
                {| document := JObj (update listKey (JArr []) props); named := [] |} [])
      as (a & E & S).
    { unfold getField; simpl. now rewrite lookup_update_eq. }
    exists a. split; [reflexivity|]. split; [exact E|].
    revert S. unfold setField; simpl. intros [= <-]. simpl. now rewrite update_update. }
  simpl in Old. fold listKey in Old.
  destruct (lookup listKey props) as [v|] eqn:L; simpl.
  - destruct (truthy v) eqn:T.
    + destruct (A v eq_refl T) as (l & ->). subst old.
      destruct (enableAll_appended names (ofJson (JObj props)) l) as (a & E & S).
      { unfold getField; simpl. now rewrite L. }
      exists (ofJson (JObj props)), a. split; [reflexivity|]. split; [exact E|].
      revert S. unfold setField; simpl. now intros [= <-].
    + apply Fresh. subst old. destruct v; try reflexivity. discriminate T.
  - now apply Fresh.
Qed.

Lemma loadedAppearance_object (h : Host) (v : Vault) (j : json) :
  (vaultExists v (appearancePathOf h) = false /\ j = JObj [])
  \/ (exists content,
        lookup (appearancePathOf h) (files v) = Some content
        /\ JSON_parse h content = Some j) ->
  loadedAppearance h v = inr (ofJson j).
Proof.
  unfold loadedAppearance. intros [[-> ->]|(content & L & P)]; [reflexivity|].
  unfold vaultExists. rewrite L, P. simpl. now rewrite orb_true_r.
Qed.

(** A run of the edit whose document is known. *)
Lemma edit_written (h : Host) (nameOf : string -> string) (w : World) (a : Appearance) :
  faultFree h ->
  editedAppearance h nameOf (vault w) = inr (Some a) ->
  exists t,
    enableSnippetsWith h nameOf w = (inr tt, advance t w)
    /\ vault (advance t w)
       = vaultWrite (vault w) (appearancePathOf h) (JSON_stringify h (document a) 2).
Proof.
  intros FF E. destruct (enableSnippets_run h nameOf w) as (t & R & O).
  exists t. split; [exact R|]. cbn [vault advance].
  rewrite (editOutcome_faultFree _ _ _ _ FF O). unfold afterEdit. now rewrite E.
Qed.

(** A run of the edit that throws inside: the error is caught and logged,
    and nothing is written. *)
Lemma edit_caught (h : Host) (nameOf : string -> string) (w : World) (err : Error) :
  editedAppearance h nameOf (vault w) = inl err ->
  exists t pre err',
    enableSnippetsWith h nameOf w = (inr tt, advance t w)
    /\ t = (pre ++ [ConsoleError enableFailed err'])%list
    /\ forallb isQuery pre = true
    /\ vault (advance t w) = vault w
    /\ (faultFree h -> err' = err).
Proof.
  intros E. destruct (enableSnippets_run h nameOf w) as (t & R & O).
  destruct O as [(a & pre & E' & _)|[(E' & _)|(err' & pre & -> & Q & C)]];
    try congruence.
  exists (pre ++ [ConsoleError enableFailed err'])%list, pre, err'.
  split; [exact R|]. split; [reflexivity|]. split; [exact Q|]. split.
  - cbn [vault advance]. rewrite replay_app. simpl.
    apply replay_readOnly. now apply isQuery_quiet.
  - intros FF. destruct C as [C|(t0 & e & F)]; [congruence|].
    rewrite FF in F. discriminate.
Qed.

(** A list that is neither an array nor a string stops the loop at the
    first matching name. *)
Lemma enableAll_blocked (names : list string) (a : Appearance) (v : json) :
  getField a listKey = inr (Some v) ->
  (forall l, v <> JArr l) ->
  (forall s, v <> JStr s) ->
  existsb isMonolithosSnippet names = true ->
  enableAll a names = inl TypeError.
Proof.
  intros G NA NS. induction names as [|name rest IH]; simpl; [discriminate|].
  unfold enableOne. fold listKey. destruct (isMonolithosSnippet name); simpl; [|exact IH].
  intros _. rewrite G. simpl.
  destruct v; simpl; try reflexivity; [now destruct (NS s) | now destruct (NA elements)].
Qed.

(** X4.  Take a vault whose appearance file is absent or parses to an
    object in which [enabledCssSnippets] is an array, absent or falsy, and
    which has a snippets folder.  When no host call fails, [enableSnippets]
    writes that object with the list replaced by the earlier list followed by
    the names it adds; these are, in listing order and each once, exactly the
    names of the listed [.css] files that contain one of the six keywords and
    are not yet on the list. *)
Theorem enableSnippets_appends_matching (host : Host) (w : World)
        (props : list (string * json)) :
  faultFree host ->
  ((vaultExists (vault w) (appearancePathOf host) = false /\ props = [])
   \/ exists content,
       lookup (appearancePathOf host) (files (vault w)) = Some content
       /\ JSON_parse host content = Some (JObj props)) ->
  vaultExists (vault w) (snippetsPathOf host) = true ->
  (forall v, lookup listKey props = Some v -> truthy v = true -> exists l, v = JArr l) ->
  let names := listedNames host snippetName (vault w) in
  let old := enabledOf (JObj props) in
  exists added t,
    enableSnippets host w = (inr tt, advance t w)
    /\ vault (advance t w)
       = vaultWrite (vault w) (appearancePathOf host)
           (JSON_stringify host
              (JObj (update listKey (JArr (old ++ map JStr added)) props)) 2)
    /\ added = appended old names
    /\ NoDup added
    /\ forall name,
        In name added
        <-> In name names /\ isMonolithosSnippet name = true /\ ~ In (JStr name) old.
Proof.
  intros FF Doc Folder A names old.
  assert (Doc' : loadedAppearance host (vault w) = inr (ofJson (JObj props)))
    by (apply loadedAppearance_object; destruct Doc as [[V ->]|Doc]; auto).
  destruct (edit_appended props names A) as (a1 & a & E1 & E2 & D).
  assert (E : editedAppearance host snippetName (vault w) = inr (Some a)).
  { unfold editedAppearance, bindR. rewrite Doc', Folder, E1. fold names. now rewrite E2. }
  destruct (edit_written host snippetName w a FF E) as (t & R & V).
  exists (appended old names), t. split; [exact R|]. split; [now rewrite V, D|].
  split; [reflexivity|]. split; [apply appended_NoDup|].
  intros name. rewrite appended_In, <- existsb_isString_In.
  destruct (existsb (isString name) old); intuition congruence.
Qed.

(** On the demo host, with three snippets in the folder and one of them
    enabled: the one other that matches is added. *)
Lemma enableSnippets_appends_matching_example :
  let host := Demo.host Demo.package Demo.noFault in
  let w := Demo.start
             {| files := [(".obsidian/appearance.json", Demo.print 2 0 Demo.themedCore);
                          (".obsidian/snippets/monolithos-core.css", "a");
                          (".obsidian/snippets/oracle.css", "b");
                          (".obsidian/snippets/plain.css", "c")];
                folders := [".obsidian"; ".obsidian/snippets"] |} in
  exists t,
    enableSnippets host w = (inr tt, advance t w)
    /\ lookup ".obsidian/appearance.json" (files (vault (advance t w)))
       = Some (Demo.print 2 0
                 (JObj [("theme", JStr "obsidian");
                        ("enabledCssSnippets",
                         JArr [JStr "monolithos-core"; JStr "oracle"])])).
Proof.
  intros host w.
  assert (P : JSON_parse host (Demo.print 2 0 Demo.themedCore) = Some Demo.themedCore)
    by (vm_compute; reflexivity).
  destruct (enableSnippets_appends_matching host w
              [("theme", JStr "obsidian");
               ("enabledCssSnippets", JArr [JStr "monolithos-core"])])
    as (added & t & R & V & A & _).
  - intros ? ?. reflexivity.
  - right. exists (Demo.print 2 0 Demo.themedCore). split; [reflexivity | exact P].
  - reflexivity.
  - intros v [= <-] _. eauto.
  - exists t. split; [exact R|]. rewrite V, A. vm_compute. reflexivity.
Defined.

(** X5.  An appearance file that holds [null], a boolean, a number or a
    string is never rewritten.  In a vault with a snippets folder, reading
    or setting [enabledCssSnippets] on such a value throws; [enableSnippets]
    catches the error and logs it, it returns normally and the vault is as
    it was.  When no host call fails the error is a [TypeError]. *)
Theorem enableSnippets_rejects_primitive (host : Host) (w : World)
        (content : string) (j : json) :
  lookup (appearancePathOf host) (files (vault w)) = Some content ->
  JSON_parse host content = Some j ->
  (forall props, j <> JObj props) ->
  (forall elements, j <> JArr elements) ->
  vaultExists (vault w) (snippetsPathOf host) = true ->
  exists t pre err,
    enableSnippets host w = (inr tt, advance t w)
    /\ t = (pre ++ [ConsoleError enableFailed err])%list
    /\ forallb isQuery pre = true
    /\ vault (advance t w) = vault w
    /\ (faultFree host -> err = TypeError).
Proof.
  intros L P NO NA Folder. apply edit_caught.
  unfold editedAppearance, bindR.
  rewrite (loadedAppearance_object host (vault w) j) by (right; eauto).
  rewrite Folder. unfold ensureList, getField, setField. simpl.
  destruct j; simpl; try reflexivity; [now destruct (NA elements) | now destruct (NO properties)].
Qed.

(** The appearance file holds [null]. *)
Lemma enableSnippets_rejects_primitive_example :
  let host := DemoMore.reading JNull in
  let w := Demo.start (DemoMore.withSnippet "null") in
  exists w',
    enableSnippets host w = (inr tt, w')
    /\ vault w' = vault w
    /\ In (ConsoleError enableFailed TypeError) (trace w').
Proof.
  intros host w.
  destruct (enableSnippets_rejects_primitive host w "null" JNull)
    as (t & pre & err & R & T & _ & V & E);
    try reflexivity; try discriminate.
  exists (advance t w). split; [exact R|]. split; [exact V|].
  rewrite <- (E (fun _ _ => eq_refl)), T. cbn [trace advance].
  rewrite !in_app_iff. simpl. auto.
Defined.

(** X6.  In an appearance document whose [enabledCssSnippets] is truthy
    but neither an array nor a string (a number, [true], an object), the list
    cannot be searched.  When the snippets folder lists a [.css] file whose
    name contains a keyword, [enableSnippets] catches the error of the first
    such name, logs it, and writes nothing: the vault is as it was.  When no
    host call fails the error is a [TypeError]. *)
Theorem enableSnippets_rejects_bad_list (host : Host) (w : World)
        (content : string) (props : list (string * json)) (v : json) :
  lookup (appearancePathOf host) (files (vault w)) = Some content ->
  JSON_parse host content = Some (JObj props) ->
  lookup listKey props = Some v ->
  truthy v = true ->
  (forall l, v <> JArr l) ->
  (forall s, v <> JStr s) ->
  vaultExists (vault w) (snippetsPathOf host) = true ->
  existsb isMonolithosSnippet (listedNames host snippetName (vault w)) = true ->
  exists t pre err,
    enableSnippets host w = (inr tt, advance t w)
    /\ t = (pre ++ [ConsoleError enableFailed err])%list
    /\ forallb isQuery pre = true
    /\ vault (advance t w) = vault w
    /\ (faultFree host -> err = TypeError).
Proof.
  intros L P K T NA NS Folder Match. apply edit_caught.
  unfold editedAppearance, bindR.
  rewrite (loadedAppearance_object host (vault w) (JObj props)) by (right; eauto).
  rewrite Folder.
  assert (G : getField (ofJson (JObj props)) listKey = inr (Some v))
    by (unfold getField; simpl; now rewrite K).
  unfold ensureList. fold listKey. rewrite G. simpl. rewrite T.
  now rewrite (enableAll_blocked _ _ v G NA NS Match).
Qed.

(** The list is the number 1, and a matching snippet is in the folder. *)
Lemma enableSnippets_rejects_bad_list_example :
  let host := DemoMore.reading DemoMore.counted in
  let w := Demo.start (DemoMore.withSnippet (Demo.print 0 0 DemoMore.counted)) in
  exists w',
    enableSnippets host w = (inr tt, w')
    /\ vault w' = vault w
    /\ In (ConsoleError enableFailed TypeError) (trace w').
Proof.
  intros host w.
  assert (P : JSON_parse host (Demo.print 0 0 DemoMore.counted) = Some DemoMore.counted)
    by (vm_compute; reflexivity).
  assert (M : existsb isMonolithosSnippet (listedNames host snippetName (vault w)) = true)
    by (vm_compute; reflexivity).
  destruct (enableSnippets_rejects_bad_list host w
              (Demo.print 0 0 DemoMore.counted)
              [("enabledCssSnippets", JNum 1)] (JNum 1) eq_refl P eq_refl eq_refl)
    as (t & pre & err & R & T & _ & V & E);
    try discriminate; try reflexivity; try exact M.
  exists (advance t w). split; [exact R|]. split; [exact V|].
  rewrite <- (E (fun _ _ => eq_refl)), T. cbn [trace advance].
  rewrite !in_app_iff. simpl. auto.
Defined.

(** ** Further properties: the two revisions *)

Lemma findLast_none (s : string) (c : ascii) :
  findLast s (String c "") = None -> find s (String c "") = None.
Proof.
  induction s as [|d s IH]; [reflexivity|]. cbn [findLast find].
  destruct (findLast s (String c "")); [discriminate|].
  destruct (startsWith (String d s) (String c "")); [discriminate|].
  intros _. now rewrite IH.
Qed.

(** The last occurrence of a character cuts a string in two, and the
    second part is free of it. *)
Lemma findLast_char (s : string) (c : ascii) (n : nat) :
  findLast s (String c "") = Some n ->
  n < String.length s
  /\ s = take n s ++ String c (drop (S n) s)
  /\ find (drop (S n) s) (String c "") = None.
Proof.
  revert n; induction s as [|d s IH]; intros n; [discriminate|]. cbn [findLast].
  destruct (findLast s (String c "")) as [m|] eqn:F.
  - intros [= <-]. destruct (IH m eq_refl) as (L & E & N).
    split; [simpl; lia|]. split; [|exact N].
    change (String d s = String d (take m s ++ String c (drop (S m) s))).
    now rewrite <- E.
  - destruct (startsWith (String d s) (String c "")) eqn:S; [|discriminate].
    intros [= <-]. simpl in S. rewrite andb_true_r in S. apply Ascii.eqb_eq in S as ->.
    split; [simpl; lia|]. split; [reflexivity|]. simpl. now apply findLast_none.
Qed.

Lemma substring_to (s : string) (n : nat) :
  n <= String.length s -> substring s 0 (Some (Z.of_nat n)) = take n s.
Proof.
  intros H. unfold substring, clamp. change (Z.to_nat (Z.max 0 0)) with 0.
  rewrite Z.max_r by lia. rewrite Nat2Z.id.
  rewrite Nat.min_0_l, (Nat.min_l n) by lia.
  now rewrite Nat.min_0_l, Nat.max_0_l, Nat.sub_0_r.
Qed.

(** A file in the folder [p] is [p], a slash and a name without slash. *)
Lemma parentOf_child (f p : string) :
  parentOf f = p -> p <> "" ->
  exists base, f = p ++ String "/" base /\ find base "/" = None.
Proof.
  unfold parentOf, lastIndexOf. destruct (findLast f "/") as [n|] eqn:F.
  - destruct (findLast_char _ _ _ F) as (L & E & N).
    rewrite substring_to by lia. intros <- _. now exists (drop (S n) f).
  - intros <- N. now destruct N.
Qed.

Lemma split_no_sep (s : string) (sep : ascii) :
  find s (String sep "") = None -> split s sep = (s, []).
Proof.
  induction s as [|c s IH]; [reflexivity|]. cbn [find split startsWith].
  rewrite andb_true_r. destruct (Ascii.eqb sep c) eqn:E; [discriminate|].
  destruct (find s (String sep "")); [discriminate|]. intros _.
  rewrite IH by reflexivity. rewrite Ascii.eqb_sym, E. reflexivity.
Qed.

Lemma last_cons {A : Type} (l : list A) (a d : A) : last (a :: l) d = last l a.
Proof.
  revert a d; induction l as [|b l IH]; intros a d; [reflexivity|].
  change (last (b :: l) d = last (b :: l) a). now rewrite !IH.
Qed.

Lemma last_default {A : Type} (l : list A) (d d' : A) :
  l <> [] -> last l d = last l d'.
Proof. destruct l as [|a l]; [congruence|]. intros _. now rewrite !last_cons. Qed.

Lemma split_sep_parts (a b : string) (sep : ascii) :
  snd (split (a ++ String sep b) sep) <> [].
Proof.
  induction a as [|c a IH]; simpl.
  - destruct (split b sep). rewrite Ascii.eqb_refl. discriminate.
  - destruct (split (a ++ String sep b) sep) as [hd tl]. simpl in IH.
    destruct (Ascii.eqb c sep); [discriminate | exact IH].
Qed.

(** The last segment of a path is the last segment of what follows any of
    its separators. *)
Lemma lastPart_split_app (a b : string) (sep : ascii) :
  lastPart (split (a ++ String sep b) sep) = lastPart (split b sep).
Proof.
  unfold lastPart. induction a as [|c a IH]; simpl.
  - destruct (split b sep) as [hd tl]. rewrite Ascii.eqb_refl. simpl snd. simpl fst.
    apply last_cons.
  - pose proof (split_sep_parts a b sep) as NE.
    destruct (split (a ++ String sep b) sep) as [hd tl]. simpl in NE, IH.
    destruct (Ascii.eqb c sep); simpl snd; simpl fst.
    + now rewrite last_cons.
    + rewrite <- IH. now apply last_default.
Qed.

(** On the files of the snippets folder of [.obsidian], the two revisions
    compute the same name. *)
Lemma names_agree (f : string) :
  parentOf f = ".obsidian/snippets" -> snippetName f = snippetName_legacy f.
Proof.
  intros P. apply parentOf_child in P as (base & -> & N); [|discriminate].
  unfold snippetName, snippetName_legacy.
  rewrite lastPart_split_app, (split_no_sep _ _ N). reflexivity.
Qed.

Lemma enableSnippetsWith_ext (h : Host) (n1 n2 : string -> string) (w : World) :
  (forall f, In f (vaultList (vault w) (snippetsPathOf h)) -> n1 f = n2 f) ->
  enableSnippetsWith h n1 w = enableSnippetsWith h n2 w.
Proof.
  intros Same.
  assert (M : map n1 (filter (fun f => endsWith f ".css")
                        (vaultList (vault w) (snippetsPathOf h)))
              = map n2 (filter (fun f => endsWith f ".css")
                          (vaultList (vault w) (snippetsPathOf h)))).
  { apply map_ext_in. intros f I. apply filter_In in I as [I _]. now apply Same. }
  unfold enableSnippetsWith, tryCatch, adapter_exists, adapter_read, adapter_list,
    adapter_write, console_error, call, bind, ret, gets, modify, throw, liftR.
  fold (appearancePathOf h). fold (snippetsPathOf h). simpl.
  repeat (rewrite ?M;
          match goal with
          | |- context [fault h ?t ?e] => destruct (fault h t e); simpl
          | |- context [vaultExists ?v ?p] => destruct (vaultExists v p); simpl
          | |- context [lookup ?p (files ?v)] => destruct (lookup p (files v)); simpl
          | |- context [JSON_parse h ?c] => destruct (JSON_parse h c); simpl
          end);
    rewrite ?M; reflexivity.
Qed.

Lemma bind_ext {A B : Type} (m : M A) (k1 k2 : A -> M B) (w : World) :
  (forall a w', k1 a w' = k2 a w') -> bind m k1 w = bind m k2 w.
Proof. intros K. unfold bind. destruct (m w) as [[err|a] w']; auto. Qed.

Lemma installMonolithosWith_ext (h : Host) (n1 n2 : string -> string) :
  (forall w, enableSnippetsWith h n1 w = enableSnippetsWith h n2 w) ->
  forall w, installMonolithosWith h n1 w = installMonolithosWith h n2 w.
Proof.
  intros Same w. unfold installMonolithosWith, tryCatch.
  replace ((downloadAndWrite h ;; configureAndFinish h n1)%prog w)
    with ((downloadAndWrite h ;; configureAndFinish h n2)%prog w); [reflexivity|].
  apply bind_ext. intros _ w1. unfold configureAndFinish.
  apply bind_ext. intros _ w2. unfold bind. now rewrite Same.
Qed.

(** X7.  In a vault whose configuration folder is [.obsidian], the earlier
    revision ([main.ts]), which writes that name out and names a listed
    snippet by deleting the folder prefix, runs exactly as the current one:
    [enableSnippets] and [installMonolithos] make the same calls, give the
    same result and leave the same state, whatever the host does. *)
Theorem revisions_agree (host : Host) (w : World) :
  configDir host = ".obsidian" ->
  Earlier.enableSnippets host w = enableSnippets host w
  /\ Earlier.installMonolithos host w = installMonolithos host w.
Proof.
  intros C.
  assert (H : withConfigDir ".obsidian" host = host)
    by (destruct host; simpl in C; now subst).
  assert (E : forall w0, enableSnippetsWith host snippetName_legacy w0
                         = enableSnippetsWith host snippetName w0).
  { intros w0. apply enableSnippetsWith_ext. intros f I. symmetry. apply names_agree.
    unfold vaultList in I. apply filter_In in I as [_ I].
    apply String.eqb_eq in I. rewrite I. unfold snippetsPathOf. now rewrite C. }
  unfold Earlier.enableSnippets, Earlier.installMonolithos, enableSnippets,
    installMonolithos. rewrite H.
  split; [apply E | now apply installMonolithosWith_ext].
Qed.

(** On the demo host, whose configuration folder is [.obsidian]. *)
Lemma revisions_agree_example :
  Earlier.installMonolithos (Demo.host Demo.package Demo.noFault)
    (Demo.start Demo.emptyVault)
  = installMonolithos (Demo.host Demo.package Demo.noFault)
      (Demo.start Demo.emptyVault).
Proof.
  apply (revisions_agree (Demo.host Demo.package Demo.noFault)
           (Demo.start Demo.emptyVault) eq_refl).
Defined.

(** ** Further properties: what the license check sends *)

(** X8.  [verifyLicense] sends the key once and nowhere else: the calls of
    a run are the one [POST] to the verification address, whose body is the
    compact JSON text of [{license_key: key}]; or that request followed by
    the logging of an error (the response could not be used); or, when the
    host refuses the request, the logging alone.  Whenever an error is
    logged the result is [{valid: false, error: "Could not connect to
    server"}]. *)
Theorem verifyLicense_calls (host : Host) (licenseKey : string) (w : World) :
  let request :=
    Request "POST" VERIFY_URL
      (JSON_stringify host (JObj [("license_key", JStr licenseKey)]) 0) in
  exists r t,
    verifyLicense host licenseKey w = (inr r, advance t w)
    /\ (t = [request]
        \/ (exists err,
              t = [request; ConsoleError "License verification error:" err]
              /\ r = couldNotConnect)
        \/ (exists err,
              t = [ConsoleError "License verification error:" err]
              /\ r = couldNotConnect
              /\ fault host (trace w) request = Some err)).
Proof.
  intros request.
  unfold verifyLicense, tryCatch, requestUrl, responseJson, console_error,
    call, bind, ret, throw, liftR, modify. fold request.
  destruct (fault host (trace w) request) as [err|] eqn:F; simpl.
  { exists couldNotConnect, [ConsoleError "License verification error:" err].
    split; [f_equal; by_trace | eauto 8]. }
  assert (Caught : forall err,
            exists r t,
              (@inr Error VerifyResult couldNotConnect,
               record (ConsoleError "License verification error:" err) (record request w))
              = (inr r, advance t w)
              /\ (t = [request]
                  \/ (exists err,
                        t = [request; ConsoleError "License verification error:" err]
                        /\ r = couldNotConnect)
                  \/ (exists err,
                        t = [ConsoleError "License verification error:" err]
                        /\ r = couldNotConnect
                        /\ None = Some err))).
  { intros err. exists couldNotConnect,
      [request; ConsoleError "License verification error:" err].
    split; [f_equal; by_trace | eauto 8]. }
  destruct (JSON_parse host _) as [data|]; simpl; [|apply Caught].
  destruct (getProp data "valid") as [e|v] eqn:V; simpl; [apply Caught|].
  assert (T : exists x, getProp data "tier" = inr x)
    by (destruct data; simpl in *; eauto; congruence).
  assert (G : exists x, getProp data "message" = inr x)
    by (destruct data; simpl in *; eauto; congruence).
  destruct T as [x T], G as [m G].
  destruct (truthyProp v); rewrite ?T, ?G; simpl;
    (eexists _, [request]; split; [f_equal; by_trace | now left]).
Qed.


(** ** Further properties: the install modal *)

Lemma trimStart_blank (s : string) : blank s = true -> trimStart s = "".
Proof.
  induction s as [|c s IH]; simpl; [reflexivity|].
  destruct (isWhiteSpace c); simpl; [exact IH | discriminate].
Qed.

Lemma trimEnd_nonEmpty (c : ascii) (s : string) :
  isWhiteSpace c = false -> nonEmpty (trimEnd (String c s)) = true.
Proof.
  intros W. revert c W; induction s as [|d s IH]; intros c W.
  - simpl. now rewrite W.
  - change (trimEnd (String c (String d s)))
      with (match trimEnd (String d s) with
            | EmptyString => if isWhiteSpace c then EmptyString else String c EmptyString
            | rest => String c rest
            end).
    destruct (trimEnd (String d s)); [now rewrite W | reflexivity].
Qed.

(** [trim] gives the empty string on white space, and on nothing else. *)
Lemma trim_blank (s : string) : nonEmpty (trim s) = negb (blank s).
Proof.
  unfold trim. induction s as [|c s IH]; [reflexivity|]. simpl trimStart. simpl blank.
  destruct (isWhiteSpace c) eqn:W; [exact IH|]. now apply trimEnd_nonEmpty.
Qed.

Lemma fold_status (statuses : list string) (m : Modal) :
  exists status,
    fold_left (fun m status => setStatusText (Text status) m) statuses m
    = setStatusText status m.
Proof.
  revert m; induction statuses as [|s rest IH]; intros m; simpl.
  - exists (statusText m). now destruct m.
  - destruct (IH (setStatusText (Text s) m)) as (status & ->). now exists status.
Qed.

Lemma saveSettings_run (host : Host) (w : World) (r : Result unit) (w' : World) :
  saveSettings host w = (r, w') ->
  (exists err,
     r = inl err /\ w' = w /\ fault host (trace w) (SaveData (settings w)) = Some err)
  \/ (r = inr tt /\ w' = persisted (record (SaveData (settings w)) w)).
Proof.
  unfold saveSettings, call, bind, gets, modify. simpl.
  destruct (fault host (trace w) (SaveData (settings w))) as [err|] eqn:F;
    intros [= <- <-]; [left; eauto | right; auto].
Qed.

(** [verifyLicense] returns, and leaves vault and settings alone; it sends
    no [GET] request. *)
Lemma verifyLicense_quiet (host : Host) (key : string) (w : World) :
  exists r t,
    verifyLicense host key w = (inr r, advance t w)
    /\ forallb readOnly t = true
    /\ ~ In (Request "GET" PLUGIN_DOWNLOAD_URL "") t.
Proof.
  unfold verifyLicense, tryCatch, requestUrl, responseJson, console_error,
    call, bind, ret, throw, liftR, modify.
  destruct (fault host (trace w) _) as [err|]; simpl;
    [|destruct (JSON_parse host _) as [data|]; simpl;
      [destruct (getProp data "valid") as [e|v]; simpl;
       [|destruct (truthyProp v);
         [destruct (getProp data "tier") | destruct (getProp data "message")]; simpl]|]];
    (eexists _, _; split; [f_equal; by_trace|];
     split; [reflexivity | simpl; intuition discriminate]).
Qed.

Lemma advance_quiet (t : list Event) (w : World) :
  forallb readOnly t = true ->
  vault (advance t w) = vault w
  /\ settings (advance t w) = settings w
  /\ saved (advance t w) = saved w.
Proof. intros O. cbn [vault settings saved advance]. now rewrite replay_readOnly. Qed.

Section ModalRuns.

Variable host : Host.
Variable engineMessage : Error -> string.

(** [handleInstall] on a modal that is not installing, whose input has a
    key: one equation for the four ways it can go from there. *)
Lemma handleInstall_steps (m : Modal) (w w1 : World) (r : VerifyResult) :
  isInstalling m = false ->
  nonEmpty (trim (inputValue m)) = true ->
  verifyLicense host (trim (inputValue m)) w = (inr r, w1) ->
  handleInstall host engineMessage m w
  = if negb (valid r) then
      (inr tt,
       shows false (shown (nullish (error r) (JStr "Verification failed")))
             "installer-status error" "Verify & install" false (closeTimer m) m,
       w1)
    else
      match saveSettings host (withSettings (setLicenseKey (trim (inputValue m))) w1) with
      | (inl err, w2) =>
          (inl err,
           shows true (Text "Verifying license...") "installer-status"
                 "Verifying..." true (closeTimer m) m,
           w2)
      | (inr _, w2) =>
          match installMonolithos host w2 with
          | (inr _, w') =>
              (inr tt,
               shows true (Text "Installation complete!") "installer-status success"
                     "Done!" true true m,
               w')
          | (inl err, w') =>
              (inr tt,
               shows false (Text ("Installation failed: " ++ errorMessage engineMessage err))
                     "installer-status error" "Retry" false (closeTimer m) m,
               w')
          end
      end.
Proof.
  intros I K V. unfold handleInstall.
  unfold ubind at 1, getModal at 1. rewrite I.
  unfold ubind at 1, getModal at 1. rewrite K. cbn [negb].
  unfold ubind, setModal, plugin, uret, utry, installFromModal, modify. rewrite V.
  destruct (valid r); cbn [negb]; [|now destruct m].
  destruct (saveSettings host _) as [[err|[]] w2]; [now destruct m|].
  destruct (installMonolithos host w2) as [[err|b] w'];
    match goal with |- context [fold_left ?f ?l ?m0] =>
      destruct (fold_status l m0) as (status & ->) end;
    now destruct m.
Qed.

End ModalRuns.

(** X9.  With nothing but white space in the input, [handleInstall] asks
    for a key and does nothing else: no request is sent, no call is made,
    the plugin's state is what it was, and the modal is not locked. *)
Theorem handleInstall_blank_key (host : Host) (message : Error -> string)
        (m : Modal) (w : World) :
  isInstalling m = false ->
  blank (inputValue m) = true ->
  handleInstall host message m w
  = (inr tt,
     shows false (Text "Please enter a license key") "installer-status error"
           (buttonText m) (buttonDisabled m) (closeTimer m) m,
     w).
Proof.
  intros I B. unfold handleInstall.
  unfold ubind at 1, getModal at 1. rewrite I.
  unfold ubind at 1, getModal at 1. rewrite trim_blank, B. cbn [negb].
  unfold setModal. destruct m. simpl in I. now subst.
Qed.

(** Three spaces typed, on the demo host. *)
Lemma handleInstall_blank_key_example :
  handleInstall (Demo.host Demo.package Demo.noFault) DemoMore.engineText
    (DemoMore.typed "   ") (Demo.start Demo.emptyVault)
  = (inr tt,
     shows false (Text "Please enter a license key") "installer-status error"
           "Verify & install" false false (DemoMore.typed "   "),
     Demo.start Demo.emptyVault).
Proof.
  apply (handleInstall_blank_key (Demo.host Demo.package Demo.noFault)
           DemoMore.engineText (DemoMore.typed "   ") (Demo.start Demo.emptyVault));
    reflexivity.
Defined.

(** X10.  When the license check comes back not valid, [handleInstall]
    goes no further: the calls made are those of the check, the vault and
    the settings (the stored key included) are what they were, and the
    modal is unlocked again, showing the error of the check, or
    ["Verification failed"] when there is none. *)
Theorem handleInstall_rejected (host : Host) (message : Error -> string)
        (m : Modal) (w w1 : World) (r : VerifyResult) :
  isInstalling m = false ->
  nonEmpty (trim (inputValue m)) = true ->
  verifyLicense host (trim (inputValue m)) w = (inr r, w1) ->
  valid r = false ->
  handleInstall host message m w
  = (inr tt,
     shows false (shown (nullish (error r) (JStr "Verification failed")))
           "installer-status error" "Verify & install" false (closeTimer m) m,
     w1)
  /\ vault w1 = vault w /\ settings w1 = settings w /\ saved w1 = saved w.
Proof.
  intros I K V F. rewrite (handleInstall_steps host message m w w1 r I K V), F.
  split; [reflexivity|].
  destruct (verifyLicense_quiet host (trim (inputValue m)) w) as (r' & t & V' & O & _).
  rewrite V in V'. injection V' as _ ->. now apply advance_quiet.
Qed.

(** The demo server rejects the key, with an empty message. *)
Lemma handleInstall_rejected_example :
  let host := Demo.host Demo.package Demo.noFault in
  let w := Demo.start Demo.emptyVault in
  exists m' w',
    handleInstall host DemoMore.engineText (DemoMore.typed " UFO_sk_1 ") w
    = (inr tt, m', w')
    /\ statusText m' = Text "Invalid license key"
    /\ isInstalling m' = false
    /\ settings w' = DEFAULT_SETTINGS.
Proof.
  intros host w.
  assert (V : verifyLicense host (trim (inputValue (DemoMore.typed " UFO_sk_1 "))) w
              = (inr {| valid := false; tier := None;
                        error := Some (JStr "Invalid license key") |},
                 snd (verifyLicense host "UFO_sk_1" w)))
    by (vm_compute; reflexivity).
  destruct (handleInstall_rejected host DemoMore.engineText
              (DemoMore.typed " UFO_sk_1 ") w _ _ eq_refl eq_refl V eq_refl)
    as (H & _ & S & _).
  eexists _, _. split; [exact H|]. split; [reflexivity|]. split; [reflexivity|exact S].
Defined.

(** X11.  [handleInstall] throws in one case only: the license was valid
    and saving the key failed.  Nothing catches that error.  The modal is
    then left locked, showing ["Verifying license..."] with its button
    disabled, and the cancel button does nothing; the key is in the
    settings in memory but not saved, and nothing was downloaded or
    written. *)
Theorem handleInstall_throws (host : Host) (message : Error -> string)
        (m m' : Modal) (w w' : World) (err : Error) :
  handleInstall host message m w = (inl err, m', w') ->
  exists r w1,
    verifyLicense host (trim (inputValue m)) w = (inr r, w1)
    /\ valid r = true
    /\ saveSettings host (withSettings (setLicenseKey (trim (inputValue m))) w1)
       = (inl err, w')
    /\ m' = shows true (Text "Verifying license...") "installer-status"
                  "Verifying..." true (closeTimer m) m
    /\ cancel m' = m'
    /\ settings w' = setLicenseKey (trim (inputValue m)) (settings w)
    /\ saved w' = saved w
    /\ vault w' = vault w
    /\ exists t, trace w' = (trace w ++ t)%list
                 /\ ~ In (Request "GET" PLUGIN_DOWNLOAD_URL "") t.
Proof.
  destruct (isInstalling m) eqn:I.
  { unfold handleInstall, ubind at 1, getModal at 1. rewrite I. discriminate. }
  destruct (nonEmpty (trim (inputValue m))) eqn:K.
  2:{ unfold handleInstall. unfold ubind at 1, getModal at 1. rewrite I.
      unfold ubind at 1, getModal at 1. rewrite K. discriminate. }
  destruct (verifyLicense_quiet host (trim (inputValue m)) w) as (r & t & V & O & G).
  rewrite (handleInstall_steps host message m w _ r I K V).
  destruct (valid r) eqn:R; cbn [negb]; [|discriminate].
  destruct (saveSettings host _) as [[e|[]] w2] eqn:S.
  - intros [= -> <- ->]. exists r, (advance t w).
    destruct (saveSettings_run _ _ _ _ S) as [(e' & _ & -> & _)|[E _]]; [|discriminate].
    destruct (advance_quiet t w O) as (Vt & St & Pt).
    split; [exact V|]. split; [exact R|]. split; [exact S|].
    split; [reflexivity|]. split; [reflexivity|].
    cbn [vault settings saved trace withSettings]. rewrite St.
    split; [reflexivity|]. split; [exact Pt|]. split; [exact Vt|].
    exists t. split; [reflexivity | exact G].
  - destruct (installMonolithos host w2) as [[e|b] w3]; discriminate.
Qed.

(** The vault refuses the settings file, on a host that accepts the key. *)
Lemma handleInstall_throws_example :
  let host := DemoMore.host Demo.package DemoMore.saveFails in
  let run := handleInstall host DemoMore.engineText (DemoMore.typed "UFO_sk_1")
               (Demo.start Demo.emptyVault) in
  fst (fst run) = inl (HostError "EROFS")
  /\ isInstalling (snd (fst run)) = true
  /\ cancel (snd (fst run)) = snd (fst run)
  /\ saved (snd run) = None.
Proof.
  intros host run.
  assert (H : run = (inl (HostError "EROFS"), snd (fst run), snd run))
    by (vm_compute; reflexivity).
  destruct (handleInstall_throws host DemoMore.engineText _ _ _ _ _ H)
    as (r & w1 & _ & _ & _ & M & C & _ & S & _).
  split; [now rewrite H|]. split; [now rewrite M|]. split; [exact C | exact S].
Defined.



(** X13.  When the license is valid, the key is saved, and
    [installMonolithos] returns, the modal shows ["Installation
    complete!"] and ["Done!"], and the timer that will close it is set.  It
    stays locked: until the timer fires, the cancel button and a further
    click on the primary button do nothing.  The settings, in memory and as
    saved, hold the key and say [installed], version ["1.0.0"]. *)
Theorem handleInstall_completes (host : Host) (message : Error -> string)
        (m : Modal) (w w1 w2 w' : World) (r : VerifyResult) (b : bool) :
  isInstalling m = false ->
  nonEmpty (trim (inputValue m)) = true ->
  verifyLicense host (trim (inputValue m)) w = (inr r, w1) ->
  valid r = true ->
  saveSettings host (withSettings (setLicenseKey (trim (inputValue m))) w1)
  = (inr tt, w2) ->
  installMonolithos host w2 = (inr b, w') ->
  let m' := shows true (Text "Installation complete!") "installer-status success"
                  "Done!" true true m in
  handleInstall host message m w = (inr tt, m', w')
  /\ cancel m' = m'
  /\ handleInstall host message m' w' = (inr tt, m', w')
  /\ settings w'
     = {| licenseKey := trim (inputValue m); installed := true;
          installedVersion := "1.0.0" |}
  /\ saved w' = Some (settings w').
Proof.
  intros I K V R S H m'.
  rewrite (handleInstall_steps host message m w w1 r I K V), R. cbn [negb].
  rewrite S, H. split; [reflexivity|]. split; [reflexivity|]. split; [reflexivity|].
  destruct (saveSettings_run _ _ _ _ S) as [(e' & E & _)|[_ ->]]; [discriminate|].
  apply install_success in H as (tw & te & _ & -> & _).
  cbn [saved settings persisted record withSettings advance]. auto.
Qed.

(** No fault, on a host that accepts the key. *)
Lemma handleInstall_completes_example :
  let host := DemoMore.host Demo.package Demo.noFault in
  exists m' w',
    handleInstall host DemoMore.engineText (DemoMore.typed "UFO_sk_1")
      (Demo.start Demo.emptyVault)
    = (inr tt, m', w')
    /\ statusText m' = Text "Installation complete!"
    /\ isInstalling m' = true
    /\ closeTimer m' = true
    /\ saved w'
       = Some {| licenseKey := "UFO_sk_1"; installed := true;
                 installedVersion := "1.0.0" |}.
Proof.
  intros host. set (w := Demo.start Demo.emptyVault).
  set (m := DemoMore.typed "UFO_sk_1").
  pose (w1 := snd (verifyLicense host (trim (inputValue m)) w)).
  pose (w2 := snd (saveSettings host
                     (withSettings (setLicenseKey (trim (inputValue m))) w1))).
  assert (V : verifyLicense host (trim (inputValue m)) w
              = (inr {| valid := true; tier := Some (JStr "pro"); error := None |}, w1))
    by (vm_compute; reflexivity).
  assert (S : saveSettings host (withSettings (setLicenseKey (trim (inputValue m))) w1)
              = (inr tt, w2))
    by (vm_compute; reflexivity).
  assert (H : installMonolithos host w2 = (inr true, snd (installMonolithos host w2)))
    by (vm_compute; reflexivity).
  destruct (handleInstall_completes host DemoMore.engineText m w w1 w2 _ _ _
              eq_refl eq_refl V eq_refl S H) as (E & _ & _ & St & Sv).
  eexists _, _. split; [exact E|].
  split; [reflexivity|]. split; [reflexivity|]. split; [reflexivity|].
  rewrite Sv, St. reflexivity.
Defined.

Lemma trace_same (w : World) (t : list Event) :
  trace w = (trace w ++ t)%list -> t = [].
Proof.
  intros E. rewrite <- (app_nil_r (trace w)) in E at 1.
  now apply app_inv_head in E.
Qed.

(** X14.  [handleInstall] downloads nothing without a license: if a run
    has sent the download request, then the modal was not installing, the
    check of the typed key (trimmed) came back valid, and the key was saved
    before [installMonolithos] was called. *)
Theorem handleInstall_downloads_licensed (host : Host) (message : Error -> string)
        (m m' : Modal) (w w' : World) (res : Result unit) (t : list Event) :
  handleInstall host message m w = (res, m', w') ->
  trace w' = (trace w ++ t)%list ->
  In (Request "GET" PLUGIN_DOWNLOAD_URL "") t ->
  isInstalling m = false
  /\ exists r w1 w2 ri,
      verifyLicense host (trim (inputValue m)) w = (inr r, w1)
      /\ valid r = true
      /\ saveSettings host (withSettings (setLicenseKey (trim (inputValue m))) w1)
         = (inr tt, w2)
      /\ saved w2 = Some (setLicenseKey (trim (inputValue m)) (settings w))
      /\ installMonolithos host w2 = (ri, w').
Proof.
  destruct (isInstalling m) eqn:I.
  { unfold handleInstall, ubind at 1, getModal at 1. rewrite I.
    intros [= _ _ <-] T. apply trace_same in T as ->. intros []. }
  destruct (nonEmpty (trim (inputValue m))) eqn:K.
  2:{ unfold handleInstall. unfold ubind at 1, getModal at 1. rewrite I.
      unfold ubind at 1, getModal at 1. rewrite K.
      intros [= _ _ <-] T. apply trace_same in T as ->. intros []. }
  destruct (verifyLicense_quiet host (trim (inputValue m)) w) as (r & tv & V & O & G).
  rewrite (handleInstall_steps host message m w _ r I K V).
  destruct (valid r) eqn:R; cbn [negb].
  2:{ intros [= _ _ <-] T. apply app_inv_head in T as <-. intros D. now destruct G. }
  destruct (saveSettings host _) as [[e|[]] w2] eqn:S.
  - destruct (saveSettings_run _ _ _ _ S) as [(e' & _ & -> & _)|[E _]]; [|discriminate].
    intros [= _ _ <-] T. apply app_inv_head in T as <-. intros D. now destruct G.
  - intros H _ _. split; [reflexivity|].
    destruct (installMonolithos host w2) as [ri w3] eqn:Inst.
    exists r, (advance tv w), w2, ri. split; [exact V|]. split; [exact R|].
    split; [exact S|]. split.
    + destruct (saveSettings_run _ _ _ _ S) as [(e' & E & _)|[_ ->]]; [discriminate|].
      destruct (advance_quiet tv w O) as (_ & St & _).
      cbn [saved settings persisted record withSettings]. now rewrite St.
    + destruct ri; injection H as _ _ <-; exact Inst.
Qed.

(** A full run on a host that accepts the key: it has downloaded, so the
    key had been saved. *)
Lemma handleInstall_downloads_licensed_example :
  let host := DemoMore.host Demo.package Demo.noFault in
  exists r w1 w2,
    verifyLicense host "UFO_sk_1" (Demo.start Demo.emptyVault) = (inr r, w1)
    /\ valid r = true
    /\ saved w2
       = Some {| licenseKey := "UFO_sk_1"; installed := false; installedVersion := "" |}.
Proof.
  intros host.
  pose (run := handleInstall host DemoMore.engineText (DemoMore.typed "UFO_sk_1")
                 (Demo.start Demo.emptyVault)).
  assert (H : handleInstall host DemoMore.engineText (DemoMore.typed "UFO_sk_1")
                (Demo.start Demo.emptyVault)
              = (fst (fst run), snd (fst run), snd run))
    by (vm_compute; reflexivity).
  assert (T : trace (snd run)
              = (trace (Demo.start Demo.emptyVault) ++ trace (snd run))%list)
    by (vm_compute; reflexivity).
  assert (D : In (Request "GET" PLUGIN_DOWNLOAD_URL "") (trace (snd run)))
    by (vm_compute; tauto).
  destruct (handleInstall_downloads_licensed host DemoMore.engineText _ _ _ _ _ _ H T D)
    as (_ & r & w1 & w2 & ri & V & R & _ & Sv & _).
  exists r, w1, w2. split; [exact V|]. split; [exact R | exact Sv].
Defined.

(** ** Further properties: the settings *)

(** X15.  After [installMonolithos] has returned, the settings tab says
    ["Monolithos v1.0.0 installed"] and offers ["Reinstall"]; the license
    row is there exactly when a key is stored.  Loading the settings anew
    (as [onload] does at the next start) gives the same settings, so the tab
    shows the same then. *)
Theorem installed_is_displayed (host : Host) (w w' : World) (b : bool) :
  installMonolithos host w = (inr b, w') ->
  display (settings w')
  = {| statusDescription := "Monolithos v1.0.0 installed";
       installButton := "Reinstall";
       licenseRow := nonEmpty (licenseKey (settings w)) |}
  /\ settings (snd (loadSettings w')) = settings w'.
Proof.
  intros H. apply install_success in H as (tw & te & _ & -> & _). split; reflexivity.
Qed.

(** A run without faults on the demo host, with no key stored. *)
Lemma installed_is_displayed_example :
  let host := Demo.host Demo.package Demo.noFault in
  let w' := snd (installMonolithos host (Demo.start Demo.emptyVault)) in
  display (settings (snd (loadSettings w')))
  = {| statusDescription := "Monolithos v1.0.0 installed";
       installButton := "Reinstall";
       licenseRow := false |}.
Proof.
  intros host w'.
  assert (H : installMonolithos host (Demo.start Demo.emptyVault) = (inr true, w'))
    by (vm_compute; reflexivity).
  destruct (installed_is_displayed host _ _ _ H) as (D & L).
  rewrite L, D. reflexivity.
Defined.



(** ** Further properties: the files a run leaves *)

(** X17.  After a run of [installMonolithos] that returns, every file
    other than the appearance file holds the content of the last entry of
    the archive that was placed at its path; a file at which no entry was
    placed holds what it held before.  So of two entries with the same
    target the later one wins. *)
Theorem install_later_entry_wins (host : Host) (w w' : World) (b : bool) :
  installMonolithos host w = (inr b, w') ->
  forall path,
    path <> appearancePathOf host ->
    lookup path (files (vault w'))
    = match lookup path (rev (placed (configDir host) (fileEntries (archive host)))) with
      | Some content => Some content
      | None => lookup path (files (vault w))
      end.
Proof.
  intros H path N.
  destruct (install_success _ _ _ _ _ H) as (tw & te & _ & -> & _ & _ & V & O).
  unfold persisted, withSettings, advance. cbn [vault].
  rewrite (app_assoc (preparation host)), replay_app, V, !replay_app. simpl.
  destruct (editOutcome_quiet _ _ _ _ O) as (_ & _ & _ & [->|(a & _ & ->)]).
  - apply writes_lookup.
  - unfold vaultWrite. cbn [files]. rewrite lookup_update_neq by exact N.
    apply writes_lookup.
Qed.

(** The archive has the snippet twice. *)
Lemma install_later_entry_wins_example :
  let host := Demo.host DemoMore.twoCopies Demo.noFault in
  let w' := snd (installMonolithos host (Demo.start Demo.emptyVault)) in
  lookup ".obsidian/snippets/theme.css" (files (vault w')) = Some "new".
Proof.
  intros host w'.
  assert (H : installMonolithos host (Demo.start Demo.emptyVault) = (inr true, w'))
    by (vm_compute; reflexivity).
  rewrite (install_later_entry_wins host _ _ _ H) by discriminate.
  vm_compute. reflexivity.
Defined.

(** ** Further properties: the name of a snippet *)

Lemma find_char_app (a b : string) (c : ascii) :
  find a (String c "") = None -> find b (String c "") = None ->
  find (a ++ b) (String c "") = None.
Proof.
  intros A B. induction a as [|d a IH]; [exact B|].
  cbn [find startsWith] in A. rewrite andb_true_r in A.
  change (String d a ++ b) with (String d (a ++ b)). cbn [find startsWith].
  rewrite andb_true_r. destruct (Ascii.eqb c d); [discriminate|].
  destruct (find a (String c "")); [discriminate|]. now rewrite IH.
Qed.

(** No occurrence of [".css"] begins in [u] and ends in a [".css"] that
    follows it. *)
Lemma css_no_border (u : string) :
  u <> "" -> startsWith u ".css" = false -> startsWith (u ++ ".css") ".css" = false.
Proof.
  destruct u as [|c1 [|c2 [|c3 [|c4 rest]]]]; simpl; intros N S;
    rewrite ?andb_false_r; auto. congruence.
Qed.

Lemma find_css_suffix (stem : string) :
  find stem ".css" = None ->
  find (stem ++ ".css") ".css" = Some (String.length stem).
Proof.
  induction stem as [|c s IH]; [reflexivity|]. intros H.
  assert (S : startsWith (String c s) ".css" = false).
  { cbn [find] in H. destruct (startsWith (String c s) ".css"); [discriminate|reflexivity]. }
  assert (F : find s ".css" = None).
  { cbn [find] in H. rewrite S in H. now destruct (find s ".css"). }
  change (String c s ++ ".css") with (String c (s ++ ".css")). cbn [find].
  change (String c (s ++ ".css")) with (String c s ++ ".css").
  rewrite (css_no_border (String c s)) by (congruence || exact S).
  now rewrite (IH F).
Qed.

Lemma endsWith_append (a b : string) : endsWith (a ++ b) b = true.
Proof.
  unfold endsWith. rewrite append_length.
  replace (String.length a + String.length b - String.length b) with (String.length a)
    by lia.
  rewrite drop_append, String.eqb_refl, andb_true_r. apply Nat.leb_le. lia.
Qed.

(** X18.  A listed file [<folder>/<stem>.css], where [<stem>] has no slash
    and does not itself contain [".css"], passes the filter of
    [enableSnippets] and is named [<stem>]: the name under which the snippet
    is enabled is the file name without its extension. *)
Theorem snippetName_of_css_file (folder stem : string) :
  includes stem "/" = false ->
  includes stem ".css" = false ->
  endsWith (folder ++ "/" ++ stem ++ ".css") ".css" = true
  /\ snippetName (folder ++ "/" ++ stem ++ ".css") = stem.
Proof.
  intros IS IC.
  assert (NS : find stem "/" = None)
    by (unfold includes in IS; destruct (find stem "/"); congruence).
  assert (NC : find stem ".css" = None)
    by (unfold includes in IC; destruct (find stem ".css"); congruence).
  split.
  - rewrite <- !append_assoc. apply endsWith_append.
  - unfold snippetName. change (folder ++ "/" ++ stem ++ ".css")
      with (folder ++ String "/" (stem ++ ".css")).
    rewrite lastPart_split_app, split_no_sep
      by (apply find_char_app; [exact NS | reflexivity]).
    unfold lastPart; simpl. unfold replace. rewrite (find_css_suffix _ NC).
    rewrite take_append.
    replace (drop (String.length stem + String.length ".css") (stem ++ ".css")) with "".
    + change ("" ++ "") with "". clear.
      induction stem as [|c s IH]; simpl; [reflexivity | now rewrite IH].
    + symmetry. clear. induction stem as [|c s IH]; [reflexivity | exact IH].
Qed.

(** The snippet of the demo package. *)
Lemma snippetName_of_css_file_example :
  snippetName ".obsidian/snippets/monolithos-core.css" = "monolithos-core".
Proof.
  apply (snippetName_of_css_file ".obsidian/snippets" "monolithos-core");
    reflexivity.
Defined.

(** ** Further properties: folders *)

(** X19.  [installMonolithos] never asks for a folder that is there: when
    a run calls [mkdir], the vault as the calls before it have left it has
    neither a folder nor a file at that path. *)
Theorem install_mkdir_guarded (host : Host) (w w' : World) (r : Result bool)
        (t1 t2 : list Event) (path : string) :
  installMonolithos host w = (r, w') ->
  trace w' = (trace w ++ t1 ++ Mkdir path :: t2)%list ->
  vaultExists (replay t1 (vault w)) path = false.
Proof.
  intros H T. apply install_shape in H as (t & T' & _ & _ & G & _).
  rewrite T' in T. apply app_inv_head in T. now apply (G t1 path t2).
Qed.

(** On the demo host with an empty vault, the first folder made is that of
    the plugin. *)
Lemma install_mkdir_guarded_example :
  vaultExists Demo.emptyVault ".obsidian/plugins/monolithos" = false.
Proof.
  pose (host := Demo.host Demo.package Demo.noFault).
  pose (w := Demo.start Demo.emptyVault).
  pose (t1 := (preparation host ++ [Exists ".obsidian/plugins/monolithos"])%list).
  assert (T : exists t2,
             trace (snd (installMonolithos host w))
             = (trace w ++ t1 ++ Mkdir ".obsidian/plugins/monolithos" :: t2)%list).
  { eexists. vm_compute. reflexivity. }
  destruct T as (t2 & T).
  assert (V : replay t1 (vault w) = Demo.emptyVault) by (vm_compute; reflexivity).
  rewrite <- V.
  apply (install_mkdir_guarded host w _ _ t1 t2 _
           (surjective_pairing (installMonolithos host w)) T).
Defined.
